(** * Oculus Rift S driver (src/drv_oculus_rift_s/rift-s.c): a shallow embedding

    The driver is embedded function by function.  Machine integers are [Z]
    with their wrap-around written out, the C [float] and [double]
    arithmetic is kept behind an interface ([FloatArith]) so that every
    statement about the shape of a computation holds for IEEE-754 as well as
    for exact arithmetic, the pose-fusion collaborator is an interface
    ([Fusion]), and the HID transport is an explicit world: per-handle queues
    of pending reads and a trace of the commands that were sent. *)

From Stdlib Require Import ZArith QArith List String Bool Lia Permutation.
From Stdlib Require Import Floats.SpecFloat.
Import ListNotations.

Local Open Scope string_scope.
Local Open Scope list_scope.
Local Open Scope Z_scope.

(* ================================================================== *)
(** * Floating-point arithmetic as the C code uses it *)
(* ================================================================== *)

(** The operations of C [float] and [double] that the driver performs.
    Conversions are explicit: an integer operand of a float operation is
    converted ([f_of_Z], [d_of_Z]), a [float] operand of a [double]
    operation is promoted ([d_of_f]), and a [double] result stored in a
    [float] variable is narrowed ([f_of_d]). *)
Class FloatArith : Type := {
  float : Type;
  double : Type;
  f_of_Z : Z -> float;
  d_of_Z : Z -> double;
  d_of_f : float -> double;
  f_of_d : double -> float;
  fadd : float -> float -> float;
  fsub : float -> float -> float;
  fmul : float -> float -> float;
  fdiv : float -> float -> float;
  dsub : double -> double -> double;
  ddiv : double -> double -> double;
  dleb : double -> double -> bool;
  (** the literal [9.80665] of [OHMD_GRAVITY_EARTH] *)
  d_gravity : double
}.

Declare Scope flt_scope.
Delimit Scope flt_scope with flt.
Infix "+." := fadd (at level 50, left associativity) : flt_scope.
Infix "-." := fsub (at level 50, left associativity) : flt_scope.
Infix "*." := fmul (at level 40, left associativity) : flt_scope.
Infix "/." := fdiv (at level 40, left associativity) : flt_scope.

(** Exact arithmetic: both C types are the rationals, conversions are
    injections and nothing is rounded. *)
#[export] Instance ExactArith : FloatArith := {|
  float := Q;
  double := Q;
  f_of_Z := inject_Z;
  d_of_Z := inject_Z;
  d_of_f := fun q => q;
  f_of_d := fun q => q;
  fadd := Qplus;
  fsub := Qminus;
  fmul := Qmult;
  fdiv := Qdiv;
  dsub := Qminus;
  ddiv := Qdiv;
  dleb := Qle_bool;
  d_gravity := 980665 # 100000
|}.

(** IEEE-754 binary32 and binary64, round to nearest even, computed by the
    reference implementation of [SpecFloat]. *)
Module IEEE.

Definition prec32 := 24.
Definition emax32 := 128.
Definition prec64 := 53.
Definition emax64 := 1024.

Definition of_Z (prec emax : Z) (z : Z) : spec_float :=
  binary_normalize prec emax z 0 false.

(** Re-round a finite value to the format [(prec, emax)]. *)
Definition convert (prec emax : Z) (x : spec_float) : spec_float :=
  match x with
  | S754_finite s m e => binary_normalize prec emax (cond_Zopp s (Zpos m)) e s
  | _ => x
  end.

#[export] Instance Binary32 : FloatArith := {|
  float := spec_float;
  double := spec_float;
  f_of_Z := of_Z prec32 emax32;
  d_of_Z := of_Z prec64 emax64;
  d_of_f := convert prec64 emax64;
  f_of_d := convert prec32 emax32;
  fadd := SFadd prec32 emax32;
  fsub := SFsub prec32 emax32;
  fmul := SFmul prec32 emax32;
  fdiv := SFdiv prec32 emax32;
  dsub := SFsub prec64 emax64;
  ddiv := SFdiv prec64 emax64;
  dleb := SFleb;
  d_gravity := SFdiv prec64 emax64 (of_Z prec64 emax64 980665)
                                   (of_Z prec64 emax64 100000)
|}.

End IEEE.

(* ================================================================== *)
(** * Data model (rift-s-protocol.h, rift-s.c) *)
(* ================================================================== *)

Section DataModel.
Context {FA : FloatArith}.

(** [vec3f]: a union of [{x, y, z}] and [arr[3]]. *)
Record vec3f : Type := mk_vec3f { vx : float; vy : float; vz : float }.

Definition arr (v : vec3f) (i : nat) : float :=
  match i with
  | O => vx v
  | S O => vy v
  | _ => vz v
  end.

Definition set_arr (v : vec3f) (i : nat) (a : float) : vec3f :=
  match i with
  | O => mk_vec3f a (vy v) (vz v)
  | S O => mk_vec3f (vx v) a (vz v)
  | _ => mk_vec3f (vx v) (vy v) a
  end.

(** [float rot[3][3]], stored by rows. *)
Record mat3x3 : Type := mk_mat3x3 { row0 : vec3f; row1 : vec3f; row2 : vec3f }.

Definition rot_at (m : mat3x3) (i j : nat) : float :=
  arr (match i with O => row0 m | S O => row1 m | _ => row2 m end) j.

Record quatf : Type := mk_quatf { qx : float; qy : float; qz : float; qw : float }.

(** [int16_t v[3]] *)
Record int16x3 : Type := mk_int16x3 { i0 : Z; i1 : Z; i2 : Z }.

Definition idx (v : int16x3) (i : nat) : Z :=
  match i with
  | O => i0 v
  | S O => i1 v
  | _ => i2 v
  end.

(** [rift_s_hmd_imu_sample_t] *)
Record rift_s_hmd_imu_sample_t : Type := mk_sample {
  marker : Z;                (* uint8_t *)
  accel : int16x3;
  gyro : int16x3;
  temperature : Z            (* int16_t *)
}.

(** [rift_s_hmd_report_t] *)
Record rift_s_hmd_report_t : Type := mk_report {
  id : Z;                    (* uint8_t *)
  unknown_const1 : Z;        (* uint16_t *)
  timestamp : Z;             (* uint32_t *)
  samples0 : rift_s_hmd_imu_sample_t;
  samples1 : rift_s_hmd_imu_sample_t;
  samples2 : rift_s_hmd_imu_sample_t;
  report_marker : Z;
  unknown2 : Z;
  frame_timestamp : Z;
  unknown_zero1 : Z;
  frame_id : Z;
  unknown_zero2 : Z
}.

(** [report.samples + i] *)
Definition samples (r : rift_s_hmd_report_t) (i : nat) : rift_s_hmd_imu_sample_t :=
  match i with
  | O => samples0 r
  | S O => samples1 r
  | _ => samples2 r
  end.

(** [rift_s_device_info_t] *)
Record rift_s_device_info_t : Type := mk_device_info {
  v_resolution : Z;
  h_resolution : Z;
  refresh_rate : Z
}.

(** [rift_s_imu_config_t] *)
Record rift_s_imu_config_t : Type := mk_imu_config {
  imu_hz : Z;                (* uint32_t *)
  gyro_scale : float;
  accel_scale : float;
  temperature_scale : float;
  temperature_offset : float
}.

(** The fields of [rift_s_imu_calibration] (rift-s-firmware.h) that the
    driver reads: [accel.offset_at_0C], [accel.rectification],
    [gyro.offset], [gyro.rectification]. *)
Record rift_s_imu_calibration : Type := mk_imu_calibration {
  accel_offset_at_0C : vec3f;
  accel_rectification : mat3x3;
  gyro_offset : vec3f;
  gyro_rectification : mat3x3
}.

End DataModel.


Arguments mk_vec3f {FA} _ _ _.
Arguments mk_mat3x3 {FA} _ _ _.
Arguments mk_quatf {FA} _ _ _ _.
Arguments mk_imu_config {FA} _ _ _ _ _.
Arguments mk_imu_calibration {FA} _ _ _ _.

(* ================================================================== *)
(** * External collaborators *)
(* ================================================================== *)

(** The pose-fusion module (omath/fusion): the driver only initialises the
    filter, feeds it one [(dt, gyro, accel, mag)] tuple per sample and reads
    the orientation back. *)
Class Fusion {FA : FloatArith} : Type := {
  fusion : Type;
  (** the zero-filled filter inside a freshly allocated session *)
  fusion_zero : fusion;
  ofusion_init : fusion -> fusion;
  ofusion_update : fusion -> float -> vec3f -> vec3f -> vec3f -> fusion;
  orient : fusion -> quatf
}.

(** One call of [ofusion_update]. *)
Record fusion_call {FA : FloatArith} : Type := mk_fusion_call {
  fc_dt : float;
  fc_gyro : vec3f;
  fc_accel : vec3f;
  fc_mag : vec3f
}.

Arguments mk_fusion_call {FA} _ _ _ _.

(** The fusion filter that only remembers what it was given, oldest call
    first.  Every other filter is a fold over this record of calls. *)
#[export] Instance Recorder {FA : FloatArith} : Fusion := {|
  fusion := list fusion_call;
  fusion_zero := [];
  ofusion_init := fun _ => [];
  ofusion_update := fun f dt g a m => f ++ [mk_fusion_call dt g a m];
  orient := fun _ => mk_quatf (f_of_Z 0) (f_of_Z 0) (f_of_Z 0) (f_of_Z 1)
|}.

(** The report parsers of rift-s-protocol.c, of which the driver only sees
    the declarations: [rift_s_parse_hmd_report] fills a report and returns
    [true], or returns [false]; [rift_s_parse_controller_report] is used for
    its verdict only. *)
Class Protocol {FA : FloatArith} : Type := {
  rift_s_parse_hmd_report : list Z -> Z -> option rift_s_hmd_report_t;
  rift_s_parse_controller_report : list Z -> Z -> bool
}.

(* ================================================================== *)
(** * The session object *)
(* ================================================================== *)

(** [hid_device*]: an opened transport handle. *)
Definition handle := nat.

(** [rift_s_hmd_t*]: the address of a session object. *)
Definition ptr := nat.

Section Session.
Context {FA : FloatArith} {FU : Fusion}.

(** [rift_s_device_priv] (rift-s.h): the logical device embedded in the
    session.  Of [base] only the resolution taken from the device is kept. *)
Record rift_s_device_priv : Type := mk_device_priv {
  dev_id : Z;
  dev_hmd : option ptr;
  dev_opened : bool;
  dev_hres : Z;
  dev_vres : Z
}.

(** [struct rift_s_hmd_s] *)
Record rift_s_hmd_t : Type := mk_hmd {
  use_count : Z;
  handles : list (option handle);     (* hid_device* handles[3] *)
  last_imu_timestamp : Z;             (* uint32_t *)
  last_keep_alive : double;
  sensor_fusion : fusion;
  raw_mag : vec3f;
  raw_accel : vec3f;
  raw_gyro : vec3f;
  hmd_temperature : float;
  display_on : bool;
  hmd_dev : rift_s_device_priv;
  device_info : rift_s_device_info_t;
  imu_config : rift_s_imu_config_t;
  imu_calibration : rift_s_imu_calibration
}.

Definition set_use_count (h : rift_s_hmd_t) (v : Z) : rift_s_hmd_t :=
  mk_hmd v (handles h) (last_imu_timestamp h) (last_keep_alive h)
    (sensor_fusion h) (raw_mag h) (raw_accel h) (raw_gyro h) (hmd_temperature h)
    (display_on h) (hmd_dev h) (device_info h) (imu_config h) (imu_calibration h).

Definition set_handles (h : rift_s_hmd_t) (v : list (option handle)) : rift_s_hmd_t :=
  mk_hmd (use_count h) v (last_imu_timestamp h) (last_keep_alive h)
    (sensor_fusion h) (raw_mag h) (raw_accel h) (raw_gyro h) (hmd_temperature h)
    (display_on h) (hmd_dev h) (device_info h) (imu_config h) (imu_calibration h).

Definition set_last_imu_timestamp (h : rift_s_hmd_t) (v : Z) : rift_s_hmd_t :=
  mk_hmd (use_count h) (handles h) v (last_keep_alive h)
    (sensor_fusion h) (raw_mag h) (raw_accel h) (raw_gyro h) (hmd_temperature h)
    (display_on h) (hmd_dev h) (device_info h) (imu_config h) (imu_calibration h).

Definition set_last_keep_alive (h : rift_s_hmd_t) (v : double) : rift_s_hmd_t :=
  mk_hmd (use_count h) (handles h) (last_imu_timestamp h) v
    (sensor_fusion h) (raw_mag h) (raw_accel h) (raw_gyro h) (hmd_temperature h)
    (display_on h) (hmd_dev h) (device_info h) (imu_config h) (imu_calibration h).

Definition set_sensor_fusion (h : rift_s_hmd_t) (v : fusion) : rift_s_hmd_t :=
  mk_hmd (use_count h) (handles h) (last_imu_timestamp h) (last_keep_alive h)
    v (raw_mag h) (raw_accel h) (raw_gyro h) (hmd_temperature h)
    (display_on h) (hmd_dev h) (device_info h) (imu_config h) (imu_calibration h).

Definition set_raw_accel (h : rift_s_hmd_t) (v : vec3f) : rift_s_hmd_t :=
  mk_hmd (use_count h) (handles h) (last_imu_timestamp h) (last_keep_alive h)
    (sensor_fusion h) (raw_mag h) v (raw_gyro h) (hmd_temperature h)
    (display_on h) (hmd_dev h) (device_info h) (imu_config h) (imu_calibration h).

Definition set_raw_gyro (h : rift_s_hmd_t) (v : vec3f) : rift_s_hmd_t :=
  mk_hmd (use_count h) (handles h) (last_imu_timestamp h) (last_keep_alive h)
    (sensor_fusion h) (raw_mag h) (raw_accel h) v (hmd_temperature h)
    (display_on h) (hmd_dev h) (device_info h) (imu_config h) (imu_calibration h).

Definition set_temperature (h : rift_s_hmd_t) (v : float) : rift_s_hmd_t :=
  mk_hmd (use_count h) (handles h) (last_imu_timestamp h) (last_keep_alive h)
    (sensor_fusion h) (raw_mag h) (raw_accel h) (raw_gyro h) v
    (display_on h) (hmd_dev h) (device_info h) (imu_config h) (imu_calibration h).

Definition set_display_on (h : rift_s_hmd_t) (v : bool) : rift_s_hmd_t :=
  mk_hmd (use_count h) (handles h) (last_imu_timestamp h) (last_keep_alive h)
    (sensor_fusion h) (raw_mag h) (raw_accel h) (raw_gyro h) (hmd_temperature h)
    v (hmd_dev h) (device_info h) (imu_config h) (imu_calibration h).

Definition set_hmd_dev (h : rift_s_hmd_t) (v : rift_s_device_priv) : rift_s_hmd_t :=
  mk_hmd (use_count h) (handles h) (last_imu_timestamp h) (last_keep_alive h)
    (sensor_fusion h) (raw_mag h) (raw_accel h) (raw_gyro h) (hmd_temperature h)
    (display_on h) v (device_info h) (imu_config h) (imu_calibration h).

Definition set_device_info (h : rift_s_hmd_t) (v : rift_s_device_info_t) : rift_s_hmd_t :=
  mk_hmd (use_count h) (handles h) (last_imu_timestamp h) (last_keep_alive h)
    (sensor_fusion h) (raw_mag h) (raw_accel h) (raw_gyro h) (hmd_temperature h)
    (display_on h) (hmd_dev h) v (imu_config h) (imu_calibration h).

Definition set_imu_config (h : rift_s_hmd_t) (v : rift_s_imu_config_t) : rift_s_hmd_t :=
  mk_hmd (use_count h) (handles h) (last_imu_timestamp h) (last_keep_alive h)
    (sensor_fusion h) (raw_mag h) (raw_accel h) (raw_gyro h) (hmd_temperature h)
    (display_on h) (hmd_dev h) (device_info h) v (imu_calibration h).

Definition set_imu_calibration (h : rift_s_hmd_t) (v : rift_s_imu_calibration) : rift_s_hmd_t :=
  mk_hmd (use_count h) (handles h) (last_imu_timestamp h) (last_keep_alive h)
    (sensor_fusion h) (raw_mag h) (raw_accel h) (raw_gyro h) (hmd_temperature h)
    (display_on h) (hmd_dev h) (device_info h) (imu_config h) v.

(** [priv->handles[i]] *)
Definition handle_at (h : rift_s_hmd_t) (i : nat) : option handle :=
  nth i (handles h) None.

End Session.

(* ================================================================== *)
(** * The inertial sample pipeline *)
(* ================================================================== *)

Section Pipeline.
Context {FA : FloatArith} {FU : Fusion} {PR : Protocol}.
Local Open Scope flt_scope.

(** [vec3f_rotate_3x3]: the vector is rewritten in place, one component per
    iteration, from the copy [in] taken on entry. *)
Definition vec3f_rotate_3x3 (vec : vec3f) (rot : mat3x3) : vec3f :=
  let in_ := vec in
  fold_left
    (fun (v : vec3f) (i : nat) =>
       set_arr v i (rot_at rot i 0 *. arr in_ 0 +. rot_at rot i 1 *. arr in_ 1
                    +. rot_at rot i 2 *. arr in_ 2))
    (seq 0 3) vec.

(** [const float TICK_LEN = 1.0 / priv->imu_config.imu_hz] *)
Definition TICK_LEN (priv : rift_s_hmd_t) : float :=
  f_of_d (ddiv (d_of_Z 1) (d_of_Z (imu_hz (imu_config priv)))).

(** The [dt] a report starts with: the tick length, replaced by the
    distance to the stored timestamp (a [uint32_t] difference, divided by
    [1000000.0f]) when the stored timestamp is not [0]. *)
Definition initial_dt (priv : rift_s_hmd_t) (report : rift_s_hmd_report_t) : float :=
  if last_imu_timestamp priv =? 0 then TICK_LEN priv
  else f_of_Z ((timestamp report - last_imu_timestamp priv) mod 2 ^ 32)
       /. f_of_Z 1000000.

(** [const float gyro_scale = priv->imu_config.gyro_scale / 32768.0] *)
Definition gyro_scale_of (priv : rift_s_hmd_t) : float :=
  f_of_d (ddiv (d_of_f (gyro_scale (imu_config priv))) (d_of_Z 32768)).

(** [const float accel_scale = OHMD_GRAVITY_EARTH / priv->imu_config.accel_scale] *)
Definition accel_scale_of (priv : rift_s_hmd_t) : float :=
  f_of_d (ddiv d_gravity (d_of_f (accel_scale (imu_config priv)))).

(** [const float temperature_scale = 1.0 / priv->imu_config.temperature_scale] *)
Definition temperature_scale_of (priv : rift_s_hmd_t) : float :=
  f_of_d (ddiv (d_of_Z 1) (d_of_f (temperature_scale (imu_config priv)))).

(** The constants a report is processed with, computed once before the
    sample loop. *)
Record report_consts : Type := mk_consts {
  c_tick_len : float;
  c_gyro_scale : float;
  c_accel_scale : float;
  c_temperature_scale : float;
  c_temperature_offset : float
}.

Definition consts_of (priv : rift_s_hmd_t) : report_consts :=
  mk_consts (TICK_LEN priv) (gyro_scale_of priv) (accel_scale_of priv)
    (temperature_scale_of priv) (temperature_offset (imu_config priv)).

(** [s->marker & 0x80] *)
Definition marker_invalid (s : rift_s_hmd_imu_sample_t) : bool :=
  negb (Z.land (marker s) 128 =? 0).

(** The scaled raw vector: [scale * v[0]], [scale * v[1]], [scale * v[2]]. *)
Definition scale_int16x3 (scale : float) (v : int16x3) : vec3f :=
  mk_vec3f (scale *. f_of_Z (idx v 0)) (scale *. f_of_Z (idx v 1))
           (scale *. f_of_Z (idx v 2)).

(** The inner loop [for (j = 0; j < 3; j++)] that subtracts the offsets of
    both sensors, component by component. *)
Definition subtract_offsets (priv : rift_s_hmd_t) (ag : vec3f * vec3f) : vec3f * vec3f :=
  fold_left
    (fun (p : vec3f * vec3f) (j : nat) =>
       let accel := set_arr (fst p) j
         (arr (fst p) j -. arr (accel_offset_at_0C (imu_calibration priv)) j) in
       let gyro := set_arr (snd p) j
         (arr (snd p) j -. arr (gyro_offset (imu_calibration priv)) j) in
       (accel, gyro))
    (seq 0 3) ag.

(** The body of the sample loop for a sample that passed the marker test. *)
Definition handle_sample (c : report_consts) (priv : rift_s_hmd_t)
    (s : rift_s_hmd_imu_sample_t) (dt : float) : rift_s_hmd_t :=
  let gyro := scale_int16x3 (c_gyro_scale c) (gyro s) in
  let accel := scale_int16x3 (c_accel_scale c) (accel s) in
  (* Apply correction offsets first, then rectify *)
  let ag := subtract_offsets priv (accel, gyro) in
  let accel := vec3f_rotate_3x3 (fst ag) (accel_rectification (imu_calibration priv)) in
  let gyro := vec3f_rotate_3x3 (snd ag) (gyro_rectification (imu_calibration priv)) in
  let priv := set_raw_accel priv accel in
  let priv := set_raw_gyro priv gyro in
  let priv := set_temperature priv
    (c_temperature_scale c *. (f_of_Z (temperature s) -. c_temperature_offset c)
     +. f_of_Z 25) in
  set_sensor_fusion priv
    (ofusion_update (sensor_fusion priv) dt (raw_gyro priv) (raw_accel priv)
       (raw_mag priv)).

(** [for (int i = 0; i < 3; i++)] over the indices still to visit; the
    [break] leaves the loop at the first sample whose marker has bit 0x80,
    and [dt] is the tick length from the second visited sample on. *)
Fixpoint sample_loop (c : report_consts) (report : rift_s_hmd_report_t)
    (todo : list nat) (dt : float) (priv : rift_s_hmd_t) : rift_s_hmd_t :=
  match todo with
  | [] => priv
  | i :: todo' =>
      let s := samples report i in
      if marker_invalid s then priv
      else sample_loop c report todo' (c_tick_len c) (handle_sample c priv s dt)
  end.

(** [handle_hmd_report] once the report has been parsed. *)
Definition handle_hmd_report_parsed (priv : rift_s_hmd_t)
    (report : rift_s_hmd_report_t) : rift_s_hmd_t :=
  let c := consts_of priv in
  let dt := initial_dt priv report in
  let priv := sample_loop c report (seq 0 3) dt priv in
  set_last_imu_timestamp priv (timestamp report).

(** [handle_hmd_report] *)
Definition handle_hmd_report (priv : rift_s_hmd_t) (buf : list Z) (size : Z)
  : rift_s_hmd_t :=
  match rift_s_parse_hmd_report buf size with
  | None => priv
  | Some report => handle_hmd_report_parsed priv report
  end.

End Pipeline.

(* ================================================================== *)
(** * The world the driver runs in *)
(* ================================================================== *)

(** What the driver does to its collaborators, in the order it does it. *)
Inductive event : Type :=
| EvHidOpenPath (path : string)
| EvHidSetNonblocking (h : handle)
| EvHidClose (h : handle)
| EvReadDeviceInfo (h : handle)
| EvGetReport1 (h : handle)
| EvReadImuConfig (h : handle)
| EvReadFirmwareBlock (h : handle) (block_id : Z)
| EvHmdEnable (h : handle) (enable : bool)
| EvSetScreenEnable (h : option handle) (enable : bool)
| EvSendKeepalive (h : option handle)
| EvLogE (msg : string)
| EvLogW (msg : string)
| EvLogW_id (msg : string) (report_id : Z)
| EvLogD (msg : string)
| EvSetError (msg : string)
| EvPrintf (msg : string).

(** One result of [hid_read]: a negative size, or the bytes of a report
    (no bytes: size 0). *)
Inductive read_result : Type :=
| ReadError
| ReadData (data : list Z).

(** An entry of [hid_enumerate]'s result. *)
Record hid_device_info : Type := mk_hid_device_info {
  hdi_path : string;
  interface_number : Z
}.

Definition OCULUS_VR_INC_ID : Z := 0x2833.
Definition RIFT_S_PID : Z := 0x0051.
Definition RIFT_S_INTF_HMD : Z := 6.
Definition RIFT_S_INTF_STATUS : Z := 7.
Definition RIFT_S_INTF_CONTROLLERS : Z := 8.
Definition FEATURE_BUFFER_SIZE : Z := 256.
Definition KEEPALIVE_INTERVAL_MS : Z := 1000.

(** The answers of the device and of the protocol layer below the driver
    (hidapi, rift-s-protocol.c, rift-s-firmware.c) during open and close.
    A call that returns a status and fills a structure is a pair. *)
Class Hardware {FA : FloatArith} : Type := {
  hid_enumerate : Z -> Z -> list hid_device_info;
  hid_open_path : string -> option handle;
  hid_set_nonblocking : handle -> Z -> Z;
  rift_s_read_device_info : handle -> Z * rift_s_device_info_t;
  rift_s_get_report1 : handle -> Z;
  rift_s_read_imu_config : handle -> Z * rift_s_imu_config_t;
  rift_s_read_firmware_block : handle -> Z -> Z * list Z;
  rift_s_parse_imu_calibration : list Z -> Z * rift_s_imu_calibration;
  rift_s_hmd_enable : handle -> bool -> Z;
  (** the block id of rift-s-firmware.h *)
  RIFT_S_FIRMWARE_BLOCK_IMU_CALIB : Z
}.

Section World.
Context {FA : FloatArith} {FU : Fusion} {PR : Protocol} {HW : Hardware}.

(** The process state: the global list [rift_hmds] (head first, one node
    per path), the allocated session objects by address, the next fresh
    address, the trace, the reads pending on each handle and the clock. *)
Record world : Type := mk_world {
  rift_hmds : list (string * ptr);
  heap : list (ptr * rift_s_hmd_t);
  brk : ptr;
  trace : list event;
  inbox : list (handle * list read_result);
  now : double
}.

Definition set_rift_hmds (w : world) (v : list (string * ptr)) : world :=
  mk_world v (heap w) (brk w) (trace w) (inbox w) (now w).

Definition set_heap (w : world) (v : list (ptr * rift_s_hmd_t)) : world :=
  mk_world (rift_hmds w) v (brk w) (trace w) (inbox w) (now w).

Definition set_brk (w : world) (v : ptr) : world :=
  mk_world (rift_hmds w) (heap w) v (trace w) (inbox w) (now w).

Definition set_inbox (w : world) (v : list (handle * list read_result)) : world :=
  mk_world (rift_hmds w) (heap w) (brk w) (trace w) v (now w).

(** Append an event to the trace. *)
Definition emit (e : event) (w : world) : world :=
  mk_world (rift_hmds w) (heap w) (brk w) (trace w ++ [e]) (inbox w) (now w).

(** Association lists keyed by addresses or handles. *)
Fixpoint lookup {A : Type} (k : nat) (l : list (nat * A)) : option A :=
  match l with
  | [] => None
  | (k', a) :: l' => if Nat.eqb k k' then Some a else lookup k l'
  end.

Fixpoint remove_key {A : Type} (k : nat) (l : list (nat * A)) : list (nat * A) :=
  match l with
  | [] => []
  | (k', a) :: l' =>
      if Nat.eqb k k' then remove_key k l' else (k', a) :: remove_key k l'
  end.

Definition store {A : Type} (k : nat) (a : A) (l : list (nat * A)) : list (nat * A) :=
  (k, a) :: remove_key k l.

(** [*p] for a session address. *)
Definition deref (p : ptr) (w : world) : option rift_s_hmd_t := lookup p (heap w).

Definition write (p : ptr) (h : rift_s_hmd_t) (w : world) : world :=
  set_heap w (store p h (heap w)).

(** [free(p)] *)
Definition free (p : ptr) (w : world) : world :=
  set_heap w (remove_key p (heap w)).

(** The reads still pending on a handle. *)
Definition pending (h : handle) (w : world) : list read_result :=
  match lookup h (inbox w) with
  | Some q => q
  | None => []
  end.

Definition set_pending (h : handle) (q : list read_result) (w : world) : world :=
  set_inbox w (store h q (inbox w)).

(* ------------------------------------------------------------------ *)
(** ** The session list: [find_hmd], [push_hmd] *)

Fixpoint find_hmd_in (l : list (string * ptr)) (hid_path : string) : option ptr :=
  match l with
  | [] => None
  | (path, hmd) :: next =>
      if String.eqb path hid_path then Some hmd else find_hmd_in next hid_path
  end.

Definition find_hmd (hid_path : string) (w : world) : option ptr :=
  find_hmd_in (rift_hmds w) hid_path.

Definition push_hmd (hmd : ptr) (hid_path : string) (w : world) : world :=
  set_rift_hmds w ((hid_path, hmd) :: rift_hmds w).

(* ------------------------------------------------------------------ *)
(** ** [close_hmd] and [release_hmd] *)

(** [for (i = 0; i < 3; i++) if (hmd->handles[i]) hid_close(hmd->handles[i])] *)
Definition close_handles (hmd : rift_s_hmd_t) (w : world) : world :=
  fold_left
    (fun (w : world) (i : nat) =>
       match handle_at hmd i with
       | Some h => emit (EvHidClose h) w
       | None => w
       end)
    (seq 0 3) w.

(** [close_hmd]: the session object at [p], whose current value is [hmd]. *)
Definition close_hmd (p : ptr) (hmd : rift_s_hmd_t) (w : world) : world :=
  let w :=
    match handle_at hmd 0 with
    | Some h0 =>
        let w := emit (EvHmdEnable h0 true) w in
        if rift_s_hmd_enable h0 true <? 0
        then emit (EvLogW "Failed to disable Rift S") w
        else w
    | None => w
    end in
  let w := close_handles hmd w in
  free p w.

(** The walk of [release_hmd] through the list: the first node that holds
    [hmd] is unlinked; [None] when no node holds it. *)
Fixpoint unlink (l : list (string * ptr)) (hmd : ptr) : option (list (string * ptr)) :=
  match l with
  | [] => None
  | (path, cur) :: next =>
      if Nat.eqb cur hmd then Some next
      else match unlink next hmd with
           | Some next' => Some ((path, cur) :: next')
           | None => None
           end
  end.

(** [release_hmd]; [None] when [hmd] does not address a live session. *)
Definition release_hmd (hmd : ptr) (w : world) : option world :=
  match deref hmd w with
  | None => None
  | Some s =>
      if 1 <? use_count s then
        Some (write hmd (set_use_count s (use_count s - 1)) w)
      else
        (* Use count on the HMD device hit 0, release it and remove from
           the list *)
        match unlink (rift_hmds w) hmd with
        | Some l => Some (set_rift_hmds (close_hmd hmd s w) l)
        | None => Some (emit (EvLogE "Failed to find HMD in the active device list") w)
        end
  end.

End World.

(* ================================================================== *)
(** * Polling: [update_hmd] *)
(* ================================================================== *)

Section Poll.
Context {FA : FloatArith} {FU : Fusion} {PR : Protocol} {HW : Hardware}.

(** [handle_controller_report] *)
Definition handle_controller_report (buf : list Z) (size : Z) (w : world) : world :=
  if rift_s_parse_controller_report buf size then w
  else emit (EvPrintf "Invalid Controller Report") w.

(** The dispatch on [buf[0]] inside the read loop of [update_hmd]. *)
Definition handle_report (priv : rift_s_hmd_t) (buf : list Z) (size : Z)
    (w : world) : rift_s_hmd_t * world :=
  if nth 0 buf 0 =? 0x65 then (handle_hmd_report priv buf size, w)
  else if nth 0 buf 0 =? 0x67 then (priv, handle_controller_report buf size w)
  else if nth 0 buf 0 =? 0x66 then
    (* System state packet. Enable the screen if the prox sensor is
       triggered *)
    let prox_sensor := if nth 1 buf 0 =? 0 then false else true in
    if negb (Bool.eqb prox_sensor (display_on priv)) then
      (set_display_on priv prox_sensor,
       emit (EvSetScreenEnable (handle_at priv 0) prox_sensor) w)
    else (priv, w)
  else (priv, emit (EvLogW_id "Unknown Rift S report 0x%02x!" (nth 0 buf 0)) w).

(** What [hid_read] leaves in [buf]: the report in front, the older
    content behind it. *)
Definition fill (data buf : list Z) : list Z :=
  data ++ skipn (List.length data) buf.

(** [while (true)] on one handle, by recursion on the reads pending on it;
    with none pending [hid_read] returns 0.  At most [FEATURE_BUFFER_SIZE]
    bytes of a report are read.  The result carries the reads that were
    not consumed. *)
Fixpoint read_loop (queue : list read_result) (priv : rift_s_hmd_t)
    (buf : list Z) (w : world)
  : rift_s_hmd_t * list Z * world * list read_result :=
  match queue with
  | [] => (priv, buf, w, [])
  | ReadError :: rest =>
      (priv, buf, emit (EvLogE "error reading from HMD device") w, rest)
  | ReadData data :: rest =>
      let data := firstn (Z.to_nat FEATURE_BUFFER_SIZE) data in
      let size := Z.of_nat (List.length data) in
      if size =? 0 then (priv, buf, w, rest) (* No more messages, return. *)
      else
        let buf := fill data buf in
        let pw := handle_report priv buf size w in
        read_loop rest (fst pw) buf (snd pw)
  end.

(** The read loop on handle [h], taking its reads from the world. *)
Definition poll_handle (h : handle) (st : rift_s_hmd_t * list Z * world)
  : rift_s_hmd_t * list Z * world :=
  let '(priv, buf, w) := st in
  let '(priv, buf, w, rest) := read_loop (pending h w) priv buf w in
  (priv, buf, set_pending h rest w).

(** [for (int i = 0; i < 3; i++)] of [update_hmd] *)
Definition poll_handles (st : rift_s_hmd_t * list Z * world)
  : rift_s_hmd_t * list Z * world :=
  fold_left
    (fun (st : rift_s_hmd_t * list Z * world) (i : nat) =>
       match handle_at (fst (fst st)) i with
       | None => st
       | Some h => poll_handle h st
       end)
    (seq 0 3) st.

(** The keep-alive at the head of [update_hmd]. *)
Definition keep_alive (priv : rift_s_hmd_t) (w : world) : rift_s_hmd_t * world :=
  let t := now w in
  if dleb (ddiv (d_of_Z KEEPALIVE_INTERVAL_MS) (d_of_Z 1000))
          (dsub t (last_keep_alive priv))
  then (set_last_keep_alive priv t, emit (EvSendKeepalive (handle_at priv 0)) w)
  else (priv, w).

(** [update_hmd]; [buf] is the content the local buffer happens to have
    on entry. *)
Definition update_hmd (priv : rift_s_hmd_t) (buf : list Z) (w : world)
  : rift_s_hmd_t * world :=
  let pw := keep_alive priv w in
  let st := poll_handles (fst pw, buf, snd pw) in
  (fst (fst st), snd st).

(** [update_device]: the device at [device] is the [hmd_dev] of the
    session stored there; [None] when an address is not live. *)
Definition update_device (device : ptr) (buf : list Z) (w : world) : option world :=
  match deref device w with
  | None => None
  | Some s =>
      match dev_hmd (hmd_dev s) with
      | None => None
      | Some hp =>
          match deref hp w with
          | None => None
          | Some hmd =>
              let pw := update_hmd hmd buf w in
              Some (write hp (fst pw) (snd pw))
          end
      end
  end.

End Poll.

(* ================================================================== *)
(** * Float queries: [getf_hmd], [getf] *)
(* ================================================================== *)

(** [ohmd_float_value] (openhmd.h): the values [getf_hmd] names, and all
    the others. *)
Inductive ohmd_float_value : Type :=
| OHMD_DISTORTION_K
| OHMD_ROTATION_QUAT
| OHMD_POSITION_VECTOR
| OHMD_CONTROLS_STATE
| OHMD_OTHER_VALUE (type : Z).

Section Getf.
Context {FA : FloatArith} {FU : Fusion} {PR : Protocol} {HW : Hardware}.

(** Writing [vals] at the start of the caller's buffer. *)
Definition write_floats (vals out : list float) : list float :=
  vals ++ skipn (List.length vals) out.

(** [getf_hmd] *)
Definition getf_hmd (hmd : rift_s_hmd_t) (type : ohmd_float_value)
    (out : list float) (w : world) : Z * list float * world :=
  match type with
  | OHMD_DISTORTION_K =>
      (0, fold_left (fun o (_ : nat) => write_floats (repeat (f_of_Z 0) 6) o)
            (seq 0 6) out, w)
  | OHMD_ROTATION_QUAT =>
      let q := orient (sensor_fusion hmd) in
      (0, write_floats [qx q; qy q; qz q; qw q] out, w)
  | OHMD_POSITION_VECTOR =>
      (0, write_floats [f_of_Z 0; f_of_Z 0; f_of_Z 0] out, w)
  | OHMD_CONTROLS_STATE => (0, out, w)
  | OHMD_OTHER_VALUE _ =>
      (-1, out, emit (EvSetError "invalid type given to getf (%ud)") w)
  end.

(** [getf]; [None] when an address is not live. *)
Definition getf (device : ptr) (type : ohmd_float_value) (out : list float)
    (w : world) : option (Z * list float * world) :=
  match deref device w with
  | None => None
  | Some s =>
      let dev_priv := hmd_dev s in
      if dev_id dev_priv =? 0 then
        match dev_hmd dev_priv with
        | None => None
        | Some hp =>
            match deref hp w with
            | None => None
            | Some hmd => Some (getf_hmd hmd type out w)
            end
        end
      else Some (-1, out, w)
  end.

End Getf.

(* ================================================================== *)
(** * Opening and closing: [open_hid_dev], [open_hmd], [open_device],
      [close_device] *)
(* ================================================================== *)

(** [ohmd_device_desc], as far as the driver reads it. *)
Record ohmd_device_desc : Type := mk_desc {
  desc_path : string;
  desc_id : Z
}.

Section Open.
Context {FA : FloatArith} {FU : Fusion} {PR : Protocol} {HW : Hardware}.

(** [while (cur_dev)] of [open_hid_dev]: the first entry of the wanted
    interface that opens. *)
Fixpoint open_first (devs : list hid_device_info) (iface_num : Z) (w : world)
  : option handle * world :=
  match devs with
  | [] => (None, w)
  | cur_dev :: next =>
      if interface_number cur_dev =? iface_num then
        let w := emit (EvHidOpenPath (hdi_path cur_dev)) w in
        match hid_open_path (hdi_path cur_dev) with
        | Some h => (Some h, w)
        | None =>
            open_first next iface_num
              (emit (EvSetError "Could not open %s. Check your permissions") w)
        end
      else open_first next iface_num w
  end.

(** [open_hid_dev] *)
Definition open_hid_dev (vid pid iface_num : Z) (w : world) : option handle * world :=
  match hid_enumerate vid pid with
  | [] => (None, w)
  | devs =>
      let hw := open_first devs iface_num w in
      match fst hw with
      | Some h =>
          let w := emit (EvHidSetNonblocking h) (snd hw) in
          if hid_set_nonblocking h 1 =? -1 then
            let w := emit (EvSetError "Failed to set non-blocking mode on USB device") w in
            (None, emit (EvHidClose h) w)
          else (Some h, w)
      | None => (None, snd hw)
      end
  end.

Definition zero_vec3f : vec3f := mk_vec3f (f_of_Z 0) (f_of_Z 0) (f_of_Z 0).

Definition zero_mat3x3 : mat3x3 := mk_mat3x3 zero_vec3f zero_vec3f zero_vec3f.

(** The zero-filled session object that [ohmd_alloc] returns. *)
Definition zero_hmd : rift_s_hmd_t :=
  mk_hmd 0 [None; None; None] 0 (d_of_Z 0) fusion_zero
    zero_vec3f zero_vec3f zero_vec3f (f_of_Z 0) false
    (mk_device_priv 0 None false 0 0)
    (mk_device_info 0 0 0)
    (mk_imu_config 0 (f_of_Z 0) (f_of_Z 0) (f_of_Z 0) (f_of_Z 0))
    (mk_imu_calibration zero_vec3f zero_mat3x3 zero_vec3f zero_mat3x3).

(** [handles[i] = h] *)
Fixpoint set_nth {A : Type} (i : nat) (a : A) (l : list A) : list A :=
  match i, l with
  | _, [] => []
  | O, _ :: l' => a :: l'
  | S i', x :: l' => x :: set_nth i' a l'
  end.

(** The loop of [open_hmd] that opens the three interfaces, stopping at
    the first that does not open ([false]). *)
Fixpoint open_handles (interfaces : list Z) (i : nat) (priv : rift_s_hmd_t)
    (w : world) : bool * rift_s_hmd_t * world :=
  match interfaces with
  | [] => (true, priv, w)
  | iface :: rest =>
      let hw := open_hid_dev OCULUS_VR_INC_ID RIFT_S_PID iface w in
      let priv := set_handles priv (set_nth i (fst hw) (handles priv)) in
      match fst hw with
      | None => (false, priv, snd hw)
      | Some _ => open_handles rest (S i) priv (snd hw)
      end
  end.

(** [read_calibration] *)
Definition read_calibration (hmd : rift_s_hmd_t) (hid : handle) (w : world)
  : Z * rift_s_hmd_t * world :=
  let w := emit (EvReadFirmwareBlock hid RIFT_S_FIRMWARE_BLOCK_IMU_CALIB) w in
  let r := rift_s_read_firmware_block hid RIFT_S_FIRMWARE_BLOCK_IMU_CALIB in
  if fst r <? 0 then (fst r, hmd, w)
  else
    let c := rift_s_parse_imu_calibration (snd r) in
    (fst c, set_imu_calibration hmd (snd c), w).

(** [open_hmd] from the point where the three handles are open and
    [hid = priv->handles[0]]; [None] is the jump to [cleanup]. *)
Definition open_hmd_configure (p : ptr) (priv : rift_s_hmd_t) (hid : handle)
    (w : world) : option rift_s_hmd_t * rift_s_hmd_t * world :=
  let w := emit (EvReadDeviceInfo hid) w in
  let priv := set_device_info priv (snd (rift_s_read_device_info hid)) in
  if fst (rift_s_read_device_info hid) <? 0 then
    (None, priv, emit (EvLogE "Failed to read Rift S device info") w)
  else
  let w := emit (EvGetReport1 hid) w in
  if rift_s_get_report1 hid <? 0 then
    (None, priv, emit (EvLogE "Failed to read Rift S Report 1") w)
  else
  let w := emit (EvReadImuConfig hid) w in
  let priv := set_imu_config priv (snd (rift_s_read_imu_config hid)) in
  if fst (rift_s_read_imu_config hid) <? 0 then
    (None, priv, emit (EvLogE "Failed to read IMU configuration block") w)
  else
  let '(ret, priv, w) := read_calibration priv hid w in
  if ret <? 0 then (None, priv, w)
  else
  (* device properties from the device info; id and back pointer *)
  let priv := set_hmd_dev priv
    (mk_device_priv 0 (Some p) (dev_opened (hmd_dev priv))
       (h_resolution (device_info priv)) (v_resolution (device_info priv))) in
  (* initialize sensor fusion *)
  let priv := set_sensor_fusion priv (ofusion_init (sensor_fusion priv)) in
  let w := emit (EvHmdEnable hid true) w in
  if rift_s_hmd_enable hid true <? 0 then
    (None, priv, emit (EvLogE "Failed to enable Rift S") w)
  else (Some priv, priv, w).

(** [open_hmd]: the session object is allocated at the fresh address
    [brk] (the allocation itself is taken to succeed), filled in, and
    closed again on any failure. *)
Definition open_hmd (w : world) : option ptr * world :=
  let p := brk w in
  let w := write p zero_hmd (set_brk w (S p)) in
  let priv := set_use_count zero_hmd 1 in
  let priv := set_last_imu_timestamp priv ((-1) mod 2 ^ 32) in
  (* Open the HID devices *)
  let '(ok, priv, w) :=
    open_handles [RIFT_S_INTF_HMD; RIFT_S_INTF_STATUS; RIFT_S_INTF_CONTROLLERS]
      0 priv w in
  if negb ok then (None, close_hmd p priv w)
  else
    match handle_at priv 0 with
    | None => (None, close_hmd p priv w)
    | Some hid =>
        let '(res, priv, w) := open_hmd_configure p priv hid w in
        match res with
        | Some priv => (Some p, write p priv w)
        | None => (None, close_hmd p priv w)
        end
    end.

(** [open_device]; the device returned is the [hmd_dev] inside the session
    object, so it is named by the session's address.  The outer [None]
    is an address that is not live. *)
Definition open_device (desc : ohmd_device_desc) (w : world)
  : option (option ptr * world) :=
  let found :=
    match find_hmd (desc_path desc) w with
    | Some hmd => (Some hmd, w)
    | None =>
        let r := open_hmd w in
        match fst r with
        | None => (None, snd r)
        | Some hmd => (Some hmd, push_hmd hmd (desc_path desc) (snd r))
        end
    end in
  match fst found with
  | None => Some (None, snd found)
  | Some hmd =>
      let w := snd found in
      if desc_id desc =? 0 then
        match deref hmd w with
        | None => None
        | Some s =>
            (* set up device callbacks *)
            let dev := mk_device_priv (desc_id desc) (Some hmd) true
                         (dev_hres (hmd_dev s)) (dev_vres (hmd_dev s)) in
            Some (Some hmd, write hmd (set_hmd_dev s dev) w)
        end
      else
        Some (None, emit (EvLogE "Invalid device description passed to open_device()") w)
  end.

(** [close_device] *)
Definition close_device (device : ptr) (w : world) : option world :=
  let w := emit (EvLogD "closing device") w in
  match deref device w with
  | None => None
  | Some s =>
      let dev := hmd_dev s in
      let dev := mk_device_priv (dev_id dev) (dev_hmd dev) false
                   (dev_hres dev) (dev_vres dev) in
      let w := write device (set_hmd_dev s dev) w in
      match dev_hmd dev with
      | None => None
      | Some hmd => release_hmd hmd w
      end
  end.

End Open.

(* ================================================================== *)
(** * The vocabulary of the statements *)
(* ================================================================== *)

Section Vocabulary.
Context {FA : FloatArith}.
Local Open Scope flt_scope.

(** In words: component [i] of a corrected vector is
    [sum_j rot[i][j] * (scale * raw[j] - offset[j])]. *)
Definition rectified_component (scale : float) (raw : int16x3) (offset : vec3f)
    (rot : mat3x3) (i : nat) : float :=
  rot_at rot i 0 *. (scale *. f_of_Z (idx raw 0) -. arr offset 0)
  +. rot_at rot i 1 *. (scale *. f_of_Z (idx raw 1) -. arr offset 1)
  +. rot_at rot i 2 *. (scale *. f_of_Z (idx raw 2) -. arr offset 2).

Definition rectified (scale : float) (raw : int16x3) (offset : vec3f)
    (rot : mat3x3) : vec3f :=
  mk_vec3f (rectified_component scale raw offset rot 0)
           (rectified_component scale raw offset rot 1)
           (rectified_component scale raw offset rot 2).

(** The call of [ofusion_update] that a valid sample leads to. *)
Definition call_of (c : report_consts) (priv : rift_s_hmd_t (FU := Recorder))
    (s : rift_s_hmd_imu_sample_t) (dt : float) : fusion_call :=
  mk_fusion_call dt
    (rectified (c_gyro_scale c) (gyro s) (gyro_offset (imu_calibration priv))
       (gyro_rectification (imu_calibration priv)))
    (rectified (c_accel_scale c) (accel s)
       (accel_offset_at_0C (imu_calibration priv))
       (accel_rectification (imu_calibration priv)))
    (raw_mag priv).

(** The calls of one run of the sample loop. *)
Fixpoint loop_calls (c : report_consts) (priv : rift_s_hmd_t (FU := Recorder))
    (report : rift_s_hmd_report_t) (todo : list nat) (dt : float)
  : list fusion_call :=
  match todo with
  | [] => []
  | i :: todo' =>
      if marker_invalid (samples report i) then []
      else call_of c priv (samples report i) dt
           :: loop_calls c priv report todo' (c_tick_len c)
  end.

(** The calls a parsed report adds to the record of the fusion filter. *)
Definition new_calls (priv : rift_s_hmd_t (FU := Recorder))
    (report : rift_s_hmd_report_t) : list fusion_call :=
  skipn (List.length (sensor_fusion priv))
        (sensor_fusion (handle_hmd_report_parsed priv report)).

(** The [dt] of the [k]-th call of a report. *)
Definition dt_at (priv : rift_s_hmd_t (FU := Recorder))
    (report : rift_s_hmd_report_t) (k : nat) : float :=
  match k with
  | O => initial_dt priv report
  | S _ => TICK_LEN priv
  end.

End Vocabulary.

(** What is left of a handle's pending reads once its read loop has
    stopped: everything behind the first error or zero-length read. *)
Fixpoint unread (queue : list read_result) : list read_result :=
  match queue with
  | [] => []
  | ReadError :: rest => rest
  | ReadData data :: rest =>
      if Z.of_nat (List.length (firstn (Z.to_nat FEATURE_BUFFER_SIZE) data)) =? 0
      then rest
      else unread rest
  end.

(** How often a poll of the session visits the handle [h]: the number of
    the three slots of [handles] that hold it. *)
Definition visits (h : handle) (slots : list (option handle)) : nat :=
  List.length
    (filter (fun o : option handle =>
               match o with
               | Some h' => Nat.eqb h h'
               | None => false
               end) slots).

(** Whether a call on an address went through. *)
Definition went_through {A : Type} (o : option A) : bool :=
  match o with
  | Some _ => true
  | None => false
  end.

(* ================================================================== *)
(** * A concrete device to run the driver against *)
(* ================================================================== *)

Module Rig.
Section Rig.
Context {FA : FloatArith}.

Definition byte_at (buf : list Z) (i : nat) : Z := nth i buf 0.

Definition u16_at (buf : list Z) (i : nat) : Z :=
  byte_at buf i + 256 * byte_at buf (i + 1).

Definition s16_at (buf : list Z) (i : nat) : Z :=
  if u16_at buf i <? 32768 then u16_at buf i else u16_at buf i - 65536.

Definition u32_at (buf : list Z) (i : nat) : Z :=
  u16_at buf i + 65536 * u16_at buf (i + 2).

Definition int16x3_at (buf : list Z) (i : nat) : int16x3 :=
  mk_int16x3 (s16_at buf i) (s16_at buf (i + 2)) (s16_at buf (i + 4)).

Definition sample_at (buf : list Z) (i : nat) : rift_s_hmd_imu_sample_t :=
  mk_sample (byte_at buf i) (int16x3_at buf (i + 1)) (int16x3_at buf (i + 7))
    (s16_at buf (i + 13)).

(** Modelled from the spec: [rift_s_parse_hmd_report] of rift-s-protocol.c,
    which is not among the sources.  It fails when the buffer is shorter
    than the fixed layout or when the leading id is not the head-motion id
    0x65; otherwise it extracts the fields at the offsets of the packed,
    little-endian [rift_s_hmd_report_t] (64 bytes). *)
Definition parse_hmd_report (buf : list Z) (size : Z) : option rift_s_hmd_report_t :=
  if (size <? 64) || negb (byte_at buf 0 =? 0x65) then None
  else Some (mk_report (byte_at buf 0) (u16_at buf 1) (u32_at buf 3)
               (sample_at buf 7) (sample_at buf 22) (sample_at buf 37)
               (byte_at buf 52) (byte_at buf 53) (u32_at buf 54)
               (s16_at buf 58) (s16_at buf 60) (s16_at buf 62)).

(** Modelled from the spec: the verdict of [rift_s_parse_controller_report]
    of rift-s-protocol.c, which fails if the buffer is shorter than the
    fixed header (id, 64-bit device id, data length). *)
Definition parse_controller_report (buf : list Z) (size : Z) : bool :=
  negb (size <? 10).

#[local] Instance protocol : Protocol := {|
  rift_s_parse_hmd_report := parse_hmd_report;
  rift_s_parse_controller_report := parse_controller_report
|}.

(** The bytes of a head-motion report on the wire. *)
Definition le16 (z : Z) : list Z := [z mod 256; (z / 256) mod 256].

Definition le32 (z : Z) : list Z := le16 (z mod 65536) ++ le16 (z / 65536).

Definition encode_int16x3 (v : int16x3) : list Z :=
  le16 (i0 v) ++ le16 (i1 v) ++ le16 (i2 v).

Definition encode_sample (s : rift_s_hmd_imu_sample_t) : list Z :=
  [marker s] ++ encode_int16x3 (accel s) ++ encode_int16x3 (gyro s)
  ++ le16 (temperature s).

Definition encode_report (r : rift_s_hmd_report_t) : list Z :=
  [id r] ++ le16 (unknown_const1 r) ++ le32 (timestamp r)
  ++ encode_sample (samples0 r) ++ encode_sample (samples1 r)
  ++ encode_sample (samples2 r)
  ++ [report_marker r; unknown2 r] ++ le32 (frame_timestamp r)
  ++ le16 (unknown_zero1 r) ++ le16 (frame_id r) ++ le16 (unknown_zero2 r).

Definition calibration : rift_s_imu_calibration :=
  mk_imu_calibration
    (mk_vec3f (f_of_Z 1) (f_of_Z 2) (f_of_Z 3))
    (mk_mat3x3 (mk_vec3f (f_of_Z 1) (f_of_Z 2) (f_of_Z 0))
               (mk_vec3f (f_of_Z 0) (f_of_Z 1) (f_of_Z 0))
               (mk_vec3f (f_of_Z 0) (f_of_Z 3) (f_of_Z 1)))
    (mk_vec3f (f_of_Z 4) (f_of_Z 5) (f_of_Z 6))
    (mk_mat3x3 (mk_vec3f (f_of_Z 1) (f_of_Z 0) (f_of_Z 0))
               (mk_vec3f (f_of_Z 7) (f_of_Z 1) (f_of_Z 0))
               (mk_vec3f (f_of_Z 0) (f_of_Z 0) (f_of_Z 1))).

Definition config : rift_s_imu_config_t :=
  mk_imu_config 1000 (f_of_Z 2000) (f_of_Z 2048) (f_of_Z 2) (f_of_Z 4).

(** A headset with one HID node per interface whose every request
    succeeds. *)
#[local] Instance hardware : Hardware := {|
  hid_enumerate := fun vid pid =>
    if (vid =? OCULUS_VR_INC_ID) && (pid =? RIFT_S_PID)
    then [mk_hid_device_info "hidraw6" 6; mk_hid_device_info "hidraw7" 7;
          mk_hid_device_info "hidraw8" 8]
    else [];
  hid_open_path := fun path =>
    if String.eqb path "hidraw6" then Some 6%nat
    else if String.eqb path "hidraw7" then Some 7%nat
    else if String.eqb path "hidraw8" then Some 8%nat
    else None;
  hid_set_nonblocking := fun _ _ => 0;
  rift_s_read_device_info := fun _ => (0, mk_device_info 1440 2560 80);
  rift_s_get_report1 := fun _ => 0;
  rift_s_read_imu_config := fun _ => (0, config);
  rift_s_read_firmware_block := fun _ _ => (0, []);
  rift_s_parse_imu_calibration := fun _ => (0, calibration);
  rift_s_hmd_enable := fun _ _ => 0;
  RIFT_S_FIRMWARE_BLOCK_IMU_CALIB := 14
|}.

(** The process before any device is opened. *)
Definition boot {FU : Fusion} : world :=
  mk_world [] [] 1%nat [] [] (d_of_Z 0).

Definition desc : ohmd_device_desc := mk_desc "hidraw6" 0.

(** A valid sample and an invalid one. *)
Definition good (a g t : Z) : rift_s_hmd_imu_sample_t :=
  mk_sample 0 (mk_int16x3 a (2 * a) (3 * a)) (mk_int16x3 g (2 * g) (3 * g)) t.

Definition bad (a g t : Z) : rift_s_hmd_imu_sample_t :=
  mk_sample 128 (mk_int16x3 a (2 * a) (3 * a)) (mk_int16x3 g (2 * g) (3 * g)) t.

(** A head-motion report with the given timestamp and samples. *)
Definition report (ts : Z) (s0 s1 s2 : rift_s_hmd_imu_sample_t) : rift_s_hmd_report_t :=
  mk_report 0x65 0 ts s0 s1 s2 0 0 0 0 0 0.

(** The session as [open_hmd] leaves it on this headset. *)
Definition opened {FU : Fusion} : rift_s_hmd_t :=
  match open_device desc boot with
  | Some (Some p, w) =>
      match deref p w with
      | Some s => s
      | None => zero_hmd
      end
  | _ => zero_hmd
  end.

End Rig.
End Rig.

(* ================================================================== *)
(** * Sessions, reports and worlds on the concrete device *)
(* ================================================================== *)

Section Runs.
#[local] Existing Instance Rig.protocol.
#[local] Existing Instance Rig.hardware.

(** Sessions and process states in exact arithmetic, with the recording
    filter. *)
Definition session : Type := rift_s_hmd_t (FA := ExactArith) (FU := Recorder).

Definition process : Type := world (FA := ExactArith) (FU := Recorder).

(** The session that [open_device] creates on the concrete headset
    ([imu_hz = 1000]), in exact arithmetic and with the recording filter. *)
Definition fresh : session := Rig.opened.

Definition three_good (ts : Z) : rift_s_hmd_report_t :=
  Rig.report ts (Rig.good 100 200 10) (Rig.good 101 201 11) (Rig.good 102 202 12).

Definition second_bad (ts : Z) : rift_s_hmd_report_t :=
  Rig.report ts (Rig.good 100 200 10) (Rig.bad 101 201 11) (Rig.good 102 202 12).

Definition c2_call : fusion_call :=
  call_of (consts_of fresh) fresh (Rig.good 100 200 10) (5000 # 1000000).

Definition c6_call : fusion_call :=
  call_of (consts_of fresh) fresh (Rig.good 101 201 11) (1 # 1000).

Definition c7_sample : rift_s_hmd_imu_sample_t := Rig.good 100 200 10.

(** The process after the first [open_device] of the headset. *)
Definition opened_once : process :=
  match open_device Rig.desc Rig.boot with
  | Some (_, w) => w
  | None => Rig.boot
  end.

(** The process after a second [open_device] with the same path. *)
Definition opened_twice : process :=
  match open_device Rig.desc opened_once with
  | Some (_, w) => w
  | None => opened_once
  end.

(** The process after one [close_device] of the session opened twice. *)
Definition closed_once : process :=
  match close_device 1%nat opened_twice with
  | Some w => w
  | None => opened_twice
  end.

(** The process after the only user of the session released it. *)
Definition released : process :=
  match release_hmd 1%nat opened_once with
  | Some w => w
  | None => opened_once
  end.

(** Reads pending on the three handles: an error in front of a system
    state report on the first, a system state report, a zero-length read
    and an unknown report on the second, an unknown report and a system
    state report on the third. *)
Definition with_reads : process :=
  set_inbox opened_once
    [(6%nat, [ReadError; ReadData [0x66; 1]]);
     (7%nat, [ReadData [0x66; 1]; ReadData []; ReadData [0x99]]);
     (8%nat, [ReadData [0x99; 0]; ReadData [0x66; 0]])].

Definition stack_buf : list Z := repeat 0 256.

(** A session whose logical device carries id 1, and a process that
    holds it at address 1. *)
Definition controller_dev : session :=
  set_hmd_dev fresh (mk_device_priv 1 (Some 1%nat) true 2560 1440).

Definition with_controller : process := write 1%nat controller_dev opened_once.

(** A head-motion report pending on the first handle, as bytes, with a
    negative sample in it; the second sample is marked invalid. *)
Definition motion_report : rift_s_hmd_report_t :=
  Rig.report 5000 (Rig.good (-100) 200 10) (Rig.bad 101 201 11)
    (Rig.good 102 202 12).

Definition with_motion : process :=
  set_inbox opened_once [(6%nat, [ReadData (Rig.encode_report motion_report)])].

End Runs.

(* ================================================================== *)
(** * The rest of the driver: [get_device_list] *)
(* ================================================================== *)

(** The enumerators of openhmd.h that [get_device_list] names. *)
Inductive ohmd_device_class : Type :=
| OHMD_DEVICE_CLASS_HMD.

Inductive ohmd_device_flags : Type :=
| OHMD_DEVICE_FLAGS_ROTATIONAL_TRACKING.

(** An entry of [ohmd_device_list], with the fields [get_device_list]
    fills; [path] and [id] are the description [open_device] reads. *)
Record ohmd_device_list_entry : Type := mk_list_entry {
  entry_driver : string;
  entry_vendor : string;
  entry_product : string;
  entry_revision : Z;
  entry_device_class : ohmd_device_class;
  entry_device_flags : ohmd_device_flags;
  entry_desc : ohmd_device_desc
}.

(** [rift_devices] *)
Record rift_devices : Type := mk_rift_devices {
  rd_name : string;
  rd_company : Z;
  rd_id : Z;
  rd_iface : Z
}.

(** [rift_devices rd[]] of [get_device_list] *)
Definition rd : list rift_devices :=
  [mk_rift_devices "Rift S" OCULUS_VR_INC_ID RIFT_S_PID RIFT_S_INTF_HMD].

Section Enumeration.
Context {FA : FloatArith} {HW : Hardware}.

(** [while (cur_dev)] of [get_device_list]: every enumerated device of the
    wanted interface gets the next slot of the list; [id] is a local that
    starts at 0 for each of them. *)
Fixpoint list_devices (r : rift_devices) (devs : list hid_device_info)
    (devices : list ohmd_device_list_entry) : list ohmd_device_list_entry :=
  match devs with
  | [] => devices
  | cur_dev :: next =>
      if (rd_iface r =? -1) || (interface_number cur_dev =? rd_iface r) then
        let id := 0 in
        list_devices r next
          (devices ++ [mk_list_entry "OpenHMD Rift Driver" "Oculus VR, Inc."
                         (rd_name r) 0 OHMD_DEVICE_CLASS_HMD
                         OHMD_DEVICE_FLAGS_ROTATIONAL_TRACKING
                         (mk_desc (hdi_path cur_dev) id)])
      else list_devices r next devices
  end.

(** [get_device_list]: [devices] is [list->devices] up to
    [list->num_devices], which grows at its end. *)
Definition get_device_list (devices : list ohmd_device_list_entry)
  : list ohmd_device_list_entry :=
  fold_left
    (fun (devices : list ohmd_device_list_entry) (r : rift_devices) =>
       match hid_enumerate (rd_company r) (rd_id r) with
       | [] => devices
       | devs => list_devices r devs devices
       end)
    rd devices.

End Enumeration.

(* ================================================================== *)
(** * Further vocabulary *)
(* ================================================================== *)

Section Replay.
Context {FA : FloatArith} {FU : Fusion}.

(** The session with its fusion filter replaced by an empty record of
    calls. *)
Definition recorded (priv : rift_s_hmd_t) : rift_s_hmd_t (FU := Recorder) :=
  mk_hmd (FU := Recorder) (use_count priv) (handles priv) (last_imu_timestamp priv)
    (last_keep_alive priv) [] (raw_mag priv) (raw_accel priv) (raw_gyro priv)
    (hmd_temperature priv) (display_on priv) (hmd_dev priv) (device_info priv)
    (imu_config priv) (imu_calibration priv).

(** Feeding a list of calls to a fusion filter, oldest first. *)
Definition replay (f : fusion) (calls : list fusion_call) : fusion :=
  fold_left
    (fun (f : fusion) (c : fusion_call) =>
       ofusion_update f (fc_dt c) (fc_gyro c) (fc_accel c) (fc_mag c))
    calls f.

End Replay.

(** The events a poll may add to the trace after its keep-alive: screen
    commands, log lines and the controller diagnostic. *)
Definition is_poll_output (e : event) : bool :=
  match e with
  | EvSetScreenEnable _ _ | EvLogE _ | EvLogW_id _ _ | EvPrintf _ => true
  | _ => false
  end.

Definition is_keepalive (e : event) : bool :=
  match e with
  | EvSendKeepalive _ => true
  | _ => false
  end.

(** The number of keep-alive messages in a trace. *)
Definition keepalives (tr : list event) : nat :=
  List.length (filter is_keepalive tr).

Section PollVocabulary.
Context {FA : FloatArith} {FU : Fusion}.

(** The test of [update_hmd] for the keep-alive:
    [t - priv->last_keep_alive >= KEEPALIVE_INTERVAL_MS / 1000.0]. *)
Definition keep_alive_due (priv : rift_s_hmd_t) (t : double) : bool :=
  dleb (ddiv (d_of_Z KEEPALIVE_INTERVAL_MS) (d_of_Z 1000))
       (dsub t (last_keep_alive priv)).

(** Two values of a session that differ at most in what the pipeline and
    the display toggle write: the stored timestamp, the fusion filter,
    the cached vectors and temperature, and [display_on]. *)
Definition same_setup (a b : rift_s_hmd_t) : Prop :=
  use_count a = use_count b
  /\ handles a = handles b
  /\ last_keep_alive a = last_keep_alive b
  /\ raw_mag a = raw_mag b
  /\ hmd_dev a = hmd_dev b
  /\ device_info a = device_info b
  /\ imu_config a = imu_config b
  /\ imu_calibration a = imu_calibration b.

End PollVocabulary.

(** The handles in a list of slots, NULL slots left out. *)
Definition held (slots : list (option handle)) : list handle :=
  flat_map (fun o : option handle =>
              match o with
              | Some h => [h]
              | None => []
              end) slots.

(** The handles that a trace closes, in order. *)
Definition closed_handles (tr : list event) : list handle :=
  flat_map (fun e : event =>
              match e with
              | EvHidClose h => [h]
              | _ => []
              end) tr.

Section Accounting.
Context {FA : FloatArith} {FU : Fusion} {HW : Hardware}.

(** The handles that a trace opens: one for every [hid_open_path] that
    the device answers with a handle. *)
Definition opened_handles (tr : list event) : list handle :=
  flat_map (fun e : event =>
              match e with
              | EvHidOpenPath path => held [hid_open_path path]
              | _ => []
              end) tr.

(** [w'] is [w] with the events [new] added to its trace and nothing else
    changed. *)
Definition grows (w w' : world) (new : list event) : Prop :=
  trace w' = trace w ++ new
  /\ rift_hmds w' = rift_hmds w
  /\ heap w' = heap w
  /\ brk w' = brk w
  /\ inbox w' = inbox w
  /\ now w' = now w.

(** [h] is the handle of the first device that [hid_enumerate] lists for
    [vid], [pid] on interface [iface_num] and that [hid_open_path] opens,
    and non-blocking mode could be set on it. *)
Definition first_match (vid pid iface_num : Z) (h : handle) : Prop :=
  hid_set_nonblocking h 1 <> -1
  /\ exists l1 d l2,
       hid_enumerate vid pid = l1 ++ d :: l2
       /\ interface_number d = iface_num
       /\ hid_open_path (hdi_path d) = Some h
       /\ forall d', In d' l1 -> interface_number d' = iface_num ->
                     hid_open_path (hdi_path d') = None.

(** What [close_hmd] sends before it closes the handles: the command on
    [handles[0]], and the warning if it fails. *)
Definition closing_command (hmd : rift_s_hmd_t) : list event :=
  match handle_at hmd 0 with
  | Some h0 =>
      EvHmdEnable h0 true
      :: (if rift_s_hmd_enable h0 true <? 0
          then [EvLogW "Failed to disable Rift S"] else [])
  | None => []
  end.

(** The session list is in order: no path and no session occurs twice in
    it, every session in it is allocated, and every allocated address lies
    below the next fresh one. *)
Definition registry_ok (w : world) : Prop :=
  NoDup (map fst (rift_hmds w))
  /\ NoDup (map snd (rift_hmds w))
  /\ (forall path p, In (path, p) (rift_hmds w) -> deref p w <> None)
  /\ (forall p, deref p w <> None -> (p < brk w)%nat).

End Accounting.

(** The number of floats of the caller's buffer that [getf_hmd] writes
    for a value type. *)
Definition floats_written (type : ohmd_float_value) : nat :=
  match type with
  | OHMD_DISTORTION_K => 6
  | OHMD_ROTATION_QUAT => 4
  | OHMD_POSITION_VECTOR => 3
  | OHMD_CONTROLS_STATE => 0
  | OHMD_OTHER_VALUE _ => 0
  end.

(** The identity rectification. *)
Definition identity_mat3x3 {FA : FloatArith} : mat3x3 :=
  mk_mat3x3 (mk_vec3f (f_of_Z 1) (f_of_Z 0) (f_of_Z 0))
            (mk_vec3f (f_of_Z 0) (f_of_Z 1) (f_of_Z 0))
            (mk_vec3f (f_of_Z 0) (f_of_Z 0) (f_of_Z 1)).

(** The binary32 values that the identity rectification hands back bit
    for bit: [+0] and the finite nonzero values of the format. *)
Definition ordinary (x : spec_float) : bool :=
  match x with
  | S754_zero s => negb s
  | S754_finite _ m e => bounded IEEE.prec32 IEEE.emax32 m e
  | _ => false
  end.

(* ================================================================== *)
(** * Further sessions and worlds on the concrete device *)
(* ================================================================== *)

Section MoreRuns.
#[local] Existing Instance Rig.protocol.
#[local] Existing Instance Rig.hardware.

(** The concrete headset with its controller interface refusing to
    open. *)
Definition no_controllers : Hardware (FA := ExactArith) := {|
  hid_enumerate := hid_enumerate (Hardware := Rig.hardware);
  hid_open_path := fun path =>
    if String.eqb path "hidraw8" then None
    else hid_open_path (Hardware := Rig.hardware) path;
  hid_set_nonblocking := hid_set_nonblocking (Hardware := Rig.hardware);
  rift_s_read_device_info := rift_s_read_device_info (Hardware := Rig.hardware);
  rift_s_get_report1 := rift_s_get_report1 (Hardware := Rig.hardware);
  rift_s_read_imu_config := rift_s_read_imu_config (Hardware := Rig.hardware);
  rift_s_read_firmware_block :=
    rift_s_read_firmware_block (Hardware := Rig.hardware);
  rift_s_parse_imu_calibration :=
    rift_s_parse_imu_calibration (Hardware := Rig.hardware);
  rift_s_hmd_enable := rift_s_hmd_enable (Hardware := Rig.hardware);
  RIFT_S_FIRMWARE_BLOCK_IMU_CALIB :=
    RIFT_S_FIRMWARE_BLOCK_IMU_CALIB (Hardware := Rig.hardware)
|}.

(** The process with a second session, opened under another path. *)
Definition two_sessions : process :=
  match open_device (mk_desc "other" 0) opened_once with
  | Some (_, w) => w
  | None => opened_once
  end.

End MoreRuns.

(* ================================================================== *)
(** * Facts about the inertial sample pipeline *)
(* ================================================================== *)

Section PipelineFacts.
Context {FA : FloatArith} {PR : Protocol}.
Local Open Scope flt_scope.

Lemma vec3f_rotate_3x3_components (v : vec3f) (rot : mat3x3) (i : nat) :
  arr (vec3f_rotate_3x3 v rot) i
  = rot_at rot i 0 *. arr v 0 +. rot_at rot i 1 *. arr v 1
    +. rot_at rot i 2 *. arr v 2.
Proof.
  destruct i as [|[|[|i]]]; reflexivity.
Qed.

Lemma subtract_offsets_components (priv : rift_s_hmd_t (FU := Recorder))
    (a g : vec3f) (j : nat) :
  arr (fst (subtract_offsets priv (a, g))) j
    = arr a j -. arr (accel_offset_at_0C (imu_calibration priv)) j
  /\ arr (snd (subtract_offsets priv (a, g))) j
    = arr g j -. arr (gyro_offset (imu_calibration priv)) j.
Proof.
  destruct j as [|[|[|j]]]; split; reflexivity.
Qed.

Lemma handle_sample_fusion c (priv : rift_s_hmd_t (FU := Recorder)) s dt :
  sensor_fusion (handle_sample c priv s dt)
  = sensor_fusion priv ++ [call_of c priv s dt].
Proof. reflexivity. Qed.

Lemma handle_sample_frame c (priv : rift_s_hmd_t (FU := Recorder)) s dt :
  imu_calibration (handle_sample c priv s dt) = imu_calibration priv
  /\ imu_config (handle_sample c priv s dt) = imu_config priv
  /\ raw_mag (handle_sample c priv s dt) = raw_mag priv
  /\ last_imu_timestamp (handle_sample c priv s dt) = last_imu_timestamp priv
  /\ use_count (handle_sample c priv s dt) = use_count priv
  /\ handles (handle_sample c priv s dt) = handles priv
  /\ display_on (handle_sample c priv s dt) = display_on priv.
Proof. repeat split. Qed.

Lemma call_of_frame c (priv priv' : rift_s_hmd_t (FU := Recorder)) s dt :
  imu_calibration priv' = imu_calibration priv ->
  raw_mag priv' = raw_mag priv ->
  call_of c priv' s dt = call_of c priv s dt.
Proof. intros Hc Hm. unfold call_of. rewrite Hc, Hm. reflexivity. Qed.

Lemma loop_calls_frame c (priv priv' : rift_s_hmd_t (FU := Recorder)) report todo :
  imu_calibration priv' = imu_calibration priv ->
  raw_mag priv' = raw_mag priv ->
  forall dt, loop_calls c priv' report todo dt = loop_calls c priv report todo dt.
Proof.
  intros Hc Hm. induction todo as [|i todo IH]; intros dt; simpl.
  - reflexivity.
  - destruct (marker_invalid (samples report i)); [reflexivity|].
    rewrite IH. rewrite (call_of_frame c priv priv' _ _ Hc Hm). reflexivity.
Qed.

(** The sample loop extends the record by exactly [loop_calls]. *)
Lemma sample_loop_fusion c report todo :
  forall dt (priv : rift_s_hmd_t (FU := Recorder)),
    sensor_fusion (sample_loop c report todo dt priv)
    = sensor_fusion priv ++ loop_calls c priv report todo dt.
Proof.
  induction todo as [|i todo IH]; intros dt priv; simpl.
  - now rewrite app_nil_r.
  - destruct (marker_invalid (samples report i)).
    + now rewrite app_nil_r.
    + rewrite IH, handle_sample_fusion, <- app_assoc. simpl.
      destruct (handle_sample_frame c priv (samples report i) dt) as (Hc & _ & Hm & _).
      now rewrite (loop_calls_frame c priv _ report todo Hc Hm).
Qed.

(** The sample loop leaves the stored timestamp and the configuration
    alone. *)
Lemma sample_loop_frame c report todo :
  forall dt (priv : rift_s_hmd_t (FU := Recorder)),
    last_imu_timestamp (sample_loop c report todo dt priv) = last_imu_timestamp priv
    /\ imu_config (sample_loop c report todo dt priv) = imu_config priv
    /\ imu_calibration (sample_loop c report todo dt priv) = imu_calibration priv
    /\ use_count (sample_loop c report todo dt priv) = use_count priv
    /\ handles (sample_loop c report todo dt priv) = handles priv
    /\ display_on (sample_loop c report todo dt priv) = display_on priv.
Proof.
  induction todo as [|i todo IH]; intros dt priv; simpl.
  - repeat split.
  - destruct (marker_invalid (samples report i)); [repeat split|].
    destruct (IH (c_tick_len c) (handle_sample c priv (samples report i) dt))
      as (H1 & H2 & H3 & H4 & H5 & H6).
    rewrite H1, H2, H3, H4, H5, H6. repeat split.
Qed.

Lemma new_calls_eq (priv : rift_s_hmd_t (FU := Recorder)) report :
  new_calls priv report
  = loop_calls (consts_of priv) priv report (seq 0 3) (initial_dt priv report).
Proof.
  unfold new_calls, handle_hmd_report_parsed.
  change (sensor_fusion (set_last_imu_timestamp ?p _)) with (sensor_fusion p).
  rewrite sample_loop_fusion.
  rewrite skipn_app, skipn_all, Nat.sub_diag. reflexivity.
Qed.

Lemma handle_hmd_report_parsed_fusion (priv : rift_s_hmd_t (FU := Recorder)) report :
  sensor_fusion (handle_hmd_report_parsed priv report)
  = sensor_fusion priv ++ new_calls priv report.
Proof.
  rewrite new_calls_eq. unfold handle_hmd_report_parsed.
  change (sensor_fusion (set_last_imu_timestamp ?p _)) with (sensor_fusion p).
  apply sample_loop_fusion.
Qed.

(** [handle_hmd_report] is the parser followed by the pipeline, and a
    buffer that does not parse leaves the session alone. *)
Lemma handle_hmd_report_decoded {FU : Fusion} (priv : rift_s_hmd_t) buf size :
  handle_hmd_report priv buf size
  = match rift_s_parse_hmd_report buf size with
    | Some report => handle_hmd_report_parsed priv report
    | None => priv
    end.
Proof.
  unfold handle_hmd_report.
  destruct (rift_s_parse_hmd_report buf size); reflexivity.
Qed.

End PipelineFacts.

(* ================================================================== *)
(** * Integration interval, early stop and calibration (C1 - C3, C6, C7) *)
(* ================================================================== *)

Section PipelineClaims.
Context {FA : FloatArith} {PR : Protocol}.
Local Open Scope flt_scope.

(** The [k]-th call that a report adds comes from sample [k], and every
    sample up to [k] passed the marker test. *)
Lemma new_calls_nth (priv : rift_s_hmd_t (FU := Recorder)) report k call :
  nth_error (new_calls priv report) k = Some call ->
  (k < 3)%nat
  /\ (forall j, (j <= k)%nat -> marker_invalid (samples report j) = false)
  /\ call = call_of (consts_of priv) priv (samples report k) (dt_at priv report k).
Proof.
  rewrite new_calls_eq. cbn [seq loop_calls].
  destruct (marker_invalid (samples report 0)) eqn:M0.
  { destruct k; discriminate. }
  destruct k as [|k]; cbn [nth_error].
  { intros [= <-]. split; [lia|]. split; [|reflexivity].
    intros j Hj. replace j with 0%nat by lia. exact M0. }
  destruct (marker_invalid (samples report 1)) eqn:M1.
  { destruct k; discriminate. }
  destruct k as [|k]; cbn [nth_error].
  { intros [= <-]. split; [lia|]. split; [|reflexivity].
    intros j Hj. destruct j as [|[|j]]; [exact M0|exact M1|lia]. }
  destruct (marker_invalid (samples report 2)) eqn:M2.
  { destruct k; discriminate. }
  destruct k as [|k]; cbn [nth_error].
  { intros [= <-]. split; [lia|]. split; [|reflexivity].
    intros j Hj. destruct j as [|[|[|j]]]; [exact M0|exact M1|exact M2|lia]. }
  destruct k; discriminate.
Qed.

Lemma handle_hmd_report_parsed_timestamp (priv : rift_s_hmd_t (FU := Recorder)) report :
  last_imu_timestamp (handle_hmd_report_parsed priv report) = timestamp report.
Proof. reflexivity. Qed.

Lemma handle_hmd_report_parsed_config (priv : rift_s_hmd_t (FU := Recorder)) report :
  imu_config (handle_hmd_report_parsed priv report) = imu_config priv.
Proof.
  unfold handle_hmd_report_parsed.
  change (imu_config (set_last_imu_timestamp ?p _)) with (imu_config p).
  apply sample_loop_frame.
Qed.

(** The interval of a report [r2] that is processed after a report [r1],
    as [handle_hmd_report] computes it: the first call of [r2] gets the
    [uint32_t] difference of the two timestamps divided by 1000000 when
    the guard [last_imu_timestamp != 0] lets it, that is when the
    timestamp of [r1] was not 0, and the tick length [1/imu_hz] otherwise;
    every later call of [r2] gets the tick length. *)
Lemma dt_after_previous_report (priv : rift_s_hmd_t (FU := Recorder))
    (r1 r2 : rift_s_hmd_report_t) (k : nat) (call : fusion_call) :
  nth_error (new_calls (handle_hmd_report_parsed priv r1) r2) k = Some call ->
  fc_dt call =
    match k with
    | O => if timestamp r1 =? 0 then TICK_LEN priv
           else f_of_Z ((timestamp r2 - timestamp r1) mod 2 ^ 32) /. f_of_Z 1000000
    | S _ => TICK_LEN priv
    end.
Proof.
  intros H. apply new_calls_nth in H. destruct H as (_ & _ & ->).
  cbn [call_of fc_dt]. unfold dt_at, initial_dt, TICK_LEN.
  rewrite handle_hmd_report_parsed_timestamp, handle_hmd_report_parsed_config.
  reflexivity.
Qed.

(** C3: if the marker of sample [i] has bit 0x80, the report adds at most
    [i] calls of the fusion update, the [k]-th of them made from sample
    [k < i] and nothing else is added to the filter; the outcome does not
    depend on what samples [i], [i+1], [i+2] hold; and the stored
    timestamp is the report's timestamp all the same. *)
Theorem C3_invalid_sample_stops_report (priv : rift_s_hmd_t (FU := Recorder))
    (report : rift_s_hmd_report_t) (i : nat) :
  (i < 3)%nat ->
  marker_invalid (samples report i) = true ->
  sensor_fusion (handle_hmd_report_parsed priv report)
    = sensor_fusion priv ++ new_calls priv report
  /\ (List.length (new_calls priv report) <= i)%nat
  /\ (forall k call,
        nth_error (new_calls priv report) k = Some call ->
        (k < i)%nat
        /\ call = call_of (consts_of priv) priv (samples report k)
                    (dt_at priv report k))
  /\ (forall report',
        timestamp report' = timestamp report ->
        (forall k, (k < i)%nat -> samples report' k = samples report k) ->
        marker_invalid (samples report' i) = true ->
        handle_hmd_report_parsed priv report'
        = handle_hmd_report_parsed priv report)
  /\ last_imu_timestamp (handle_hmd_report_parsed priv report) = timestamp report.
Proof.
  intros Hi Hinv.
  assert (Hnth : forall k call,
             nth_error (new_calls priv report) k = Some call ->
             (k < i)%nat
             /\ call = call_of (consts_of priv) priv (samples report k)
                         (dt_at priv report k)).
  { intros k call H. apply new_calls_nth in H. destruct H as (_ & Hv & ->).
    split; [|reflexivity].
    destruct (Nat.lt_ge_cases k i) as [Hlt|Hge]; [exact Hlt|].
    rewrite (Hv i Hge) in Hinv. discriminate. }
  split; [apply handle_hmd_report_parsed_fusion|].
  split.
  { destruct (Nat.le_gt_cases (List.length (new_calls priv report)) i) as [Hle|Hgt];
      [exact Hle|].
    destruct (nth_error (new_calls priv report) i) eqn:E.
    - apply Hnth in E. lia.
    - apply nth_error_None in E. lia. }
  split; [exact Hnth|].
  split; [|reflexivity].
  intros report' Hts Hsame Hinv'.
  unfold handle_hmd_report_parsed, initial_dt. rewrite Hts. f_equal.
  cbn [seq sample_loop].
  destruct i as [|[|[|i]]]; [| | |lia].
  - rewrite Hinv, Hinv'. reflexivity.
  - rewrite (Hsame 0%nat) by lia.
    destruct (marker_invalid (samples report 0)); [reflexivity|].
    rewrite Hinv, Hinv'. reflexivity.
  - rewrite (Hsame 0%nat), (Hsame 1%nat) by lia.
    destruct (marker_invalid (samples report 0)); [reflexivity|].
    destruct (marker_invalid (samples report 1)); [reflexivity|].
    rewrite Hinv, Hinv'. reflexivity.
Qed.

(** C6: every call of the fusion update that a report leads to carries,
    for the accelerometer and for the gyroscope alike, the vector whose
    component [i] is [sum_j rot[i][j] * (scale * raw[j] - offset[j])] of
    the sample it comes from: the offset is subtracted from the scaled raw
    vector first and the rectification matrix is applied to the
    difference. *)
Theorem C6_offset_then_rectify (priv : rift_s_hmd_t (FU := Recorder))
    (report : rift_s_hmd_report_t) (k : nat) (call : fusion_call) (i : nat) :
  nth_error (new_calls priv report) k = Some call ->
  (i < 3)%nat ->
  let s := samples report k in
  let cal := imu_calibration priv in
  arr (fc_accel call) i
  = rot_at (accel_rectification cal) i 0
      *. (accel_scale_of priv *. f_of_Z (idx (accel s) 0) -. arr (accel_offset_at_0C cal) 0)
    +. rot_at (accel_rectification cal) i 1
      *. (accel_scale_of priv *. f_of_Z (idx (accel s) 1) -. arr (accel_offset_at_0C cal) 1)
    +. rot_at (accel_rectification cal) i 2
      *. (accel_scale_of priv *. f_of_Z (idx (accel s) 2) -. arr (accel_offset_at_0C cal) 2)
  /\ arr (fc_gyro call) i
  = rot_at (gyro_rectification cal) i 0
      *. (gyro_scale_of priv *. f_of_Z (idx (gyro s) 0) -. arr (gyro_offset cal) 0)
    +. rot_at (gyro_rectification cal) i 1
      *. (gyro_scale_of priv *. f_of_Z (idx (gyro s) 1) -. arr (gyro_offset cal) 1)
    +. rot_at (gyro_rectification cal) i 2
      *. (gyro_scale_of priv *. f_of_Z (idx (gyro s) 2) -. arr (gyro_offset cal) 2)
  /\ fc_accel call
     = vec3f_rotate_3x3
         (fst (subtract_offsets priv
                 (scale_int16x3 (accel_scale_of priv) (accel s),
                  scale_int16x3 (gyro_scale_of priv) (gyro s))))
         (accel_rectification cal)
  /\ fc_gyro call
     = vec3f_rotate_3x3
         (snd (subtract_offsets priv
                 (scale_int16x3 (accel_scale_of priv) (accel s),
                  scale_int16x3 (gyro_scale_of priv) (gyro s))))
         (gyro_rectification cal).
Proof.
  intros H Hi s cal. apply new_calls_nth in H. destruct H as (_ & _ & ->).
  cbn [call_of fc_accel fc_gyro consts_of c_accel_scale c_gyro_scale].
  fold s. fold cal.
  repeat split.
  - destruct i as [|[|[|i]]]; [reflexivity|reflexivity|reflexivity|lia].
  - destruct i as [|[|[|i]]]; [reflexivity|reflexivity|reflexivity|lia].
Qed.

End PipelineClaims.

(* ================================================================== *)
(** * The pipeline on the concrete device, in exact arithmetic *)
(* ================================================================== *)

Section PipelineRuns.
#[local] Existing Instance Rig.protocol.
#[local] Existing Instance Rig.hardware.

Lemma fresh_sentinel : last_imu_timestamp fresh = 4294967295 /\ use_count fresh = 1.
Proof. vm_compute. split; reflexivity. Qed.

(** C1 (the code at the failing input): the session comes out of
    [open_hmd] with [last_imu_timestamp = 0xFFFFFFFF]; its first report,
    with timestamp 5000, has its first sample integrated over
    [5001/1000000] seconds, which is not the tick length [1/1000]. *)
Theorem C1_first_report_dt_is_not_tick :
  last_imu_timestamp fresh = 4294967295
  /\ TICK_LEN fresh = 1 # 1000
  /\ map fc_dt (new_calls fresh (three_good 5000))
     = [5001 # 1000000; 1 # 1000; 1 # 1000]
  /\ ~ (initial_dt fresh (three_good 5000) == TICK_LEN fresh)%Q.
Proof.
  split; [vm_compute; reflexivity|].
  split; [vm_compute; reflexivity|].
  split; [vm_compute; reflexivity|].
  vm_compute. discriminate.
Qed.

(** The same run in IEEE-754 binary32: the first [dt] is the float next
    to 0.005001, the tick length is the float next to 0.001. *)
Lemma first_report_dt_binary32 :
  map fc_dt (new_calls (Rig.opened (FA := IEEE.Binary32) (FU := Recorder))
               (three_good 5000))
  = [S754_finite false 10739566 (-31); S754_finite false 8589935 (-33);
     S754_finite false 8589935 (-33)].
Proof. vm_compute. reflexivity. Qed.

(** From the bytes on the wire to the fusion filter: one poll with a
    64-byte head-motion report pending decodes it, forwards the first
    sample only (the second is marked invalid) and stores the timestamp. *)
Lemma poll_motion_run :
  rift_s_parse_hmd_report (Rig.encode_report motion_report) 64 = Some motion_report
  /\ sensor_fusion (fst (update_hmd fresh stack_buf with_motion))
     = new_calls fresh motion_report
  /\ List.length (new_calls fresh motion_report) = 1%nat
  /\ last_imu_timestamp (fst (update_hmd fresh stack_buf with_motion)) = 5000.
Proof.
  split; [vm_compute; reflexivity|].
  split; [vm_compute; reflexivity|].
  split; vm_compute; reflexivity.
Qed.

(** The interval between the timestamps 1000 and 6000 in binary32: the
    float next to 0.005; after a report with timestamp 0 the next report
    starts with the float next to 0.001. *)
Lemma dt_binary32_examples :
  initial_dt
    (handle_hmd_report_parsed (Rig.opened (FA := IEEE.Binary32) (FU := Recorder))
       (three_good 1000))
    (three_good 6000)
  = S754_finite false 10737418 (-31)
  /\ initial_dt
       (handle_hmd_report_parsed (Rig.opened (FA := IEEE.Binary32) (FU := Recorder))
          (three_good 0))
       (three_good 5000)
     = S754_finite false 8589935 (-33).
Proof. split; vm_compute; reflexivity. Qed.

(** C2 (the code at the failing input): a session that has processed a
    report with timestamp 0 stores 0 in [last_imu_timestamp], and the
    guard [last_imu_timestamp != 0] of [handle_hmd_report] takes that for
    "no previous report"; with [imu_hz = 1000] the next report, with
    timestamp 5000, has its first sample integrated over the tick length
    [1/1000] seconds, not over [5000/1000000]. *)
Theorem C2_dt_after_timestamp_zero_is_tick :
  last_imu_timestamp (handle_hmd_report_parsed fresh (three_good 0)) = 0
  /\ imu_hz (imu_config (handle_hmd_report_parsed fresh (three_good 0))) = 1000
  /\ map fc_dt (new_calls (handle_hmd_report_parsed fresh (three_good 0))
                  (three_good 5000))
     = [1 # 1000; 1 # 1000; 1 # 1000]
  /\ ~ (initial_dt (handle_hmd_report_parsed fresh (three_good 0)) (three_good 5000)
        == 5000 # 1000000)%Q.
Proof.
  split; [vm_compute; reflexivity|].
  split; [vm_compute; reflexivity|].
  split; [vm_compute; reflexivity|].
  vm_compute. discriminate.
Qed.

(** With the timestamps 1000 and 6000 the guard is passed and the first
    sample of the second report is integrated over [5000/1000000]
    seconds. *)
Lemma dt_after_previous_report_example :
  nth_error (new_calls (handle_hmd_report_parsed fresh (three_good 1000))
               (three_good 6000)) 0 = Some c2_call
  /\ fc_dt c2_call = 5000 # 1000000.
Proof.
  split.
  - vm_compute. reflexivity.
  - assert (H : nth_error (new_calls (handle_hmd_report_parsed fresh (three_good 1000))
               (three_good 6000)) 0 = Some c2_call) by (vm_compute; reflexivity).
    exact (dt_after_previous_report fresh (three_good 1000) (three_good 6000)
             0 c2_call H).
Defined.

Lemma C3_invalid_sample_stops_report_witness :
  (1 < 3)%nat
  /\ marker_invalid (samples (second_bad 7000) 1) = true
  /\ (List.length (new_calls fresh (second_bad 7000)) <= 1)%nat
  /\ last_imu_timestamp (handle_hmd_report_parsed fresh (second_bad 7000)) = 7000.
Proof.
  assert (H1 : (1 < 3)%nat) by lia.
  assert (H2 : marker_invalid (samples (second_bad 7000) 1) = true) by reflexivity.
  split; [exact H1|]. split; [exact H2|].
  destruct (C3_invalid_sample_stops_report fresh (second_bad 7000) 1 H1 H2)
    as (_ & Hlen & _ & _ & Hts).
  split; [exact Hlen|exact Hts].
Defined.

Lemma C6_offset_then_rectify_witness :
  nth_error (new_calls fresh (three_good 5000)) 1 = Some c6_call
  /\ (0 < 3)%nat
  /\ (arr (fc_accel c6_call) 0 == (980665 # 100000) / 2048 * 101 - 1
        + 2 * ((980665 # 100000) / 2048 * 202 - 2))%Q.
Proof.
  assert (H1 : nth_error (new_calls fresh (three_good 5000)) 1 = Some c6_call)
    by (vm_compute; reflexivity).
  assert (H2 : (0 < 3)%nat) by lia.
  split; [exact H1|]. split; [exact H2|].
  destruct (C6_offset_then_rectify fresh (three_good 5000) 1 c6_call 0 H1 H2)
    as (Ha & _).
  rewrite Ha. vm_compute. reflexivity.
Defined.

End PipelineRuns.

(* ================================================================== *)
(** * Conversion to physical units (C7), in exact arithmetic *)
(* ================================================================== *)

Section UnitConversion.
Local Open Scope Q_scope.

(** C7 (as the code has it): for a sample that passed the marker test, the
    vectors that enter calibration are [raw/32768 * gyro_scale] for the
    gyroscope and [raw * 9.80665 / accel_scale] for the accelerometer,
    component by component, and the temperature that is stored is
    [(raw - temperature_offset) / temperature_scale + 25]. *)
Theorem C7_physical_units
    (priv : rift_s_hmd_t (FA := ExactArith) (FU := Recorder))
    (s : rift_s_hmd_imu_sample_t) (dt : Q) (i : nat) :
  (i < 3)%nat ->
  let c := consts_of priv in
  let cfg := imu_config priv in
  let g := scale_int16x3 (c_gyro_scale c) (gyro s) in
  let a := scale_int16x3 (c_accel_scale c) (accel s) in
  arr g i == inject_Z (idx (gyro s) i) / 32768 * gyro_scale cfg
  /\ arr a i == inject_Z (idx (accel s) i) * (980665 # 100000) / accel_scale cfg
  /\ raw_gyro (handle_sample c priv s dt)
     = vec3f_rotate_3x3 (snd (subtract_offsets priv (a, g)))
         (gyro_rectification (imu_calibration priv))
  /\ raw_accel (handle_sample c priv s dt)
     = vec3f_rotate_3x3 (fst (subtract_offsets priv (a, g)))
         (accel_rectification (imu_calibration priv))
  /\ hmd_temperature (handle_sample c priv s dt)
     == (inject_Z (temperature s) - temperature_offset cfg) / temperature_scale cfg
        + 25.
Proof.
  intros Hi c cfg g a. subst c cfg g a.
  assert (Hg : forall r : Z,
             fmul (c_gyro_scale (consts_of priv)) (f_of_Z r)
             == inject_Z r / 32768 * gyro_scale (imu_config priv)).
  { intros r. cbn. unfold Qdiv, inject_Z. ring. }
  assert (Ha : forall r : Z,
             fmul (c_accel_scale (consts_of priv)) (f_of_Z r)
             == inject_Z r * (980665 # 100000) / accel_scale (imu_config priv)).
  { intros r. cbn. unfold Qdiv, inject_Z. ring. }
  split; [destruct i as [|[|[|i]]]; try lia; apply Hg|].
  split; [destruct i as [|[|[|i]]]; try lia; apply Ha|].
  split; [reflexivity|]. split; [reflexivity|].
  cbn. unfold Qdiv, inject_Z. ring.
Qed.

Lemma C7_physical_units_witness :
  (1 < 3)%nat
  /\ hmd_temperature (handle_sample (consts_of fresh) fresh c7_sample (1 # 1000))
     == (10 - 4) / 2 + 25.
Proof.
  assert (H : (1 < 3)%nat) by lia.
  split; [exact H|].
  exact (proj2 (proj2 (proj2 (proj2
           (C7_physical_units fresh c7_sample (1 # 1000) 1 H))))).
Defined.

(** C7 (counterexample): with temperature scale 2, temperature offset 4
    and a raw temperature of 10 the stored temperature is 28, not
    [10/2 - 4 + 25 = 26]. *)
Lemma C7_counterexample_temperature :
  temperature_scale (imu_config fresh) = 2
  /\ temperature_offset (imu_config fresh) = 4
  /\ temperature c7_sample = 10%Z
  /\ hmd_temperature (handle_sample (consts_of fresh) fresh c7_sample (1 # 1000)) == 28
  /\ ~ hmd_temperature (handle_sample (consts_of fresh) fresh c7_sample (1 # 1000))
       == inject_Z (temperature c7_sample) / temperature_scale (imu_config fresh)
          - temperature_offset (imu_config fresh) + 25.
Proof.
  split; [vm_compute; reflexivity|].
  split; [vm_compute; reflexivity|].
  split; [reflexivity|].
  split; [vm_compute; reflexivity|].
  vm_compute. discriminate.
Qed.

End UnitConversion.

(* ================================================================== *)
(** * Facts about polling *)
(* ================================================================== *)

Section PollFacts.
Context {FA : FloatArith} {FU : Fusion} {PR : Protocol} {HW : Hardware}.

Lemma sample_loop_handles c report todo :
  forall dt (priv : rift_s_hmd_t),
    handles (sample_loop c report todo dt priv) = handles priv
    /\ display_on (sample_loop c report todo dt priv) = display_on priv
    /\ use_count (sample_loop c report todo dt priv) = use_count priv.
Proof.
  induction todo as [|i todo IH]; intros dt priv; simpl.
  - repeat split.
  - destruct (marker_invalid (samples report i)); [repeat split|].
    destruct (IH (c_tick_len c) (handle_sample c priv (samples report i) dt))
      as (H1 & H2 & H3).
    rewrite H1, H2, H3. repeat split.
Qed.

Lemma handle_hmd_report_handles (priv : rift_s_hmd_t) buf size :
  handles (handle_hmd_report priv buf size) = handles priv
  /\ display_on (handle_hmd_report priv buf size) = display_on priv
  /\ use_count (handle_hmd_report priv buf size) = use_count priv.
Proof.
  unfold handle_hmd_report.
  destruct (rift_s_parse_hmd_report buf size) as [report|]; [|repeat split].
  unfold handle_hmd_report_parsed.
  apply (sample_loop_handles (consts_of priv) report (seq 0 3)
           (initial_dt priv report) priv).
Qed.

(** The dispatch sends commands and writes the log; it neither touches
    the pending reads nor the handles of the session. *)
Lemma handle_report_frame (priv : rift_s_hmd_t) buf size (w : world) :
  inbox (snd (handle_report priv buf size w)) = inbox w
  /\ handles (fst (handle_report priv buf size w)) = handles priv
  /\ rift_hmds (snd (handle_report priv buf size w)) = rift_hmds w
  /\ heap (snd (handle_report priv buf size w)) = heap w.
Proof.
  unfold handle_report, handle_controller_report.
  destruct (nth 0 buf 0 =? 101).
  { cbn [fst snd]. repeat split. apply handle_hmd_report_handles. }
  destruct (nth 0 buf 0 =? 103).
  { destruct (rift_s_parse_controller_report buf size); repeat split. }
  destruct (nth 0 buf 0 =? 102); [|repeat split].
  destruct (negb _); repeat split.
Qed.

Lemma read_loop_frame queue :
  forall (priv : rift_s_hmd_t) buf (w : world),
    snd (read_loop queue priv buf w) = unread queue
    /\ inbox (snd (fst (read_loop queue priv buf w))) = inbox w
    /\ handles (fst (fst (fst (read_loop queue priv buf w)))) = handles priv.
Proof.
  induction queue as [|r queue IH]; intros priv buf w.
  - repeat split.
  - destruct r as [|data]; [repeat split|].
    cbn [read_loop unread].
    destruct (Z.of_nat (List.length (firstn (Z.to_nat FEATURE_BUFFER_SIZE) data)) =? 0).
    + repeat split.
    + match goal with
      | |- context [read_loop queue ?p ?b ?w'] =>
          destruct (IH p b w') as (H1 & H2 & H3)
      end.
      rewrite H1, H2, H3.
      match goal with
      | |- context [handle_report priv ?b ?n w] =>
          destruct (handle_report_frame priv b n w) as (F1 & F2 & _)
      end.
      rewrite F1, F2. repeat split.
Qed.

Lemma lookup_store_same {A : Type} (k : nat) (a : A) l :
  lookup k (store k a l) = Some a.
Proof. unfold store. simpl. now rewrite Nat.eqb_refl. Qed.

Lemma lookup_remove_key_other {A : Type} (k k' : nat) (l : list (nat * A)) :
  k <> k' -> lookup k (remove_key k' l) = lookup k l.
Proof.
  intros Hne. induction l as [|[k0 a] l IH]; simpl; [reflexivity|].
  destruct (Nat.eqb k' k0) eqn:E1.
  - apply Nat.eqb_eq in E1. subst k0.
    destruct (Nat.eqb k k') eqn:E2; [apply Nat.eqb_eq in E2; contradiction|].
    exact IH.
  - simpl. destruct (Nat.eqb k k0); [reflexivity|exact IH].
Qed.

Lemma lookup_remove_key_same {A : Type} (k : nat) (l : list (nat * A)) :
  lookup k (remove_key k l) = None.
Proof.
  induction l as [|[k0 a] l IH]; simpl; [reflexivity|].
  destruct (Nat.eqb k k0) eqn:E; [exact IH|].
  simpl. now rewrite E.
Qed.

Lemma lookup_store_other {A : Type} (k k' : nat) (a : A) l :
  k <> k' -> lookup k (store k' a l) = lookup k l.
Proof.
  intros Hne. unfold store. simpl.
  destruct (Nat.eqb k k') eqn:E; [apply Nat.eqb_eq in E; contradiction|].
  now apply lookup_remove_key_other.
Qed.

(** Polling one handle reads that handle up to its first stop and leaves
    the pending reads of every other handle alone. *)
Lemma poll_handle_pending (h : handle) (priv : rift_s_hmd_t) buf (w : world) :
  pending h (snd (poll_handle h (priv, buf, w))) = unread (pending h w)
  /\ (forall h', h' <> h ->
        pending h' (snd (poll_handle h (priv, buf, w))) = pending h' w)
  /\ handles (fst (fst (poll_handle h (priv, buf, w)))) = handles priv.
Proof.
  unfold poll_handle.
  destruct (read_loop_frame (pending h w) priv buf w) as (H1 & H2 & H3).
  destruct (read_loop (pending h w) priv buf w) as [[[priv' buf'] w'] rest].
  cbn [fst snd] in H1, H2, H3. subst rest.
  split; [|split; [|exact H3]].
  - unfold pending, set_pending, set_inbox. cbn [inbox snd].
    now rewrite lookup_store_same.
  - intros h' Hne. unfold pending, set_pending, set_inbox. cbn [inbox snd].
    rewrite lookup_store_other by exact Hne. now rewrite H2.
Qed.

End PollFacts.

(* ================================================================== *)
(** * Polling and the display toggle (C8, C9) *)
(* ================================================================== *)

Section PollClaims.
Context {FA : FloatArith} {FU : Fusion} {PR : Protocol} {HW : Hardware}.

Lemma keep_alive_frame (priv : rift_s_hmd_t) (w : world) :
  inbox (snd (keep_alive priv w)) = inbox w
  /\ handles (fst (keep_alive priv w)) = handles priv.
Proof.
  unfold keep_alive. destruct (dleb _ _); repeat split.
Qed.

Lemma iter_unread_shift (n : nat) (q : list read_result) :
  Nat.iter n unread (unread q) = Nat.iter (S n) unread q.
Proof.
  induction n as [|n IH]; [reflexivity|].
  change (Nat.iter (S n) unread (unread q))
    with (unread (Nat.iter n unread (unread q))).
  rewrite IH. reflexivity.
Qed.

(** Polling a list of slots in order: every slot that holds [h] reads [h]
    up to its next stop, the other slots leave [h] alone, and the handles
    of the session stay what they were. *)
Lemma poll_slots_pending (slots : list (option handle)) (h : handle) :
  forall (priv : rift_s_hmd_t) buf (w : world),
    let st := fold_left
                (fun (st : rift_s_hmd_t * list Z * world) (o : option handle) =>
                   match o with
                   | None => st
                   | Some h' => poll_handle h' st
                   end) slots (priv, buf, w) in
    pending h (snd st) = Nat.iter (visits h slots) unread (pending h w)
    /\ handles (fst (fst st)) = handles priv.
Proof.
  induction slots as [|o slots IH]; intros priv buf w; cbn [fold_left].
  - split; reflexivity.
  - destruct o as [h'|].
    + destruct (poll_handle_pending h' priv buf w) as (A & B & C).
      destruct (poll_handle h' (priv, buf, w)) as [[p1 b1] w1].
      cbn [fst snd] in A, B, C.
      destruct (IH p1 b1 w1) as (I1 & I2). cbn zeta in I1, I2.
      rewrite I1, I2, C. split; [|reflexivity].
      unfold visits. cbn [filter].
      destruct (Nat.eqb_spec h h') as [->|Hne].
      * cbn [List.length]. rewrite A. apply iter_unread_shift.
      * rewrite (B h Hne). reflexivity.
    + destruct (IH priv buf w) as (I1 & I2). cbn zeta in I1, I2.
      split; [exact I1|exact I2].
Qed.

(** A loop over slot indices that looks each handle up in the current
    session is the poll of the slots of the session it started with. *)
Lemma poll_indices_slots (priv : rift_s_hmd_t) (indices : list nat) :
  forall st : rift_s_hmd_t * list Z * world,
    handles (fst (fst st)) = handles priv ->
    fold_left
      (fun (st : rift_s_hmd_t * list Z * world) (i : nat) =>
         match handle_at (fst (fst st)) i with
         | None => st
         | Some h => poll_handle h st
         end) indices st
    = fold_left
        (fun (st : rift_s_hmd_t * list Z * world) (o : option handle) =>
           match o with
           | None => st
           | Some h' => poll_handle h' st
           end) (map (handle_at priv) indices) st.
Proof.
  induction indices as [|i indices IH]; intros st Hst; cbn [fold_left map].
  - reflexivity.
  - assert (E : handle_at (fst (fst st)) i = handle_at priv i)
      by (unfold handle_at; now rewrite Hst).
    rewrite E. apply IH.
    destruct (handle_at priv i) as [h|]; [|exact Hst].
    destruct st as [[p b] w]. cbn [fst snd] in Hst.
    rewrite (proj2 (proj2 (poll_handle_pending h p b w))). exact Hst.
Qed.

(** The loop of [update_hmd] over the indices 0, 1, 2 is the poll of the
    three slots of [handles] in that order. *)
Lemma poll_handles_slots (priv : rift_s_hmd_t) buf (w : world) :
  poll_handles (priv, buf, w)
  = fold_left
      (fun (st : rift_s_hmd_t * list Z * world) (o : option handle) =>
         match o with
         | None => st
         | Some h' => poll_handle h' st
         end)
      [handle_at priv 0; handle_at priv 1; handle_at priv 2] (priv, buf, w).
Proof.
  unfold poll_handles.
  exact (poll_indices_slots priv (seq 0 3) (priv, buf, w) eq_refl).
Qed.

Lemma update_hmd_pending (priv : rift_s_hmd_t) buf (w : world) (h : handle) :
  pending h (snd (update_hmd priv buf w))
  = Nat.iter (visits h [handle_at priv 0; handle_at priv 1; handle_at priv 2])
      unread (pending h w).
Proof.
  unfold update_hmd. cbn [snd].
  destruct (keep_alive_frame priv w) as (Ki & Kh).
  destruct (keep_alive priv w) as [pk wk]. cbn [fst snd] in Ki, Kh. cbn [fst snd].
  rewrite poll_handles_slots.
  destruct (poll_slots_pending [handle_at pk 0; handle_at pk 1; handle_at pk 2]
              h pk buf wk) as (P & _).
  cbn zeta in P. rewrite P. unfold handle_at, pending. now rewrite Kh, Ki.
Qed.

(** C8: in the read loop of a handle a zero-length read ends the loop and
    a negative read logs an error and ends the loop, in both cases with
    the session unchanged and whatever was pending behind that read left
    unread; one poll leaves on every handle what lay behind that handle's
    own first zero-length or negative read, once for each of the three
    slots that holds the handle, so a stop on one handle does not keep
    the next ones from being read; and a report whose first byte is none
    of 0x65, 0x66, 0x67 is logged, leaves the session as it was, and the
    loop goes on with the next read. *)
Theorem C8_poll_reads (priv : rift_s_hmd_t) (buf : list Z) (w : world)
    (rest : list read_result) (data : list Z) :
  data <> [] ->
  (List.length data <= Z.to_nat FEATURE_BUFFER_SIZE)%nat ->
  nth 0 data 0 <> 0x65 -> nth 0 data 0 <> 0x66 -> nth 0 data 0 <> 0x67 ->
  read_loop (ReadData [] :: rest) priv buf w = (priv, buf, w, rest)
  /\ read_loop (ReadError :: rest) priv buf w
     = (priv, buf, emit (EvLogE "error reading from HMD device") w, rest)
  /\ (forall h,
        pending h (snd (update_hmd priv buf w))
        = Nat.iter (visits h [handle_at priv 0; handle_at priv 1; handle_at priv 2])
            unread (pending h w))
  /\ handle_report priv (fill data buf) (Z.of_nat (List.length data)) w
     = (priv, emit (EvLogW_id "Unknown Rift S report 0x%02x!" (nth 0 data 0)) w)
  /\ read_loop (ReadData data :: rest) priv buf w
     = read_loop rest priv (fill data buf)
         (emit (EvLogW_id "Unknown Rift S report 0x%02x!" (nth 0 data 0)) w).
Proof.
  intros Hne Hlen H65 H66 H67.
  assert (Hfill : nth 0 (fill data buf) 0 = nth 0 data 0).
  { unfold fill. destruct data as [|b data]; [contradiction|reflexivity]. }
  assert (Hdisp : handle_report priv (fill data buf) (Z.of_nat (List.length data)) w
                  = (priv, emit (EvLogW_id "Unknown Rift S report 0x%02x!"
                                   (nth 0 data 0)) w)).
  { unfold handle_report. rewrite Hfill.
    destruct (Z.eqb_spec (nth 0 data 0) 101) as [E|_]; [contradiction|].
    destruct (Z.eqb_spec (nth 0 data 0) 103) as [E|_]; [contradiction|].
    destruct (Z.eqb_spec (nth 0 data 0) 102) as [E|_]; [contradiction|].
    reflexivity. }
  split; [reflexivity|]. split; [reflexivity|].
  split; [exact (update_hmd_pending priv buf w)|].
  split; [exact Hdisp|].
  cbn [read_loop]. rewrite firstn_all2 by exact Hlen.
  destruct (Z.eqb_spec (Z.of_nat (List.length data)) 0) as [E|_].
  { destruct data; [contradiction|simpl in E; lia]. }
  rewrite Hdisp. reflexivity.
Qed.

(** C9: on a buffer that starts with 0x66 the screen command is sent
    exactly when the proximity flag [buf[1] != 0] differs from the cached
    [display_on], with the flag as its argument; afterwards the cache
    holds the flag; with the flag unchanged nothing at all happens; and
    handling the same buffer once more changes nothing. *)
Theorem C9_display_toggle (priv : rift_s_hmd_t) (buf : list Z) (size : Z)
    (w : world) :
  nth 0 buf 0 = 0x66 ->
  let prox_sensor := negb (nth 1 buf 0 =? 0) in
  let r := handle_report priv buf size w in
  display_on (fst r) = prox_sensor
  /\ trace (snd r)
     = trace w ++ (if Bool.eqb prox_sensor (display_on priv) then []
                   else [EvSetScreenEnable (handle_at priv 0) prox_sensor])
  /\ (prox_sensor = display_on priv -> r = (priv, w))
  /\ handle_report (fst r) buf size (snd r) = r.
Proof.
  intros Hid prox_sensor r. subst r prox_sensor.
  unfold handle_report. rewrite Hid. cbn [Z.eqb Pos.eqb].
  destruct (nth 1 buf 0 =? 0); destruct (display_on priv) eqn:D;
    cbn [negb Bool.eqb fst snd display_on set_display_on emit trace];
    rewrite ?D; cbn [negb Bool.eqb]; rewrite ?app_nil_r;
    repeat split; try reflexivity; try discriminate.
Qed.

End PollClaims.

(* ================================================================== *)
(** * Float queries (C10) *)
(* ================================================================== *)

Section GetfClaims.
Context {FA : FloatArith} {FU : Fusion} {PR : Protocol} {HW : Hardware}.

(** C10: for a logical device whose id is not 0, [getf] returns -1 for
    every value type and hands the caller's buffer back as it was, with
    nothing else changed; a device with id 0 is answered by [getf_hmd],
    which returns 0 for the four value types it knows. *)
Theorem C10_getf_only_for_id_zero (device : ptr) (s : rift_s_hmd_t)
    (type : ohmd_float_value) (out : list float) (w : world) :
  deref device w = Some s ->
  (dev_id (hmd_dev s) <> 0 -> getf device type out w = Some (-1, out, w))
  /\ (dev_id (hmd_dev s) = 0 ->
      forall hp hmd,
        dev_hmd (hmd_dev s) = Some hp ->
        deref hp w = Some hmd ->
        getf device type out w = Some (getf_hmd hmd type out w)
        /\ ((forall n, type <> OHMD_OTHER_VALUE n) ->
            fst (fst (getf_hmd hmd type out w)) = 0)).
Proof.
  intros Hd. unfold getf. rewrite Hd. split.
  - intros Hid. destruct (Z.eqb_spec (dev_id (hmd_dev s)) 0) as [E|_];
      [contradiction|reflexivity].
  - intros Hid hp hmd Hp Hh. rewrite Hid, Hp, Hh. cbn [Z.eqb].
    split; [reflexivity|].
    intros Hty. destruct type; try reflexivity.
    exfalso. exact (Hty type eq_refl).
Qed.

End GetfClaims.

(* ================================================================== *)
(** * Sharing and tearing down a session *)
(* ================================================================== *)

Section SessionFacts.
Context {FA : FloatArith} {FU : Fusion} {HW : Hardware}.

(** A path that is already in the list is served from the list: no
    hardware is touched and the use count of the session stays what it
    was. *)
Lemma open_device_found (desc : ohmd_device_desc) (w : world) (p : ptr)
    (s : rift_s_hmd_t) :
  find_hmd (desc_path desc) w = Some p ->
  deref p w = Some s ->
  desc_id desc = 0 ->
  exists w' s',
    open_device desc w = Some (Some p, w')
    /\ deref p w' = Some s'
    /\ use_count s' = use_count s
    /\ trace w' = trace w
    /\ rift_hmds w' = rift_hmds w.
Proof.
  intros Hf Hd Hid. unfold open_device. rewrite Hf. cbn [fst snd].
  rewrite Hid, Hd. cbn [Z.eqb].
  eexists. eexists. split; [reflexivity|].
  split; [unfold deref, write; cbn [heap set_heap]; apply lookup_store_same|].
  repeat split.
Qed.

(** A session that is still shared is only counted down. *)
Lemma release_hmd_shared (p : ptr) (s : rift_s_hmd_t) (w : world) :
  deref p w = Some s ->
  1 < use_count s ->
  release_hmd p w = Some (write p (set_use_count s (use_count s - 1)) w).
Proof.
  intros Hd Hc. unfold release_hmd. rewrite Hd.
  destruct (Z.ltb_spec 1 (use_count s)); [reflexivity|lia].
Qed.

(** What [close_hmd] does to a session with three open handles. *)
Lemma close_hmd_trace (p : ptr) (hmd : rift_s_hmd_t) (w : world) h0 h1 h2 :
  handles hmd = [Some h0; Some h1; Some h2] ->
  trace (close_hmd p hmd w)
  = trace w ++ [EvHmdEnable h0 true]
    ++ (if rift_s_hmd_enable h0 true <? 0
        then [EvLogW "Failed to disable Rift S"] else [])
    ++ [EvHidClose h0; EvHidClose h1; EvHidClose h2]
  /\ deref p (close_hmd p hmd w) = None
  /\ rift_hmds (close_hmd p hmd w) = rift_hmds w.
Proof.
  intros Hh. unfold close_hmd, close_handles, handle_at. rewrite Hh.
  cbn [nth seq fold_left].
  destruct (rift_s_hmd_enable h0 true <? 0);
    (split; [cbn; rewrite <- !app_assoc; reflexivity|]);
    (split; [unfold deref, free; cbn [heap set_heap]; apply lookup_remove_key_same
            |reflexivity]).
Qed.

(** The last user: the session is closed and its node leaves the list. *)
Lemma release_hmd_last (p : ptr) (s : rift_s_hmd_t) (w : world)
    (l : list (string * ptr)) :
  deref p w = Some s ->
  use_count s <= 1 ->
  unlink (rift_hmds w) p = Some l ->
  release_hmd p w = Some (set_rift_hmds (close_hmd p s w) l).
Proof.
  intros Hd Hc Hu. unfold release_hmd. rewrite Hd.
  destruct (Z.ltb_spec 1 (use_count s)); [lia|].
  rewrite Hu. reflexivity.
Qed.

End SessionFacts.

Section OpenFacts.
Context {FA : FloatArith} {FU : Fusion} {HW : Hardware}.

Lemma open_handles_frame interfaces :
  forall i (priv : rift_s_hmd_t) (w : world),
    use_count (snd (fst (open_handles interfaces i priv w))) = use_count priv
    /\ last_imu_timestamp (snd (fst (open_handles interfaces i priv w)))
       = last_imu_timestamp priv.
Proof.
  induction interfaces as [|iface rest IH]; intros i priv w; cbn [open_handles].
  - split; reflexivity.
  - destruct (fst (open_hid_dev OCULUS_VR_INC_ID RIFT_S_PID iface w)).
    + match goal with
      | |- context [open_handles rest ?j ?p ?w'] => destruct (IH j p w') as (H1 & H2)
      end.
      rewrite H1, H2. split; reflexivity.
    + split; reflexivity.
Qed.

Lemma open_hmd_configure_frame (p : ptr) (priv q : rift_s_hmd_t) (hid : handle)
    (w : world) :
  fst (fst (open_hmd_configure p priv hid w)) = Some q ->
  use_count q = use_count priv
  /\ last_imu_timestamp q = last_imu_timestamp priv.
Proof.
  unfold open_hmd_configure, read_calibration.
  destruct (fst (rift_s_read_device_info hid) <? 0); [discriminate|].
  destruct (rift_s_get_report1 hid <? 0); [discriminate|].
  destruct (fst (rift_s_read_imu_config hid) <? 0); [discriminate|].
  destruct (fst (rift_s_read_firmware_block hid RIFT_S_FIRMWARE_BLOCK_IMU_CALIB) <? 0).
  { cbn [fst snd].
    destruct (fst (rift_s_read_firmware_block hid RIFT_S_FIRMWARE_BLOCK_IMU_CALIB) <? 0);
      [discriminate|].
    destruct (rift_s_hmd_enable hid true <? 0); [discriminate|].
    intros [= <-]. split; reflexivity. }
  cbn [fst snd].
  destruct (fst (rift_s_parse_imu_calibration _) <? 0); [discriminate|].
  destruct (rift_s_hmd_enable hid true <? 0); [discriminate|].
  intros [= <-]. split; reflexivity.
Qed.

(** A session that [open_hmd] returns has use count 1 and a stored
    timestamp of [(uint32_t)-1]. *)
Lemma open_hmd_session (w w' : world) (p : ptr) :
  open_hmd w = (Some p, w') ->
  exists s, deref p w' = Some s
            /\ use_count s = 1
            /\ last_imu_timestamp s = 4294967295.
Proof.
  unfold open_hmd.
  match goal with
  | |- context [open_handles ?l ?i ?q ?w0] =>
      pose proof (open_handles_frame l i q w0) as Hf;
      destruct (open_handles l i q w0) as [[ok priv] w1]
  end.
  cbn [fst snd] in Hf. destruct Hf as (Hu & Hl).
  destruct ok; cbn [negb]; [|discriminate].
  destruct (handle_at priv 0) as [hid|]; [|discriminate].
  pose proof (open_hmd_configure_frame (brk w) priv) as Hc.
  specialize (Hc) with (hid := hid) (w := w1).
  destruct (open_hmd_configure (brk w) priv hid w1) as [[res priv'] w2].
  cbn [fst snd] in Hc.
  destruct res as [q|]; [|discriminate].
  intros [= <- <-]. exists q.
  destruct (Hc q eq_refl) as (Hu' & Hl').
  split; [unfold deref, write; cbn [heap set_heap]; apply lookup_store_same|].
  rewrite Hu', Hl', Hu, Hl. split; reflexivity.
Qed.

(** With [last_imu_timestamp] at [(uint32_t)-1] the test against 0 lets
    the subtraction through: the report starts with the distance from
    [0xFFFFFFFF] to its timestamp. *)
Lemma initial_dt_after_open (priv : rift_s_hmd_t) (report : rift_s_hmd_report_t) :
  last_imu_timestamp priv = 4294967295 ->
  initial_dt priv report
  = fdiv (f_of_Z ((timestamp report + 1) mod 2 ^ 32)) (f_of_Z 1000000).
Proof.
  intros Hl. unfold initial_dt. rewrite Hl. cbn [Z.eqb].
  replace (timestamp report - 4294967295)
    with (timestamp report + 1 + (-1) * 2 ^ 32) by lia.
  now rewrite Z.mod_add by lia.
Qed.

End OpenFacts.

(* ================================================================== *)
(** * The session manager on the concrete device (C4, C5) and runs of
      the poll loop *)
(* ================================================================== *)

Section SessionRuns.
#[local] Existing Instance Rig.protocol.
#[local] Existing Instance Rig.hardware.

(** C4 (the code at the failing input): [open_device] twice with the same
    path returns the same session both times; the second call touches no
    hardware, and the use count is 1 after it, not 2.  The first
    [close_device] therefore already closes the three handles and unlinks
    the session, and the second one is handed an address that is no longer
    live. *)
Theorem C4_second_open_does_not_count :
  option_map fst (open_device Rig.desc Rig.boot) = Some (Some 1%nat)
  /\ option_map fst (open_device Rig.desc opened_once) = Some (Some 1%nat)
  /\ trace opened_twice = trace opened_once
  /\ List.length
       (filter (fun e => match e with EvHidOpenPath _ => true | _ => false end)
          (trace opened_twice)) = 3%nat
  /\ option_map use_count (deref 1%nat opened_twice) = Some 1
  /\ went_through (close_device 1%nat opened_twice) = true
  /\ trace closed_once
     = trace opened_twice
       ++ [EvLogD "closing device"; EvHmdEnable 6%nat true; EvHidClose 6%nat;
           EvHidClose 7%nat; EvHidClose 8%nat]
  /\ rift_hmds closed_once = []
  /\ option_map use_count (deref 1%nat closed_once) = None
  /\ went_through (close_device 1%nat closed_once) = false.
Proof.
  split; [vm_compute; reflexivity|].
  split; [vm_compute; reflexivity|].
  split; [vm_compute; reflexivity|].
  split; [vm_compute; reflexivity|].
  split; [vm_compute; reflexivity|].
  split; [vm_compute; reflexivity|].
  split; [vm_compute; reflexivity|].
  split; [vm_compute; reflexivity|].
  split; vm_compute; reflexivity.
Qed.

(** C5 (the code at the failing input): releasing the only user of the
    session closes the three handles, frees the session and unlinks it,
    but the command sent before that is [rift_s_hmd_enable] with [true];
    no command with [false] is ever sent. *)
Theorem C5_release_sends_enable_true :
  find_hmd "hidraw6" opened_once = Some 1%nat
  /\ option_map use_count (deref 1%nat opened_once) = Some 1
  /\ went_through (release_hmd 1%nat opened_once) = true
  /\ trace released
     = trace opened_once
       ++ [EvHmdEnable 6%nat true; EvHidClose 6%nat; EvHidClose 7%nat;
           EvHidClose 8%nat]
  /\ (forall h, ~ In (EvHmdEnable h false) (trace released))
  /\ rift_hmds released = []
  /\ option_map use_count (deref 1%nat released) = None.
Proof.
  split; [vm_compute; reflexivity|].
  split; [vm_compute; reflexivity|].
  split; [vm_compute; reflexivity|].
  split; [vm_compute; reflexivity|].
  split.
  { intros h. vm_compute. intros H.
    repeat (destruct H as [H|H]; [discriminate H|]). exact H. }
  split; vm_compute; reflexivity.
Qed.

(** One poll of that world: the error on the first handle is logged and
    the other two handles are read all the same. *)
Lemma poll_run :
  trace (snd (update_hmd fresh stack_buf with_reads))
  = trace opened_once
    ++ [EvLogE "error reading from HMD device";
        EvSetScreenEnable (Some 6%nat) true;
        EvLogW_id "Unknown Rift S report 0x%02x!" 0x99;
        EvSetScreenEnable (Some 6%nat) false]
  /\ inbox (snd (update_hmd fresh stack_buf with_reads))
     = [(8%nat, []); (7%nat, [ReadData [0x99]]); (6%nat, [ReadData [0x66; 1]])].
Proof. split; vm_compute; reflexivity. Qed.

Lemma C8_poll_reads_witness :
  [0x99; 0] <> []
  /\ (List.length [0x99; 0] <= Z.to_nat FEATURE_BUFFER_SIZE)%nat
  /\ nth 0 [0x99; 0] 0 <> 0x65 /\ nth 0 [0x99; 0] 0 <> 0x66
  /\ nth 0 [0x99; 0] 0 <> 0x67
  /\ pending 7%nat (snd (update_hmd fresh stack_buf with_reads)) = [ReadData [0x99]]
  /\ pending 6%nat (snd (update_hmd fresh stack_buf with_reads)) = [ReadData [0x66; 1]].
Proof.
  assert (H5 : [0x99; 0] <> []) by discriminate.
  assert (H6 : (List.length [0x99; 0] <= Z.to_nat FEATURE_BUFFER_SIZE)%nat)
    by (vm_compute; lia).
  assert (H7 : nth 0 [0x99; 0] 0 <> 0x65) by (simpl; lia).
  assert (H8 : nth 0 [0x99; 0] 0 <> 0x66) by (simpl; lia).
  assert (H9 : nth 0 [0x99; 0] 0 <> 0x67) by (simpl; lia).
  repeat (split; [assumption|]).
  destruct (C8_poll_reads fresh stack_buf with_reads [] [0x99; 0] H5 H6 H7 H8 H9)
    as (_ & _ & Hp & _).
  split.
  - rewrite (Hp 7%nat). vm_compute. reflexivity.
  - rewrite (Hp 6%nat). vm_compute. reflexivity.
Defined.

Lemma C9_display_toggle_witness :
  nth 0 [0x66; 1] 0 = 0x66
  /\ display_on (fst (handle_report fresh [0x66; 1] 2 opened_once)) = true
  /\ trace (snd (handle_report fresh [0x66; 1] 2 opened_once))
     = trace opened_once ++ [EvSetScreenEnable (Some 6%nat) true].
Proof.
  assert (H : nth 0 [0x66; 1] 0 = 0x66) by reflexivity.
  split; [exact H|].
  destruct (C9_display_toggle fresh [0x66; 1] 2 opened_once H) as (Hd & Ht & _).
  split; [exact Hd|].
  rewrite Ht. vm_compute. reflexivity.
Defined.

Lemma C10_getf_only_for_id_zero_witness :
  deref 1%nat with_controller = Some controller_dev
  /\ getf 1%nat OHMD_ROTATION_QUAT [7 # 1; 8 # 1; 9 # 1; 10 # 1] with_controller
     = Some (-1, [7 # 1; 8 # 1; 9 # 1; 10 # 1], with_controller).
Proof.
  assert (H : deref 1%nat with_controller = Some controller_dev).
  { unfold with_controller, deref, write. cbn [heap set_heap].
    apply lookup_store_same. }
  split; [exact H|].
  apply (C10_getf_only_for_id_zero (FA := ExactArith) (FU := Recorder) 1%nat _
           OHMD_ROTATION_QUAT [7 # 1; 8 # 1; 9 # 1; 10 # 1] with_controller H).
  cbn. discriminate.
Defined.

End SessionRuns.

(* ================================================================== *)
(** * More on the inertial sample pipeline *)
(* ================================================================== *)

Section PipelineMore.
Context {FA : FloatArith} {FU : Fusion}.
Local Open Scope flt_scope.

Lemma sample_loop_replay c report todo :
  forall dt (priv : rift_s_hmd_t),
    sensor_fusion (sample_loop c report todo dt priv)
    = replay (sensor_fusion priv) (loop_calls c (recorded priv) report todo dt).
Proof.
  induction todo as [|i todo IH]; intros dt priv; cbn [sample_loop loop_calls].
  - reflexivity.
  - destruct (marker_invalid (samples report i)); [reflexivity|].
    rewrite IH.
    rewrite (loop_calls_frame c (recorded priv)
               (recorded (handle_sample c priv (samples report i) dt)) report todo
               eq_refl eq_refl).
    reflexivity.
Qed.

(** X1: whatever the fusion filter is, the state it is in after a report is
    the state before it fed, in order, with exactly the calls that the
    recording filter notes for the same session and report. *)
Theorem fusion_state_is_replay_of_recorded_calls (priv : rift_s_hmd_t)
    (report : rift_s_hmd_report_t) :
  sensor_fusion (handle_hmd_report_parsed priv report)
  = replay (sensor_fusion priv) (new_calls (recorded priv) report).
Proof.
  rewrite new_calls_eq. unfold handle_hmd_report_parsed.
  change (sensor_fusion (set_last_imu_timestamp ?p _)) with (sensor_fusion p).
  apply sample_loop_replay.
Qed.

(** X2: the driver never writes [raw_mag], every call hands the fusion
    filter that same magnetometer vector, and after a report the cached
    [raw_gyro] and [raw_accel] are the vectors of the last call made for
    it; a report that leads to no call leaves them and the temperature as
    they were. *)
Theorem cached_vectors_follow_last_call (priv : rift_s_hmd_t (FU := Recorder))
    (report : rift_s_hmd_report_t) :
  raw_mag (handle_hmd_report_parsed priv report) = raw_mag priv
  /\ (forall c, In c (new_calls priv report) -> fc_mag c = raw_mag priv)
  /\ match rev (new_calls priv report) with
     | [] =>
         raw_gyro (handle_hmd_report_parsed priv report) = raw_gyro priv
         /\ raw_accel (handle_hmd_report_parsed priv report) = raw_accel priv
         /\ hmd_temperature (handle_hmd_report_parsed priv report)
            = hmd_temperature priv
     | c :: _ =>
         raw_gyro (handle_hmd_report_parsed priv report) = fc_gyro c
         /\ raw_accel (handle_hmd_report_parsed priv report) = fc_accel c
     end.
Proof.
  rewrite new_calls_eq. unfold handle_hmd_report_parsed.
  cbn [seq sample_loop loop_calls].
  destruct (marker_invalid (samples report 0)).
  { cbn. repeat split. intros c []. }
  destruct (marker_invalid (samples report 1)).
  { cbn. repeat split. intros c [<-|[]]. reflexivity. }
  destruct (marker_invalid (samples report 2)).
  { cbn. repeat split. intros c [<-|[<-|[]]]; reflexivity. }
  cbn. repeat split. intros c [<-|[<-|[<-|[]]]]; reflexivity.
Qed.

(** X3: the interval of a report is taken modulo 2^32, so it survives the
    wrap-around of the device clock: if the stored timestamp is a nonzero
    32-bit value and the report's timestamp lies [d] ticks later on the
    32-bit clock, the report starts with [d / 1000000]. *)
Theorem initial_dt_survives_wrap_around (priv : rift_s_hmd_t)
    (report : rift_s_hmd_report_t) (d : Z) :
  last_imu_timestamp priv <> 0 ->
  0 <= d < 2 ^ 32 ->
  timestamp report = (last_imu_timestamp priv + d) mod 2 ^ 32 ->
  initial_dt priv report = f_of_Z d /. f_of_Z 1000000.
Proof.
  intros Hl Hd Ht. unfold initial_dt.
  destruct (Z.eqb_spec (last_imu_timestamp priv) 0) as [E|_]; [contradiction|].
  rewrite Ht, Zminus_mod_idemp_l.
  replace (last_imu_timestamp priv + d - last_imu_timestamp priv) with d by lia.
  rewrite Z.mod_small by exact Hd. reflexivity.
Qed.

End PipelineMore.

(* ================================================================== *)
(** * More on polling *)
(* ================================================================== *)

Section PollMore.
Context {FA : FloatArith} {FU : Fusion} {PR : Protocol} {HW : Hardware}.

Lemma same_setup_refl (a : rift_s_hmd_t) : same_setup a a.
Proof. repeat split. Qed.

Lemma same_setup_trans (a b c : rift_s_hmd_t) :
  same_setup a b -> same_setup b c -> same_setup a c.
Proof.
  intros (A1 & A2 & A3 & A4 & A5 & A6 & A7 & A8)
         (B1 & B2 & B3 & B4 & B5 & B6 & B7 & B8).
  repeat split; congruence.
Qed.

Lemma sample_loop_setup c report todo :
  forall dt (priv : rift_s_hmd_t),
    same_setup priv (sample_loop c report todo dt priv)
    /\ display_on (sample_loop c report todo dt priv) = display_on priv.
Proof.
  induction todo as [|i todo IH]; intros dt priv; cbn [sample_loop].
  - split; [apply same_setup_refl|reflexivity].
  - destruct (marker_invalid (samples report i));
      [split; [apply same_setup_refl|reflexivity]|].
    destruct (IH (c_tick_len c) (handle_sample c priv (samples report i) dt))
      as (H1 & H2).
    split; [|rewrite H2; reflexivity].
    eapply same_setup_trans; [|exact H1]. repeat split.
Qed.

Lemma handle_hmd_report_setup (priv : rift_s_hmd_t) buf size :
  same_setup priv (handle_hmd_report priv buf size)
  /\ display_on (handle_hmd_report priv buf size) = display_on priv.
Proof.
  unfold handle_hmd_report.
  destruct (rift_s_parse_hmd_report buf size) as [report|];
    [|split; [apply same_setup_refl|reflexivity]].
  unfold handle_hmd_report_parsed.
  destruct (sample_loop_setup (consts_of priv) report (seq 0 3)
              (initial_dt priv report) priv) as (H1 & H2).
  split; [|exact H2].
  eapply same_setup_trans; [exact H1|]. repeat split.
Qed.

(** What one dispatch may do: the session keeps its setup, the world
    keeps everything but the trace, and the trace grows by poll outputs. *)
Lemma handle_report_poll_frame (priv : rift_s_hmd_t) buf size (w : world) :
  same_setup priv (fst (handle_report priv buf size w))
  /\ rift_hmds (snd (handle_report priv buf size w)) = rift_hmds w
  /\ heap (snd (handle_report priv buf size w)) = heap w
  /\ brk (snd (handle_report priv buf size w)) = brk w
  /\ inbox (snd (handle_report priv buf size w)) = inbox w
  /\ now (snd (handle_report priv buf size w)) = now w
  /\ exists new,
       trace (snd (handle_report priv buf size w)) = trace w ++ new
       /\ forallb is_poll_output new = true.
Proof.
  unfold handle_report, handle_controller_report.
  destruct (nth 0 buf 0 =? 101).
  { cbn [fst snd]. split; [apply handle_hmd_report_setup|].
    repeat split. exists []. now rewrite app_nil_r. }
  destruct (nth 0 buf 0 =? 103).
  { cbn [fst snd]. split; [apply same_setup_refl|].
    destruct (rift_s_parse_controller_report buf size); repeat split.
    - exists []. now rewrite app_nil_r.
    - eexists. split; reflexivity. }
  destruct (nth 0 buf 0 =? 102).
  { destruct (negb _); cbn [fst snd].
    - split; [repeat split|]. repeat split. eexists. split; reflexivity.
    - split; [apply same_setup_refl|]. repeat split.
      exists []. now rewrite app_nil_r. }
  cbn [fst snd]. split; [apply same_setup_refl|]. repeat split.
  eexists. split; reflexivity.
Qed.

Lemma read_loop_poll_frame queue :
  forall (priv : rift_s_hmd_t) buf (w : world),
    let r := read_loop queue priv buf w in
    same_setup priv (fst (fst (fst r)))
    /\ rift_hmds (snd (fst r)) = rift_hmds w
    /\ heap (snd (fst r)) = heap w
    /\ brk (snd (fst r)) = brk w
    /\ now (snd (fst r)) = now w
    /\ exists new,
         trace (snd (fst r)) = trace w ++ new
         /\ forallb is_poll_output new = true.
Proof.
  induction queue as [|rd queue IH]; intros priv buf w; cbn zeta.
  - cbn [read_loop fst snd]. split; [apply same_setup_refl|]. repeat split.
    exists []. now rewrite app_nil_r.
  - destruct rd as [|data].
    + cbn [read_loop fst snd]. split; [apply same_setup_refl|]. repeat split.
      eexists. split; reflexivity.
    + cbn [read_loop].
      destruct (Z.of_nat (List.length (firstn (Z.to_nat FEATURE_BUFFER_SIZE) data)) =? 0).
      * cbn [fst snd]. split; [apply same_setup_refl|]. repeat split.
        exists []. now rewrite app_nil_r.
      * match goal with
        | |- context [handle_report priv ?b ?n w] =>
            destruct (handle_report_poll_frame priv b n w)
              as (S1 & R1 & P1 & B1 & _ & N1 & new1 & T1 & F1);
            destruct (IH (fst (handle_report priv b n w)) b
                         (snd (handle_report priv b n w)))
              as (S2 & R2 & P2 & B2 & N2 & new2 & T2 & F2)
        end.
        cbn zeta in S2, R2, P2, B2, N2, T2.
        split; [eapply same_setup_trans; eassumption|].
        rewrite R2, P2, B2, N2. repeat split; try assumption.
        exists (new1 ++ new2). rewrite T2, T1, <- app_assoc.
        split; [reflexivity|]. rewrite forallb_app, F1, F2. reflexivity.
Qed.

Lemma poll_handle_poll_frame (h : handle) (priv : rift_s_hmd_t) buf (w : world) :
  let r := poll_handle h (priv, buf, w) in
  same_setup priv (fst (fst r))
  /\ rift_hmds (snd r) = rift_hmds w
  /\ heap (snd r) = heap w
  /\ brk (snd r) = brk w
  /\ now (snd r) = now w
  /\ exists new,
       trace (snd r) = trace w ++ new /\ forallb is_poll_output new = true.
Proof.
  cbn zeta. unfold poll_handle.
  pose proof (read_loop_poll_frame (pending h w) priv buf w) as H. cbn zeta in H.
  destruct (read_loop (pending h w) priv buf w) as [[[p b] w1] rest].
  cbn [fst snd] in H. cbn [fst snd set_pending set_inbox rift_hmds heap brk now trace].
  exact H.
Qed.

Lemma poll_slots_poll_frame (slots : list (option handle)) :
  forall (priv : rift_s_hmd_t) buf (w : world),
    let r := fold_left
               (fun (st : rift_s_hmd_t * list Z * world) (o : option handle) =>
                  match o with
                  | None => st
                  | Some h' => poll_handle h' st
                  end) slots (priv, buf, w) in
    same_setup priv (fst (fst r))
    /\ rift_hmds (snd r) = rift_hmds w
    /\ heap (snd r) = heap w
    /\ brk (snd r) = brk w
    /\ now (snd r) = now w
    /\ exists new,
         trace (snd r) = trace w ++ new /\ forallb is_poll_output new = true.
Proof.
  induction slots as [|o slots IH]; intros priv buf w; cbn zeta; cbn [fold_left].
  - cbn [fst snd]. split; [apply same_setup_refl|]. repeat split.
    exists []. now rewrite app_nil_r.
  - destruct o as [h|]; [|apply IH].
    pose proof (poll_handle_poll_frame h priv buf w) as H1. cbn zeta in H1.
    destruct (poll_handle h (priv, buf, w)) as [[p1 b1] w1]. cbn [fst snd] in H1.
    destruct H1 as (S1 & R1 & P1 & B1 & N1 & new1 & T1 & F1).
    destruct (IH p1 b1 w1) as (S2 & R2 & P2 & B2 & N2 & new2 & T2 & F2).
    cbn zeta in S2, R2, P2, B2, N2, T2.
    split; [eapply same_setup_trans; eassumption|].
    rewrite R2, P2, B2, N2. repeat split; try assumption.
    exists (new1 ++ new2). rewrite T2, T1, <- app_assoc.
    split; [reflexivity|]. rewrite forallb_app, F1, F2. reflexivity.
Qed.

Lemma update_hmd_shape (priv : rift_s_hmd_t) buf (w : world) :
  let r := update_hmd priv buf w in
  let due := keep_alive_due priv (now w) in
  use_count (fst r) = use_count priv
  /\ handles (fst r) = handles priv
  /\ raw_mag (fst r) = raw_mag priv
  /\ hmd_dev (fst r) = hmd_dev priv
  /\ device_info (fst r) = device_info priv
  /\ imu_config (fst r) = imu_config priv
  /\ imu_calibration (fst r) = imu_calibration priv
  /\ last_keep_alive (fst r) = (if due then now w else last_keep_alive priv)
  /\ rift_hmds (snd r) = rift_hmds w
  /\ heap (snd r) = heap w
  /\ brk (snd r) = brk w
  /\ now (snd r) = now w
  /\ exists new,
       trace (snd r)
       = trace w
         ++ (if due then [EvSendKeepalive (handle_at priv 0)] else []) ++ new
       /\ forallb is_poll_output new = true.
Proof.
  cbn zeta. unfold update_hmd, keep_alive_due. cbn [fst snd].
  rewrite poll_handles_slots.
  unfold keep_alive.
  destruct (dleb _ _); cbn [fst snd];
    match goal with
    | |- context [fold_left _ ?sl (?p, buf, ?w0)] =>
        destruct (poll_slots_poll_frame sl p buf w0)
          as (S & R & P & B & N & new & T & F)
    end;
    cbn zeta in S, R, P, B, N, T;
    destruct S as (S1 & S2 & S3 & S4 & S5 & S6 & S7 & S8);
    cbn [use_count handles last_keep_alive raw_mag hmd_dev device_info
         imu_config imu_calibration set_last_keep_alive] in S1, S2, S3, S4, S5, S6, S7, S8;
    cbn [rift_hmds heap brk now trace emit] in R, P, B, N, T;
    rewrite <- S1, <- S2, <- S3, <- S4, <- S5, <- S6, <- S7, <- S8, R, P, B, N;
    repeat split; exists new; (split; [|exact F]); rewrite T.
  - rewrite <- app_assoc. reflexivity.
  - reflexivity.
Qed.

(** X5: a poll never changes the use count, the handles, the logical
    device, the device info, the IMU configuration or the calibration of
    the session, never touches the session list or the stored sessions,
    and adds nothing to the trace but keep-alives, screen commands, log
    lines and the controller diagnostic: it opens nothing, closes nothing
    and never sends the enable command. *)
Theorem update_hmd_only_polls (priv : rift_s_hmd_t) (buf : list Z) (w : world) :
  same_setup
    (set_last_keep_alive priv (last_keep_alive (fst (update_hmd priv buf w))))
    (fst (update_hmd priv buf w))
  /\ rift_hmds (snd (update_hmd priv buf w)) = rift_hmds w
  /\ heap (snd (update_hmd priv buf w)) = heap w
  /\ brk (snd (update_hmd priv buf w)) = brk w
  /\ exists new,
       trace (snd (update_hmd priv buf w)) = trace w ++ new
       /\ forallb (fun e => is_poll_output e || is_keepalive e) new = true
       /\ forall e, In e new ->
            match e with
            | EvHidOpenPath _ | EvHidClose _ | EvHmdEnable _ _
            | EvReadFirmwareBlock _ _ | EvReadImuConfig _ | EvReadDeviceInfo _ =>
                False
            | _ => True
            end.
Proof.
  pose proof (update_hmd_shape priv buf w) as H. cbn zeta in H.
  destruct H as (H1 & H2 & H3 & H4 & H5 & H6 & H7 & H8 & R & P & B & N & new & T & F).
  split.
  { unfold same_setup.
    cbn [use_count handles last_keep_alive raw_mag hmd_dev device_info
         imu_config imu_calibration set_last_keep_alive].
    repeat split; symmetry; assumption. }
  split; [exact R|]. split; [exact P|]. split; [exact B|].
  eexists. split; [exact T|].
  assert (G : forallb (fun e => is_poll_output e || is_keepalive e)
                ((if keep_alive_due priv (now w)
                  then [EvSendKeepalive (handle_at priv 0)] else []) ++ new) = true).
  { rewrite forallb_app. apply andb_true_intro. split.
    - destruct (keep_alive_due priv (now w)); reflexivity.
    - rewrite forallb_forall in F. apply forallb_forall. intros e He.
      now rewrite (F e He). }
  split; [exact G|].
  intros e He. rewrite forallb_forall in G. specialize (G e He).
  destruct e; try exact I; discriminate G.
Qed.

(** X6: one poll sends the keep-alive at most once, namely exactly when
    the clock is at least [KEEPALIVE_INTERVAL_MS / 1000] past
    [last_keep_alive], on [handles[0]] and before anything is read; it
    then stores the clock in [last_keep_alive], and otherwise leaves
    [last_keep_alive] alone.  The number of reports read plays no part. *)
Theorem update_hmd_keep_alive_once (priv : rift_s_hmd_t) (buf : list Z)
    (w : world) :
  keepalives (trace (snd (update_hmd priv buf w)))
  = (keepalives (trace w)
     + if keep_alive_due priv (now w) then 1 else 0)%nat
  /\ last_keep_alive (fst (update_hmd priv buf w))
     = (if keep_alive_due priv (now w) then now w else last_keep_alive priv)
  /\ (keep_alive_due priv (now w) = true ->
      exists new,
        trace (snd (update_hmd priv buf w))
        = trace w ++ EvSendKeepalive (handle_at priv 0) :: new).
Proof.
  pose proof (update_hmd_shape priv buf w) as H. cbn zeta in H.
  destruct H as (_ & _ & _ & _ & _ & _ & _ & H8 & _ & _ & _ & _ & new & T & F).
  assert (K : keepalives new = 0%nat).
  { unfold keepalives. clear T. induction new as [|e new IH]; [reflexivity|].
    cbn [forallb] in F. apply andb_prop in F. destruct F as (Fe & Fn).
    cbn [filter]. destruct e; try discriminate Fe; cbn [is_keepalive]; exact (IH Fn). }
  split; [|split; [exact H8|]].
  - rewrite T. unfold keepalives in K |- . unfold keepalives.
    rewrite !filter_app, !length_app, K.
    destruct (keep_alive_due priv (now w)); cbn; lia.
  - intros Hd. rewrite Hd in T. exists new. exact T.
Qed.

(** X7: the dispatch never looks at the size of a system-state report: a
    report of the single byte 0x66 takes its proximity flag from the
    second byte that the buffer held before the read, so after any
    report [d] of at least two bytes it is the second byte of [d] that
    decides the display. *)
Theorem short_state_report_reads_stale_byte (priv : rift_s_hmd_t)
    (buf : list Z) (w : world) (d : list Z) :
  (2 <= List.length d <= Z.to_nat FEATURE_BUFFER_SIZE)%nat ->
  display_on (fst (handle_report priv (fill [0x66] buf) 1 w))
  = negb (nth 1 buf 0 =? 0)
  /\ display_on
       (fst (fst (fst (read_loop [ReadData d; ReadData [0x66]] priv buf w))))
     = negb (nth 1 d 0 =? 0).
Proof.
  intros Hlen.
  assert (A : forall (p : rift_s_hmd_t) b (w0 : world),
             display_on (fst (handle_report p (fill [0x66] b) 1 w0))
             = negb (nth 1 b 0 =? 0)).
  { intros p b w0.
    assert (E1 : nth 1 (fill [0x66] b) 0 = nth 1 b 0).
    { unfold fill. cbn [List.length app nth]. destruct b as [|x [|y b]]; reflexivity. }
    unfold handle_report.
    change (nth 0 (fill [0x66] b) 0) with 0x66. cbn [Z.eqb Pos.eqb].
    rewrite E1.
    destruct (nth 1 b 0 =? 0); destruct (display_on p) eqn:D;
      cbn [negb Bool.eqb fst display_on set_display_on]; rewrite ?D; reflexivity. }
  split; [apply A|].
  assert (Hfill1 : nth 1 (fill d buf) 0 = nth 1 d 0).
  { unfold fill. destruct d as [|x [|y d]];
      [simpl in Hlen; lia|simpl in Hlen; lia|reflexivity]. }
  assert (One : forall (p : rift_s_hmd_t) b (w0 : world),
             fst (fst (fst (read_loop [ReadData [0x66]] p b w0)))
             = fst (handle_report p (fill [0x66] b) 1 w0)) by reflexivity.
  change (read_loop [ReadData d; ReadData [0x66]] priv buf w)
    with (let data := firstn (Z.to_nat FEATURE_BUFFER_SIZE) d in
          if Z.of_nat (List.length data) =? 0
          then (priv, buf, w, [ReadData [0x66]])
          else read_loop [ReadData [0x66]]
                 (fst (handle_report priv (fill data buf)
                         (Z.of_nat (List.length data)) w))
                 (fill data buf)
                 (snd (handle_report priv (fill data buf)
                         (Z.of_nat (List.length data)) w))).
  cbn zeta. rewrite firstn_all2 by exact (proj2 Hlen).
  destruct (Z.eqb_spec (Z.of_nat (List.length d)) 0) as [E|_]; [lia|].
  rewrite One, A, Hfill1. reflexivity.
Qed.

End PollMore.

(* ================================================================== *)
(** * More on opening and closing *)
(* ================================================================== *)

Section OpenMore.
Context {FA : FloatArith} {FU : Fusion} {HW : Hardware}.

Lemma grows_refl (w : world) : grows w w [].
Proof. unfold grows. rewrite app_nil_r. repeat split. Qed.

Lemma grows_emit (w : world) (e : event) : grows w (emit e w) [e].
Proof. repeat split. Qed.

Lemma grows_trans (w1 w2 w3 : world) (n1 n2 : list event) :
  grows w1 w2 n1 -> grows w2 w3 n2 -> grows w1 w3 (n1 ++ n2).
Proof.
  intros (T1 & R1 & P1 & B1 & I1 & N1) (T2 & R2 & P2 & B2 & I2 & N2).
  unfold grows. rewrite T2, T1, app_assoc. repeat split; congruence.
Qed.

Lemma opened_handles_app (a b : list event) :
  opened_handles (a ++ b) = opened_handles a ++ opened_handles b.
Proof. unfold opened_handles. apply flat_map_app. Qed.

Lemma closed_handles_app (a b : list event) :
  closed_handles (a ++ b) = closed_handles a ++ closed_handles b.
Proof. unfold closed_handles. apply flat_map_app. Qed.

(** The search of [open_hid_dev]: the handle returned is that of the first
    enumerated device of the wanted interface that opens, and nothing is
    closed. *)
Lemma open_first_result (devs : list hid_device_info) (iface_num : Z) :
  forall w : world,
    exists new,
      grows w (snd (open_first devs iface_num w)) new
      /\ opened_handles new = held [fst (open_first devs iface_num w)]
      /\ closed_handles new = []
      /\ match fst (open_first devs iface_num w) with
         | Some h =>
             exists l1 d l2,
               devs = l1 ++ d :: l2
               /\ interface_number d = iface_num
               /\ hid_open_path (hdi_path d) = Some h
               /\ forall d', In d' l1 -> interface_number d' = iface_num ->
                             hid_open_path (hdi_path d') = None
         | None =>
             forall d', In d' devs -> interface_number d' = iface_num ->
                        hid_open_path (hdi_path d') = None
         end.
Proof.
  induction devs as [|cur_dev next IH]; intros w; cbn [open_first].
  - exists []. split; [apply grows_refl|]. repeat split. intros d' [].
  - destruct (Z.eqb_spec (interface_number cur_dev) iface_num) as [Ei|Ei].
    + destruct (hid_open_path (hdi_path cur_dev)) as [h|] eqn:Eo.
      * cbn [fst snd]. exists [EvHidOpenPath (hdi_path cur_dev)].
        split; [apply grows_emit|].
        split; [cbn; rewrite Eo; reflexivity|]. split; [reflexivity|].
        exists [], cur_dev, next. repeat split; try assumption. intros d' [].
      * match goal with
        | |- context [open_first next iface_num ?w0] =>
            destruct (IH w0) as (new & G & O & C & M)
        end.
        eexists. split.
        { eapply grows_trans; [|exact G].
          eapply grows_trans; apply grows_emit. }
        rewrite !opened_handles_app, !closed_handles_app, O, C.
        split; [cbn; rewrite Eo; reflexivity|]. split; [reflexivity|].
        destruct (fst (open_first next iface_num _)) as [h|].
        -- destruct M as (l1 & d & l2 & E & Hi & Ho & Hn).
           exists (cur_dev :: l1), d, l2. rewrite E.
           repeat split; try assumption.
           intros d' [<-|Hin] Hd'; [exact Eo|exact (Hn d' Hin Hd')].
        -- intros d' [<-|Hin] Hd'; [exact Eo|exact (M d' Hin Hd')].
    + destruct (IH w) as (new & G & O & C & M).
      exists new. repeat split; try apply G; try assumption.
      destruct (fst (open_first next iface_num w)) as [h|].
      * destruct M as (l1 & d & l2 & E & Hi & Ho & Hn).
        exists (cur_dev :: l1), d, l2. rewrite E.
        repeat split; try assumption.
        intros d' [<-|Hin] Hd'; [contradiction|exact (Hn d' Hin Hd')].
      * intros d' [<-|Hin] Hd'; [contradiction|exact (M d' Hin Hd')].
Qed.

Lemma open_hid_dev_result (vid pid iface_num : Z) (w : world) :
  exists new,
    grows w (snd (open_hid_dev vid pid iface_num w)) new
    /\ match fst (open_hid_dev vid pid iface_num w) with
       | Some h =>
           opened_handles new = [h]
           /\ closed_handles new = []
           /\ first_match vid pid iface_num h
       | None => opened_handles new = closed_handles new
       end.
Proof.
  unfold open_hid_dev.
  destruct (hid_enumerate vid pid) as [|d0 devs] eqn:En.
  { exists []. split; [apply grows_refl|reflexivity]. }
  destruct (open_first_result (d0 :: devs) iface_num w) as (new & G & O & C & M).
  destruct (fst (open_first (d0 :: devs) iface_num w)) as [h|].
  - destruct (Z.eqb_spec (hid_set_nonblocking h 1) (-1)) as [Eb|Eb]; cbn [fst snd].
    + eexists. split.
      { eapply grows_trans; [exact G|].
        eapply grows_trans; [apply grows_emit|].
        eapply grows_trans; apply grows_emit. }
      rewrite !opened_handles_app, !closed_handles_app, O, C. reflexivity.
    + eexists. split.
      { eapply grows_trans; [exact G|apply grows_emit]. }
      rewrite !opened_handles_app, !closed_handles_app, O, C.
      split; [reflexivity|]. split; [reflexivity|].
      split; [exact Eb|]. rewrite En. exact M.
  - cbn [fst snd]. exists new. split; [exact G|]. rewrite O, C. reflexivity.
Qed.

(** X8: [open_hid_dev] returns a handle only for the first enumerated
    device of the wanted interface that [hid_open_path] opens, and only
    after non-blocking mode was set on it; it closes nothing then and
    changes nothing but the trace.  When it returns NULL, every handle it
    opened on the way has been closed again. *)
Theorem open_hid_dev_first_match_or_nothing (vid pid iface_num : Z) (w : world) :
  exists new,
    grows w (snd (open_hid_dev vid pid iface_num w)) new
    /\ match fst (open_hid_dev vid pid iface_num w) with
       | Some h =>
           opened_handles new = [h]
           /\ closed_handles new = []
           /\ hid_set_nonblocking h 1 <> -1
           /\ exists l1 d l2,
                hid_enumerate vid pid = l1 ++ d :: l2
                /\ interface_number d = iface_num
                /\ hid_open_path (hdi_path d) = Some h
                /\ forall d', In d' l1 -> interface_number d' = iface_num ->
                              hid_open_path (hdi_path d') = None
       | None => opened_handles new = closed_handles new
       end.
Proof.
  destruct (open_hid_dev_result vid pid iface_num w) as (new & G & M).
  exists new. split; [exact G|].
  destruct (fst (open_hid_dev vid pid iface_num w)); [|exact M].
  destruct M as (O & C & Eb & F). repeat split; assumption.
Qed.

Lemma close_hmd_result (p : ptr) (hmd : rift_s_hmd_t) (w : world) :
  trace (close_hmd p hmd w)
  = trace w ++ closing_command hmd
    ++ map EvHidClose (held [handle_at hmd 0; handle_at hmd 1; handle_at hmd 2])
  /\ heap (close_hmd p hmd w) = remove_key p (heap w)
  /\ rift_hmds (close_hmd p hmd w) = rift_hmds w
  /\ brk (close_hmd p hmd w) = brk w
  /\ inbox (close_hmd p hmd w) = inbox w
  /\ now (close_hmd p hmd w) = now w.
Proof.
  unfold close_hmd, close_handles, closing_command. cbn [seq fold_left].
  destruct (handle_at hmd 0) as [h0|];
    [destruct (rift_s_hmd_enable h0 true <? 0)|];
    destruct (handle_at hmd 1) as [h1|]; destruct (handle_at hmd 2) as [h2|];
    cbn; rewrite <- ?app_assoc, ?app_nil_r; repeat split.
Qed.

Lemma open_handles_result (priv : rift_s_hmd_t) (w : world) :
  handles priv = [None; None; None] ->
  exists new,
    let r := open_handles
               [RIFT_S_INTF_HMD; RIFT_S_INTF_STATUS; RIFT_S_INTF_CONTROLLERS]
               0 priv w in
    grows w (snd r) new
    /\ snd (fst r) = set_handles priv (handles (snd (fst r)))
    /\ Permutation (opened_handles new)
         (closed_handles new ++ held (handles (snd (fst r))))
    /\ List.length (handles (snd (fst r))) = 3%nat
    /\ (fst (fst r) = true ->
        closed_handles new = []
        /\ exists h0 h1 h2,
             handles (snd (fst r)) = [Some h0; Some h1; Some h2]
             /\ first_match OCULUS_VR_INC_ID RIFT_S_PID RIFT_S_INTF_HMD h0
             /\ first_match OCULUS_VR_INC_ID RIFT_S_PID RIFT_S_INTF_STATUS h1
             /\ first_match OCULUS_VR_INC_ID RIFT_S_PID RIFT_S_INTF_CONTROLLERS h2).
Proof.
  intros Hh. cbn zeta. cbn [open_handles].
  destruct (open_hid_dev_result OCULUS_VR_INC_ID RIFT_S_PID RIFT_S_INTF_HMD w)
    as (n0 & G0 & M0).
  destruct (fst (open_hid_dev OCULUS_VR_INC_ID RIFT_S_PID RIFT_S_INTF_HMD w))
    as [h0|]; cbn [fst snd handles set_handles]; rewrite Hh; cbn [set_nth].
  2:{ exists n0. split; [exact G0|]. split; [reflexivity|].
      split; [rewrite M0, app_nil_r; reflexivity|].
      split; [reflexivity|discriminate]. }
  destruct M0 as (O0 & C0 & F0).
  match goal with
  | |- context [open_hid_dev ?a ?b RIFT_S_INTF_STATUS ?w1] =>
      destruct (open_hid_dev_result a b RIFT_S_INTF_STATUS w1) as (n1 & G1 & M1);
      destruct (fst (open_hid_dev a b RIFT_S_INTF_STATUS w1)) as [h1|]
  end; cbn [fst snd handles set_handles set_nth].
  2:{ exists (n0 ++ n1). split; [eapply grows_trans; eassumption|].
      split; [reflexivity|].
      rewrite opened_handles_app, closed_handles_app, O0, C0, M1.
      split; [apply Permutation_app_comm|]. split; [reflexivity|discriminate]. }
  destruct M1 as (O1 & C1 & F1).
  match goal with
  | |- context [open_hid_dev ?a ?b RIFT_S_INTF_CONTROLLERS ?w2] =>
      destruct (open_hid_dev_result a b RIFT_S_INTF_CONTROLLERS w2)
        as (n2 & G2 & M2);
      destruct (fst (open_hid_dev a b RIFT_S_INTF_CONTROLLERS w2)) as [h2|]
  end; cbn [fst snd handles set_handles set_nth].
  2:{ exists (n0 ++ n1 ++ n2).
      split; [eapply grows_trans; [eassumption|eapply grows_trans; eassumption]|].
      split; [reflexivity|].
      rewrite !opened_handles_app, !closed_handles_app, O0, C0, O1, C1, M2.
      split; [apply (Permutation_app_comm [h0; h1])|].
      split; [reflexivity|discriminate]. }
  destruct M2 as (O2 & C2 & F2).
  exists (n0 ++ n1 ++ n2).
  split; [eapply grows_trans; [eassumption|eapply grows_trans; eassumption]|].
  split; [reflexivity|].
  rewrite !opened_handles_app, !closed_handles_app, O0, C0, O1, C1, O2, C2.
  split; [reflexivity|]. split; [reflexivity|]. intros _.
  split; [reflexivity|]. exists h0, h1, h2.
  split; [reflexivity|]. split; [exact F0|]. split; [exact F1|exact F2].
Qed.

Ltac grows_by_emits :=
  unfold grows; cbn [trace rift_hmds heap brk inbox now emit];
  rewrite <- ?app_assoc; repeat split.

Lemma open_hmd_configure_result (p : ptr) (priv : rift_s_hmd_t) (hid : handle)
    (w : world) :
  exists new,
    let r := open_hmd_configure p priv hid w in
    grows w (snd r) new
    /\ opened_handles new = []
    /\ closed_handles new = []
    /\ handles (snd (fst r)) = handles priv
    /\ forall q, fst (fst r) = Some q ->
         new = [EvReadDeviceInfo hid; EvGetReport1 hid; EvReadImuConfig hid;
                EvReadFirmwareBlock hid RIFT_S_FIRMWARE_BLOCK_IMU_CALIB;
                EvHmdEnable hid true]
         /\ snd (fst r) = q
         /\ q = set_sensor_fusion
                  (set_hmd_dev
                     (set_imu_calibration
                        (set_imu_config
                           (set_device_info priv (snd (rift_s_read_device_info hid)))
                           (snd (rift_s_read_imu_config hid)))
                        (snd (rift_s_parse_imu_calibration
                                (snd (rift_s_read_firmware_block hid
                                        RIFT_S_FIRMWARE_BLOCK_IMU_CALIB)))))
                     (mk_device_priv 0 (Some p) (dev_opened (hmd_dev priv))
                        (h_resolution (snd (rift_s_read_device_info hid)))
                        (v_resolution (snd (rift_s_read_device_info hid)))))
                  (ofusion_init (sensor_fusion priv))
         /\ 0 <= fst (rift_s_read_device_info hid)
         /\ 0 <= rift_s_get_report1 hid
         /\ 0 <= fst (rift_s_read_imu_config hid)
         /\ 0 <= fst (rift_s_read_firmware_block hid RIFT_S_FIRMWARE_BLOCK_IMU_CALIB)
         /\ 0 <= fst (rift_s_parse_imu_calibration
                        (snd (rift_s_read_firmware_block hid
                                RIFT_S_FIRMWARE_BLOCK_IMU_CALIB)))
         /\ 0 <= rift_s_hmd_enable hid true.
Proof.
  cbn zeta. unfold open_hmd_configure, read_calibration.
  destruct (Z.ltb_spec (fst (rift_s_read_device_info hid)) 0) as [L1|L1].
  { cbn [fst snd]. eexists. split; [grows_by_emits|].
    split; [reflexivity|]. split; [reflexivity|]. split; [reflexivity|].
    discriminate. }
  destruct (Z.ltb_spec (rift_s_get_report1 hid) 0) as [L2|L2].
  { cbn [fst snd]. eexists. split; [grows_by_emits|].
    split; [reflexivity|]. split; [reflexivity|]. split; [reflexivity|].
    discriminate. }
  destruct (Z.ltb_spec (fst (rift_s_read_imu_config hid)) 0) as [L3|L3].
  { cbn [fst snd]. eexists. split; [grows_by_emits|].
    split; [reflexivity|]. split; [reflexivity|]. split; [reflexivity|].
    discriminate. }
  destruct (Z.ltb_spec
              (fst (rift_s_read_firmware_block hid RIFT_S_FIRMWARE_BLOCK_IMU_CALIB)) 0)
    as [L4|L4].
  { destruct (Z.ltb_spec
                (fst (rift_s_read_firmware_block hid RIFT_S_FIRMWARE_BLOCK_IMU_CALIB)) 0)
      as [_|L4']; [|lia].
    cbn [fst snd]. eexists. split; [grows_by_emits|].
    split; [reflexivity|]. split; [reflexivity|]. split; [reflexivity|].
    discriminate. }
  cbn [fst snd].
  destruct (Z.ltb_spec
              (fst (rift_s_parse_imu_calibration
                      (snd (rift_s_read_firmware_block hid
                              RIFT_S_FIRMWARE_BLOCK_IMU_CALIB)))) 0) as [L5|L5].
  { cbn [fst snd]. eexists. split; [grows_by_emits|].
    split; [reflexivity|]. split; [reflexivity|]. split; [reflexivity|].
    discriminate. }
  destruct (Z.ltb_spec (rift_s_hmd_enable hid true) 0) as [L6|L6].
  { cbn [fst snd]. eexists. split; [grows_by_emits|].
    split; [reflexivity|]. split; [reflexivity|]. split; [reflexivity|].
    discriminate. }
  cbn [fst snd]. eexists. split; [grows_by_emits|].
  split; [reflexivity|]. split; [reflexivity|]. split; [reflexivity|].
  intros q [= <-]. repeat split; assumption.
Qed.

Lemma closing_events_accounting (hmd : rift_s_hmd_t) (l : list handle) :
  opened_handles (closing_command hmd ++ map EvHidClose l) = []
  /\ closed_handles (closing_command hmd ++ map EvHidClose l) = l.
Proof.
  rewrite opened_handles_app, closed_handles_app.
  assert (A : opened_handles (map EvHidClose l) = []
              /\ closed_handles (map EvHidClose l) = l).
  { induction l as [|h l (IH1 & IH2)]; [split; reflexivity|].
    split; cbn; [exact IH1|]. f_equal. exact IH2. }
  destruct A as (A1 & A2). rewrite A1, A2.
  unfold closing_command. destruct (handle_at hmd 0) as [h0|]; [|split; reflexivity].
  destruct (rift_s_hmd_enable h0 true <? 0); split; reflexivity.
Qed.

Lemma three_slots (hmd : rift_s_hmd_t) :
  List.length (handles hmd) = 3%nat ->
  [handle_at hmd 0; handle_at hmd 1; handle_at hmd 2] = handles hmd.
Proof.
  unfold handle_at. destruct (handles hmd) as [|a [|b [|c [|e l]]]];
    try discriminate. reflexivity.
Qed.

(** X9: [close_hmd] closes every handle the session holds, slot by slot
    and each slot once, skips NULL slots and opens nothing; the command on
    [handles[0]] is sent only when that slot is not NULL; the session
    object is freed, and no other session and no entry of the session
    list is touched. *)
Theorem close_hmd_closes_what_is_held (p : ptr) (hmd : rift_s_hmd_t) (w : world) :
  exists new,
    trace (close_hmd p hmd w) = trace w ++ new
    /\ closed_handles new
       = held [handle_at hmd 0; handle_at hmd 1; handle_at hmd 2]
    /\ opened_handles new = []
    /\ (handle_at hmd 0 = None ->
        new = map EvHidClose (held [handle_at hmd 1; handle_at hmd 2]))
    /\ deref p (close_hmd p hmd w) = None
    /\ (forall q, q <> p -> deref q (close_hmd p hmd w) = deref q w)
    /\ rift_hmds (close_hmd p hmd w) = rift_hmds w.
Proof.
  destruct (close_hmd_result p hmd w) as (T & H & R & _).
  destruct (closing_events_accounting hmd
              (held [handle_at hmd 0; handle_at hmd 1; handle_at hmd 2]))
    as (O & C).
  exists (closing_command hmd
          ++ map EvHidClose (held [handle_at hmd 0; handle_at hmd 1; handle_at hmd 2])).
  split; [exact T|]. split; [exact C|]. split; [exact O|].
  split.
  { intros E. unfold closing_command. rewrite E. reflexivity. }
  split.
  { unfold deref. rewrite H. apply lookup_remove_key_same. }
  split; [|exact R].
  intros q Hq. unfold deref. rewrite H. apply lookup_remove_key_other. exact Hq.
Qed.

(** The session that a successful [open_hmd] stores, given its address
    and the handles of the three interfaces. *)
Lemma open_hmd_result (w : world) :
  exists new,
    let r := open_hmd w in
    trace (snd r) = trace w ++ new
    /\ rift_hmds (snd r) = rift_hmds w
    /\ brk (snd r) = S (brk w)
    /\ inbox (snd r) = inbox w
    /\ now (snd r) = now w
    /\ (forall q, q <> brk w -> deref q (snd r) = deref q w)
    /\ match fst r with
       | None =>
           deref (brk w) (snd r) = None
           /\ Permutation (opened_handles new) (closed_handles new)
       | Some p =>
           p = brk w
           /\ exists opening h0 h1 h2 s,
                new = opening
                      ++ [EvReadDeviceInfo h0; EvGetReport1 h0; EvReadImuConfig h0;
                          EvReadFirmwareBlock h0 RIFT_S_FIRMWARE_BLOCK_IMU_CALIB;
                          EvHmdEnable h0 true]
                /\ Permutation (opened_handles opening) [h0; h1; h2]
                /\ closed_handles new = []
                /\ first_match OCULUS_VR_INC_ID RIFT_S_PID RIFT_S_INTF_HMD h0
                /\ first_match OCULUS_VR_INC_ID RIFT_S_PID RIFT_S_INTF_STATUS h1
                /\ first_match OCULUS_VR_INC_ID RIFT_S_PID RIFT_S_INTF_CONTROLLERS h2
                /\ deref p (snd r) = Some s
                /\ s = set_sensor_fusion
                         (set_hmd_dev
                            (set_imu_calibration
                               (set_imu_config
                                  (set_device_info
                                     (set_handles
                                        (set_last_imu_timestamp
                                           (set_use_count zero_hmd 1) 4294967295)
                                        [Some h0; Some h1; Some h2])
                                     (snd (rift_s_read_device_info h0)))
                                  (snd (rift_s_read_imu_config h0)))
                               (snd (rift_s_parse_imu_calibration
                                       (snd (rift_s_read_firmware_block h0
                                               RIFT_S_FIRMWARE_BLOCK_IMU_CALIB)))))
                            (mk_device_priv 0 (Some p) false
                               (h_resolution (snd (rift_s_read_device_info h0)))
                               (v_resolution (snd (rift_s_read_device_info h0)))))
                         (ofusion_init fusion_zero)
                /\ 0 <= fst (rift_s_read_device_info h0)
                /\ 0 <= rift_s_get_report1 h0
                /\ 0 <= fst (rift_s_read_imu_config h0)
                /\ 0 <= fst (rift_s_read_firmware_block h0
                               RIFT_S_FIRMWARE_BLOCK_IMU_CALIB)
                /\ 0 <= fst (rift_s_parse_imu_calibration
                               (snd (rift_s_read_firmware_block h0
                                       RIFT_S_FIRMWARE_BLOCK_IMU_CALIB)))
                /\ 0 <= rift_s_hmd_enable h0 true
       end.
Proof.
  unfold open_hmd.
  set (p := brk w).
  set (w0 := write p zero_hmd (set_brk w (S p))).
  set (priv0 := set_last_imu_timestamp (set_use_count zero_hmd 1) ((-1) mod 2 ^ 32)).
  destruct (open_handles_result priv0 w0 eq_refl) as (n1 & H1). cbn zeta in H1.
  destruct (open_handles
              [RIFT_S_INTF_HMD; RIFT_S_INTF_STATUS; RIFT_S_INTF_CONTROLLERS]
              0 priv0 w0) as [[ok priv] w1].
  cbn [fst snd] in H1. destruct H1 as (G1 & E1 & P1 & L1 & S1).
  destruct G1 as (T1 & R1 & Hp1 & B1 & I1 & N1).
  assert (Hother : forall (hp : list (ptr * rift_s_hmd_t)) q,
             q <> p ->
             lookup q (remove_key p (store p zero_hmd hp)) = lookup q hp).
  { intros hp q Hq. rewrite lookup_remove_key_other by exact Hq.
    apply lookup_store_other. exact Hq. }
  destruct ok; cbn [negb].
  2:{ destruct (close_hmd_result p priv w1) as (Tc & Hc & Rc & Bc & Ic & Nc).
      cbn zeta. cbn [fst snd].
      rewrite three_slots in Tc by exact L1.
      destruct (closing_events_accounting priv (held (handles priv))) as (Oc & Cc).
      exists (n1 ++ closing_command priv ++ map EvHidClose (held (handles priv))).
      rewrite Tc, T1, Rc, R1, Bc, B1, Ic, I1, Nc, N1, <- app_assoc.
      repeat split.
      - intros q Hq. unfold deref. rewrite Hc, Hp1. apply Hother. exact Hq.
      - unfold deref. rewrite Hc. apply lookup_remove_key_same.
      - rewrite opened_handles_app, closed_handles_app, Oc, Cc, app_nil_r.
        exact P1. }
  destruct (S1 eq_refl) as (C1 & h0 & h1 & h2 & Hh & F0 & F1 & F2).
  assert (E0 : handle_at priv 0 = Some h0) by (unfold handle_at; now rewrite Hh).
  rewrite E0.
  destruct (open_hmd_configure_result p priv h0 w1) as (n2 & H2). cbn zeta in H2.
  destruct (open_hmd_configure p priv h0 w1) as [[res priv'] w2].
  cbn [fst snd] in H2. destruct H2 as (G2 & O2 & C2 & Hh2 & S2).
  destruct G2 as (T2 & R2 & Hp2 & B2 & I2 & N2).
  destruct res as [q|]; cbn zeta; cbn [fst snd].
  2:{ destruct (close_hmd_result p priv' w2) as (Tc & Hc & Rc & Bc & Ic & Nc).
      assert (L2 : List.length (handles priv') = 3%nat) by (rewrite Hh2; exact L1).
      rewrite three_slots in Tc by exact L2.
      destruct (closing_events_accounting priv' (held (handles priv'))) as (Oc & Cc).
      exists (n1 ++ n2 ++ closing_command priv'
                 ++ map EvHidClose (held (handles priv'))).
      rewrite Tc, T2, T1, Rc, R2, R1, Bc, B2, B1, Ic, I2, I1, Nc, N2, N1,
        <- !app_assoc.
      repeat split.
      - intros q Hq. unfold deref. rewrite Hc, Hp2, Hp1. apply Hother. exact Hq.
      - unfold deref. rewrite Hc. apply lookup_remove_key_same.
      - revert Oc Cc.
        generalize (closing_command priv' ++ map EvHidClose (held (handles priv'))).
        intros tail Oc Cc.
        rewrite !opened_handles_app, !closed_handles_app, O2, C2, Oc, Cc.
        cbn [app]. rewrite app_nil_r, Hh2. exact P1. }
  destruct (S2 q eq_refl) as (En & Eq & Eqv & Z1 & Z2 & Z3 & Z4 & Z5 & Z6).
  exists (n1 ++ n2).
  cbn [trace rift_hmds brk inbox now write set_heap].
  rewrite T2, T1, R2, R1, B2, B1, I2, I1, N2, N1, <- app_assoc.
  repeat split.
  - intros q' Hq. unfold deref, write. cbn [heap set_heap].
    rewrite lookup_store_other by exact Hq. rewrite Hp2, Hp1.
    unfold w0, write. cbn [heap set_heap set_brk].
    apply lookup_store_other. exact Hq.
  - exists n1, h0, h1, h2, q. rewrite En.
    split; [reflexivity|].
    split; [rewrite C1, Hh in P1; exact P1|].
    split; [rewrite closed_handles_app, C1; reflexivity|].
    split; [exact F0|]. split; [exact F1|]. split; [exact F2|].
    split; [unfold deref, write; cbn [heap set_heap]; apply lookup_store_same|].
    split; [|repeat split; assumption].
    rewrite Eqv, E1, Hh. reflexivity.
Qed.

(** X10: when [open_hmd] fails, the session object it allocated is freed
    again, no other session and no entry of the session list is touched,
    and every handle that was opened on the way has been closed, each
    exactly once. *)
Theorem open_hmd_failure_releases_everything (w : world) :
  fst (open_hmd w) = None ->
  deref (brk w) (snd (open_hmd w)) = None
  /\ (forall q, q <> brk w -> deref q (snd (open_hmd w)) = deref q w)
  /\ rift_hmds (snd (open_hmd w)) = rift_hmds w
  /\ exists new,
       trace (snd (open_hmd w)) = trace w ++ new
       /\ Permutation (opened_handles new) (closed_handles new).
Proof.
  intros Hf. destruct (open_hmd_result w) as (new & H). cbn zeta in H.
  rewrite Hf in H. destruct H as (T & R & _ & _ & _ & Ho & Hd & P).
  split; [exact Hd|]. split; [exact Ho|]. split; [exact R|].
  exists new. split; assumption.
Qed.

(** X11: a session that [open_hmd] returns lives at the address that was
    fresh, holds three handles, one per interface 6, 7, 8 and each the
    first device of its interface that opened, has use count 1, the
    display flag off, logical device 0 pointing back at the session, and
    the device info, IMU configuration and calibration that [handles[0]]
    answered with, all with a non-negative status; nothing was closed, the
    enable command was the last thing sent, and no other session and no
    entry of the session list was touched. *)
Theorem open_hmd_success_session (w : world) (p : ptr) :
  fst (open_hmd w) = Some p ->
  p = brk w
  /\ (forall q, q <> p -> deref q (snd (open_hmd w)) = deref q w)
  /\ rift_hmds (snd (open_hmd w)) = rift_hmds w
  /\ exists s h0 h1 h2 opening,
       deref p (snd (open_hmd w)) = Some s
       /\ handles s = [Some h0; Some h1; Some h2]
       /\ first_match OCULUS_VR_INC_ID RIFT_S_PID RIFT_S_INTF_HMD h0
       /\ first_match OCULUS_VR_INC_ID RIFT_S_PID RIFT_S_INTF_STATUS h1
       /\ first_match OCULUS_VR_INC_ID RIFT_S_PID RIFT_S_INTF_CONTROLLERS h2
       /\ use_count s = 1
       /\ display_on s = false
       /\ hmd_dev s
          = mk_device_priv 0 (Some p) false
              (h_resolution (snd (rift_s_read_device_info h0)))
              (v_resolution (snd (rift_s_read_device_info h0)))
       /\ device_info s = snd (rift_s_read_device_info h0)
       /\ imu_config s = snd (rift_s_read_imu_config h0)
       /\ imu_calibration s
          = snd (rift_s_parse_imu_calibration
                   (snd (rift_s_read_firmware_block h0
                           RIFT_S_FIRMWARE_BLOCK_IMU_CALIB)))
       /\ sensor_fusion s = ofusion_init fusion_zero
       /\ raw_mag s = zero_vec3f
       /\ 0 <= fst (rift_s_read_device_info h0)
       /\ 0 <= rift_s_get_report1 h0
       /\ 0 <= fst (rift_s_read_imu_config h0)
       /\ 0 <= fst (rift_s_read_firmware_block h0 RIFT_S_FIRMWARE_BLOCK_IMU_CALIB)
       /\ 0 <= fst (rift_s_parse_imu_calibration
                      (snd (rift_s_read_firmware_block h0
                              RIFT_S_FIRMWARE_BLOCK_IMU_CALIB)))
       /\ 0 <= rift_s_hmd_enable h0 true
       /\ trace (snd (open_hmd w))
          = trace w ++ opening
            ++ [EvReadDeviceInfo h0; EvGetReport1 h0; EvReadImuConfig h0;
                EvReadFirmwareBlock h0 RIFT_S_FIRMWARE_BLOCK_IMU_CALIB;
                EvHmdEnable h0 true]
       /\ Permutation (opened_handles opening) [h0; h1; h2]
       /\ closed_handles opening = [].
Proof.
  intros Hf. destruct (open_hmd_result w) as (new & H). cbn zeta in H.
  rewrite Hf in H.
  destruct H as (T & R & _ & _ & _ & Ho & -> & opening & h0 & h1 & h2 & s & En & P
                 & C & F0 & F1 & F2 & Hd & Es & Z1 & Z2 & Z3 & Z4 & Z5 & Z6).
  split; [reflexivity|]. split; [exact Ho|]. split; [exact R|].
  exists s, h0, h1, h2, opening.
  split; [exact Hd|]. rewrite Es.
  split; [reflexivity|]. split; [exact F0|]. split; [exact F1|].
  split; [exact F2|].
  split; [reflexivity|]. split; [reflexivity|]. split; [reflexivity|].
  split; [reflexivity|]. split; [reflexivity|]. split; [reflexivity|].
  split; [reflexivity|]. split; [reflexivity|].
  split; [exact Z1|]. split; [exact Z2|]. split; [exact Z3|].
  split; [exact Z4|]. split; [exact Z5|]. split; [exact Z6|].
  split; [rewrite T, En; reflexivity|]. split; [exact P|].
  rewrite En, closed_handles_app in C. apply app_eq_nil in C. apply C.
Qed.

End OpenMore.

(* ================================================================== *)
(** * More on the session list *)
(* ================================================================== *)

Section RegistryMore.
Context {FA : FloatArith} {FU : Fusion} {HW : Hardware}.

Lemma find_hmd_in_none (l : list (string * ptr)) (path : string) :
  find_hmd_in l path = None -> ~ In path (map fst l).
Proof.
  induction l as [|[path' p] l IH]; cbn [find_hmd_in map fst In]; [tauto|].
  destruct (String.eqb_spec path' path) as [E|E]; [discriminate|].
  intros H [Hp|Hin]; [contradiction|exact (IH H Hin)].
Qed.

Lemma find_hmd_in_some (l : list (string * ptr)) (path : string) (p : ptr) :
  find_hmd_in l path = Some p -> In (path, p) l.
Proof.
  induction l as [|[path' q] l IH]; cbn [find_hmd_in In]; [discriminate|].
  destruct (String.eqb_spec path' path) as [E|E].
  - intros [= <-]. left. now rewrite E.
  - intros H. right. exact (IH H).
Qed.

(** The walk of [release_hmd] takes out the first node that holds the
    session and keeps the others in their order. *)
Lemma unlink_some (l l' : list (string * ptr)) (hmd : ptr) :
  unlink l hmd = Some l' ->
  exists l1 path l2,
    l = l1 ++ (path, hmd) :: l2
    /\ l' = l1 ++ l2
    /\ forall x, In x l1 -> snd x <> hmd.
Proof.
  revert l'. induction l as [|[path cur] l IH]; intros l'; cbn [unlink];
    [discriminate|].
  destruct (Nat.eqb_spec cur hmd) as [E|E].
  - intros [= <-]. exists [], path, l. subst cur. repeat split. intros x [].
  - destruct (unlink l hmd) as [next'|]; [|discriminate].
    intros [= <-]. destruct (IH next' eq_refl) as (l1 & path' & l2 & E1 & E2 & Hn).
    exists ((path, cur) :: l1), path', l2. subst l next'. repeat split.
    intros x [<-|Hin]; [exact E|exact (Hn x Hin)].
Qed.

Lemma unlink_none (l : list (string * ptr)) (hmd : ptr) :
  unlink l hmd = None -> ~ In hmd (map snd l).
Proof.
  induction l as [|[path cur] l IH]; cbn [unlink map snd In]; [tauto|].
  destruct (Nat.eqb_spec cur hmd) as [E|E]; [discriminate|].
  destruct (unlink l hmd); [discriminate|].
  intros _ [Hc|Hin]; [contradiction|exact (IH eq_refl Hin)].
Qed.

Lemma deref_write (q p : ptr) (s : rift_s_hmd_t) (w : world) :
  deref q (write p s w) = if Nat.eqb q p then Some s else deref q w.
Proof.
  unfold deref, write. cbn [heap set_heap].
  destruct (Nat.eqb_spec q p) as [->|E].
  - apply lookup_store_same.
  - apply lookup_store_other. exact E.
Qed.

Lemma registry_ok_transfer (w w' : world) :
  rift_hmds w' = rift_hmds w ->
  (forall path q, In (path, q) (rift_hmds w) -> deref q w' <> None) ->
  (forall q, deref q w' <> None -> (q < brk w')%nat) ->
  registry_ok w -> registry_ok w'.
Proof.
  intros R L B (N1 & N2 & _ & _). unfold registry_ok. rewrite R.
  repeat split; assumption.
Qed.

Lemma registry_ok_write (w : world) (p : ptr) (s : rift_s_hmd_t) :
  deref p w <> None -> registry_ok w -> registry_ok (write p s w).
Proof.
  intros Hp Hok. apply (registry_ok_transfer w); [reflexivity| |  |exact Hok].
  - intros path q Hin. rewrite deref_write. destruct (Nat.eqb q p); [discriminate|].
    destruct Hok as (_ & _ & L & _). exact (L path q Hin).
  - intros q. rewrite deref_write. destruct (Nat.eqb_spec q p) as [->|E]; intros H;
      destruct Hok as (_ & _ & _ & B); [exact (B p Hp)|exact (B q H)].
Qed.

Lemma registry_ok_emit (w : world) (e : event) :
  registry_ok w -> registry_ok (emit e w).
Proof.
  intros Hok. apply (registry_ok_transfer w); [reflexivity| | |exact Hok];
    destruct Hok as (_ & _ & L & B); [exact L|exact B].
Qed.

Lemma registry_ok_release (w w' : world) (hmd : ptr) :
  registry_ok w -> release_hmd hmd w = Some w' -> registry_ok w'.
Proof.
  intros Hok. unfold release_hmd.
  destruct (deref hmd w) as [s|] eqn:Hd; [|discriminate].
  destruct (1 <? use_count s).
  { intros [= <-]. apply registry_ok_write; [rewrite Hd; discriminate|exact Hok]. }
  destruct (unlink (rift_hmds w) hmd) as [l|] eqn:Hu.
  2:{ intros [= <-]. apply registry_ok_emit. exact Hok. }
  intros [= <-].
  destruct (unlink_some _ _ _ Hu) as (l1 & path & l2 & E1 & E2 & Hn). subst l.
  destruct (close_hmd_result hmd s w) as (_ & Hc & _ & Bc & _ & _).
  destruct Hok as (N1 & N2 & L & B). rewrite E1 in N1, N2, L.
  rewrite map_app in N1, N2. cbn [map fst snd] in N1, N2.
  assert (Hd' : forall q, deref q (set_rift_hmds (close_hmd hmd s w) (l1 ++ l2))
                          = if Nat.eqb q hmd then None else deref q w).
  { intros q. unfold deref. cbn [heap set_rift_hmds]. rewrite Hc.
    destruct (Nat.eqb_spec q hmd) as [->|E].
    - apply lookup_remove_key_same.
    - apply lookup_remove_key_other. exact E. }
  assert (R' : rift_hmds (set_rift_hmds (close_hmd hmd s w) (l1 ++ l2)) = l1 ++ l2)
    by reflexivity.
  assert (B' : brk (set_rift_hmds (close_hmd hmd s w) (l1 ++ l2)) = brk w)
    by exact Bc.
  unfold registry_ok. rewrite R', B', !map_app.
  split; [exact (NoDup_remove_1 _ _ _ N1)|].
  split; [exact (NoDup_remove_1 _ _ _ N2)|].
  split.
  - intros path' q Hin. rewrite Hd'.
    destruct (Nat.eqb_spec q hmd) as [->|E].
    + exfalso. apply (NoDup_remove_2 _ _ _ N2).
      rewrite <- map_app. change hmd with (snd (path', hmd)). apply in_map.
      exact Hin.
    + apply (L path' q). apply in_app_or in Hin. apply in_or_app.
      destruct Hin as [H|H]; [left; exact H|right; right; exact H].
  - intros q. rewrite Hd'. destruct (Nat.eqb q hmd); [congruence|apply B].
Qed.

Lemma registry_ok_open_hmd (w : world) :
  registry_ok w -> registry_ok (snd (open_hmd w)).
Proof.
  intros Hok. destruct (open_hmd_result w) as (new & H). cbn zeta in H.
  destruct H as (_ & R & B & _ & _ & Ho & M).
  pose proof Hok as (N1 & N2 & L & Bd).
  apply (registry_ok_transfer w); [exact R| | |exact Hok].
  - intros path q Hin. pose proof (L path q Hin) as Hl.
    rewrite Ho; [exact Hl|]. pose proof (Bd q Hl). lia.
  - intros q Hq. rewrite B.
    destruct (Nat.eq_dec q (brk w)) as [->|E]; [lia|].
    rewrite Ho in Hq by exact E. pose proof (Bd q Hq). lia.
Qed.

Lemma registry_ok_push (w : world) (p : ptr) (path : string) :
  registry_ok w ->
  ~ In path (map fst (rift_hmds w)) ->
  ~ In p (map snd (rift_hmds w)) ->
  deref p w <> None ->
  registry_ok (push_hmd p path w).
Proof.
  intros (N1 & N2 & L & B) Hp Hq Hd.
  unfold registry_ok, push_hmd. cbn [rift_hmds set_rift_hmds map fst snd].
  split; [constructor; assumption|]. split; [constructor; assumption|].
  split; [|exact B].
  intros path' q [[= <- <-]|Hin]; [exact Hd|exact (L path' q Hin)].
Qed.

Lemma registry_ok_open_device (w w' : world) (desc : ohmd_device_desc)
    (r : option ptr) :
  registry_ok w -> open_device desc w = Some (r, w') -> registry_ok w'.
Proof.
  intros Hok. unfold open_device.
  assert (Hstep : forall (hmd : ptr) (w1 : world),
             registry_ok w1 ->
             (if desc_id desc =? 0
              then match deref hmd w1 with
                   | Some s =>
                       Some (Some hmd,
                             write hmd
                               (set_hmd_dev s
                                  (mk_device_priv (desc_id desc) (Some hmd) true
                                     (dev_hres (hmd_dev s)) (dev_vres (hmd_dev s))))
                               w1)
                   | None => None
                   end
              else Some (None,
                         emit (EvLogE "Invalid device description passed to open_device()")
                           w1))
             = Some (r, w') -> registry_ok w').
  { intros hmd w1 Hok1. destruct (desc_id desc =? 0).
    - destruct (deref hmd w1) as [s|] eqn:Hd; [|discriminate].
      intros [= _ <-]. apply registry_ok_write; [rewrite Hd; discriminate|exact Hok1].
    - intros [= _ <-]. apply registry_ok_emit. exact Hok1. }
  destruct (find_hmd (desc_path desc) w) as [hmd|] eqn:Hf; cbn [fst snd].
  { apply Hstep. exact Hok. }
  pose proof (registry_ok_open_hmd w Hok) as Hok1.
  destruct (open_hmd_result w) as (new & H). cbn zeta in H.
  destruct H as (_ & R & B & _ & _ & Ho & M).
  destruct (fst (open_hmd w)) as [p|]; cbn [fst snd].
  2:{ intros [= _ <-]. exact Hok1. }
  apply Hstep.
  destruct M as (-> & opening & h0 & h1 & h2 & s & _ & _ & _ & _ & _ & _ & Hd & _).
  destruct Hok as (N1 & N2 & L & Bd).
  apply registry_ok_push; [exact Hok1| | |rewrite Hd; discriminate].
  - rewrite R. apply find_hmd_in_none. exact Hf.
  - rewrite R. intros Hin. apply in_map_iff in Hin.
    destruct Hin as ([path q] & Eq & Hin). cbn [snd] in Eq. subst q.
    pose proof (Bd _ (L path _ Hin)). lia.
Qed.

Lemma registry_ok_close_device (w w' : world) (device : ptr) :
  registry_ok w -> close_device device w = Some w' -> registry_ok w'.
Proof.
  intros Hok. unfold close_device.
  destruct (deref device (emit (EvLogD "closing device") w)) as [s|] eqn:Hd;
    [|discriminate].
  cbn [dev_hmd].
  destruct (dev_hmd (hmd_dev s)) as [hmd|]; [|discriminate].
  apply registry_ok_release. apply registry_ok_write; [rewrite Hd; discriminate|].
  apply registry_ok_emit. exact Hok.
Qed.

(** X12: the session list stays in order through every call the framework
    can make: if no path and no session occurs twice in it, every session
    in it is allocated and no allocated address has been handed out as
    fresh, then the same holds after [open_device] and after
    [close_device], whatever they return. *)
Theorem session_list_stays_in_order (w : world) :
  registry_ok w ->
  (forall desc r w', open_device desc w = Some (r, w') -> registry_ok w')
  /\ (forall device w', close_device device w = Some w' -> registry_ok w').
Proof.
  intros Hok. split.
  - intros desc r w'. apply registry_ok_open_device. exact Hok.
  - intros device w'. apply registry_ok_close_device. exact Hok.
Qed.

(** X13: releasing a session never touches another one: every other
    allocated session is unchanged, and every path that led to another
    session still leads to it. *)
Theorem release_hmd_leaves_others_alone (w w' : world) (hmd : ptr) :
  release_hmd hmd w = Some w' ->
  forall q, q <> hmd ->
    deref q w' = deref q w
    /\ forall path, find_hmd path w = Some q -> find_hmd path w' = Some q.
Proof.
  unfold release_hmd.
  destruct (deref hmd w) as [s|] eqn:Hd; [|discriminate].
  destruct (1 <? use_count s).
  { intros [= <-] q Hq. rewrite deref_write.
    destruct (Nat.eqb_spec q hmd) as [E|_]; [contradiction|]. split; [reflexivity|].
    intros path H. exact H. }
  destruct (unlink (rift_hmds w) hmd) as [l|] eqn:Hu.
  2:{ intros [= <-] q Hq. split; [reflexivity|]. intros path H. exact H. }
  intros [= <-] q Hq.
  destruct (close_hmd_result hmd s w) as (_ & Hc & _).
  split.
  { unfold deref. cbn [heap set_rift_hmds]. rewrite Hc.
    apply lookup_remove_key_other. exact Hq. }
  intros path. unfold find_hmd. cbn [rift_hmds set_rift_hmds].
  clear Hc Hd. revert l Hu.
  induction (rift_hmds w) as [|[path' cur] next IH]; intros l; cbn [unlink find_hmd_in];
    [discriminate|].
  destruct (Nat.eqb_spec cur hmd) as [E|E].
  - intros [= <-]. destruct (String.eqb path' path); [|tauto].
    intros [= E']. congruence.
  - destruct (unlink next hmd) as [next'|]; [|discriminate].
    intros [= <-]. cbn [find_hmd_in]. destruct (String.eqb path' path); [tauto|].
    apply IH. reflexivity.
Qed.

(** X14: opening a path that is not in the session list and closing the
    device again puts the session list and the allocated sessions back
    exactly as they were, and over the two calls together every handle
    that was opened has been closed. *)
Theorem close_after_open_restores (w w1 : world) (path : string) (p : ptr) :
  registry_ok w ->
  find_hmd path w = None ->
  open_device (mk_desc path 0) w = Some (Some p, w1) ->
  exists w2 opening closing,
    close_device p w1 = Some w2
    /\ rift_hmds w2 = rift_hmds w
    /\ (forall q, deref q w2 = deref q w)
    /\ find_hmd path w2 = None
    /\ trace w1 = trace w ++ opening
    /\ trace w2 = trace w1 ++ closing
    /\ Permutation (opened_handles (opening ++ closing))
         (closed_handles (opening ++ closing)).
Proof.
  intros Hok Hf. unfold open_device. cbn [desc_path desc_id]. rewrite Hf.
  cbn [fst snd Z.eqb].
  destruct (open_hmd_result w) as (new & H). cbn zeta in H.
  destruct H as (T & R & B & _ & _ & Ho & M).
  destruct (fst (open_hmd w)) as [p0|]; cbn [fst snd]; [|discriminate].
  destruct M as (-> & opening & h0 & h1 & h2 & s & En & P & C & _ & _ & _ & Hd & Es & _).
  set (w0 := snd (open_hmd w)) in T, R, B, Ho, Hd |- . fold w0.
  assert (Hd0 : deref (brk w) (push_hmd (brk w) path w0) = Some s) by exact Hd.
  rewrite Hd0. intros [= <- <-].
  assert (Hu : use_count s = 1) by (rewrite Es; reflexivity).
  assert (Hh : handles s = [Some h0; Some h1; Some h2]) by (rewrite Es; reflexivity).
  set (p := brk w) in Hd, Hd0, Ho, Es |- . fold p.
  set (s1 := set_hmd_dev s
               (mk_device_priv 0 (Some p) true (dev_hres (hmd_dev s))
                  (dev_vres (hmd_dev s)))).
  set (w1 := write p s1 (push_hmd p path w0)).
  unfold close_device.
  assert (D1 : deref p (emit (EvLogD "closing device") w1) = Some s1).
  { change (deref p (emit (EvLogD "closing device") w1)) with (deref p w1).
    unfold w1. rewrite deref_write, Nat.eqb_refl. reflexivity. }
  rewrite D1. cbn [dev_hmd hmd_dev s1 set_hmd_dev].
  set (s2 := set_hmd_dev s1
               (mk_device_priv (dev_id (hmd_dev s1)) (dev_hmd (hmd_dev s1)) false
                  (dev_hres (hmd_dev s1)) (dev_vres (hmd_dev s1)))).
  change (set_hmd_dev s1 _) with s2.
  set (w3 := write p s2 (emit (EvLogD "closing device") w1)).
  unfold release_hmd.
  assert (D3 : deref p w3 = Some s2)
    by (unfold w3; rewrite deref_write, Nat.eqb_refl; reflexivity).
  rewrite D3.
  assert (U2 : use_count s2 = 1) by exact Hu. rewrite U2. cbn [Z.ltb Z.compare Pos.compare Pos.compare_cont].
  assert (R3 : rift_hmds w3 = (path, p) :: rift_hmds w)
    by (unfold w3, w1; cbn [rift_hmds write set_heap emit push_hmd set_rift_hmds];
        rewrite R; reflexivity).
  rewrite R3. cbn [unlink]. rewrite Nat.eqb_refl.
  destruct (close_hmd_result p s2 w3) as (Tc & Hc & Rc & Bc & _ & _).
  assert (Hs2 : [handle_at s2 0; handle_at s2 1; handle_at s2 2]
                = [Some h0; Some h1; Some h2]).
  { unfold handle_at. change (handles s2) with (handles s). rewrite Hh. reflexivity. }
  rewrite Hs2 in Tc.
  eexists. exists new.
  exists (EvLogD "closing device"
          :: closing_command s2 ++ map EvHidClose (held [Some h0; Some h1; Some h2])).
  split; [reflexivity|].
  split; [reflexivity|].
  split.
  { intros q. unfold deref. cbn [heap set_rift_hmds]. rewrite Hc.
    destruct (Nat.eq_dec q p) as [->|E].
    - rewrite lookup_remove_key_same. symmetry.
      destruct Hok as (_ & _ & _ & Bd).
      destruct (lookup p (heap w)) eqn:El; [|reflexivity].
      assert (Hl : deref p w <> None) by (unfold deref; rewrite El; discriminate).
      pose proof (Bd p Hl). unfold p in H. lia.
    - rewrite lookup_remove_key_other by exact E.
      change (lookup q (heap w3)) with (deref q w3).
      unfold w3. rewrite deref_write.
      destruct (Nat.eqb_spec q p) as [E'|_]; [contradiction|].
      change (deref q (emit (EvLogD "closing device") w1)) with (deref q w1).
      unfold w1. rewrite deref_write.
      destruct (Nat.eqb_spec q p) as [E'|_]; [contradiction|].
      change (deref q (push_hmd p path w0)) with (deref q w0).
      apply Ho. exact E. }
  split; [unfold find_hmd; cbn [rift_hmds set_rift_hmds]; exact Hf|].
  split.
  { unfold w1. cbn [trace write set_heap push_hmd set_rift_hmds]. exact T. }
  split.
  { cbn [trace set_rift_hmds]. rewrite Tc. unfold w3.
    cbn [trace write set_heap emit]. rewrite <- app_assoc. reflexivity. }
  rewrite En.
  destruct (closing_events_accounting s2 (held [Some h0; Some h1; Some h2]))
    as (Oc & Cc).
  revert Oc Cc.
  generalize (closing_command s2 ++ map EvHidClose (held [Some h0; Some h1; Some h2])).
  intros tail Oc Cc.
  rewrite En, closed_handles_app in C. apply app_eq_nil in C. destruct C as (C0 & _).
  change (EvLogD "closing device" :: tail) with ([EvLogD "closing device"] ++ tail).
  rewrite !opened_handles_app, !closed_handles_app, C0, Oc, Cc.
  cbn [opened_handles closed_handles flat_map app held].
  rewrite !app_nil_r. exact P.
Qed.

(** X15: a description whose id is not 0 never yields a device.  For a path
    that is already in the session list only the error is logged; for a
    path that is not, the hardware is opened all the same and, if that
    succeeds, the new session stays in the list with its handles open. *)
Theorem open_device_rejects_other_ids (desc : ohmd_device_desc) (w : world) :
  desc_id desc <> 0 ->
  exists w',
    open_device desc w = Some (None, w')
    /\ (forall p, find_hmd (desc_path desc) w = Some p ->
        w' = emit (EvLogE "Invalid device description passed to open_device()") w)
    /\ (find_hmd (desc_path desc) w = None ->
        match fst (open_hmd w) with
        | Some p =>
            find_hmd (desc_path desc) w' = Some p
            /\ deref p w' = deref p (snd (open_hmd w))
            /\ trace w'
               = trace (snd (open_hmd w))
                 ++ [EvLogE "Invalid device description passed to open_device()"]
        | None => w' = snd (open_hmd w)
        end).
Proof.
  intros Hid. unfold open_device.
  destruct (Z.eqb_spec (desc_id desc) 0) as [E|_]; [contradiction|].
  destruct (find_hmd (desc_path desc) w) as [p|] eqn:Hf; cbn [fst snd].
  { eexists. split; [reflexivity|]. split; [reflexivity|discriminate]. }
  destruct (fst (open_hmd w)) as [p|]; cbn [fst snd].
  - eexists. split; [reflexivity|]. split; [discriminate|]. intros _.
    split; [|split; reflexivity].
    unfold find_hmd. cbn [rift_hmds emit push_hmd set_rift_hmds find_hmd_in].
    rewrite String.eqb_refl. reflexivity.
  - eexists. split; [reflexivity|]. split; [discriminate|reflexivity].
Qed.

End RegistryMore.

(* ================================================================== *)
(** * More on the device callbacks and the device list *)
(* ================================================================== *)

Section CallbacksMore.
Context {FA : FloatArith} {FU : Fusion} {PR : Protocol} {HW : Hardware}.

(** X16: [update_device] polls the session that the device points back to
    and stores the result at that session's address; no other allocated
    session and no entry of the session list changes, and a session list
    that was in order stays in order. *)
Theorem update_device_touches_one_session (device : ptr) (buf : list Z)
    (w w' : world) :
  update_device device buf w = Some w' ->
  exists s hp hmd,
    deref device w = Some s
    /\ dev_hmd (hmd_dev s) = Some hp
    /\ deref hp w = Some hmd
    /\ deref hp w' = Some (fst (update_hmd hmd buf w))
    /\ (forall q, q <> hp -> deref q w' = deref q w)
    /\ rift_hmds w' = rift_hmds w
    /\ (registry_ok w -> registry_ok w').
Proof.
  unfold update_device.
  destruct (deref device w) as [s|] eqn:Hd; [|discriminate].
  destruct (dev_hmd (hmd_dev s)) as [hp|] eqn:Hp; [|discriminate].
  destruct (deref hp w) as [hmd|] eqn:Hh; [|discriminate].
  intros [= <-]. exists s, hp, hmd.
  pose proof (update_hmd_shape hmd buf w) as H. cbn zeta in H.
  destruct H as (_ & _ & _ & _ & _ & _ & _ & _ & R & P & B & _).
  assert (Hq : forall q, deref q (snd (update_hmd hmd buf w)) = deref q w)
    by (intros q; unfold deref; now rewrite P).
  split; [first [reflexivity|exact Hd]|]. split; [first [reflexivity|exact Hp]|].
  split; [first [reflexivity|exact Hh]|].
  split; [rewrite deref_write, Nat.eqb_refl; reflexivity|].
  split.
  { intros q Hne. rewrite deref_write.
    destruct (Nat.eqb_spec q hp) as [E|_]; [contradiction|apply Hq]. }
  split; [exact R|].
  intros Hok. apply registry_ok_write; [rewrite Hq, Hh; discriminate|].
  apply (registry_ok_transfer w); [exact R| | |exact Hok];
    destruct Hok as (_ & _ & L & Bd).
  - intros path q Hin. rewrite Hq. exact (L path q Hin).
  - intros q. rewrite Hq. intros Hl. apply Bd in Hl. rewrite <- B in Hl. exact Hl.
Qed.

(** X17: [getf_hmd] writes only the floats that belong to the value type
    (6 zeros for the distortion coefficients, the 4 components of the
    fused orientation, 3 zeros for the position, nothing for the controls
    state or an unknown type): given a buffer with that much room its
    length is unchanged and everything behind those floats is untouched;
    only an unknown type returns -1, and only it records an error. *)
Theorem getf_hmd_writes_only_its_floats (hmd : rift_s_hmd_t)
    (type : ohmd_float_value) (out : list float) (w : world) :
  (floats_written type <= List.length out)%nat ->
  let r := getf_hmd hmd type out w in
  List.length (snd (fst r)) = List.length out
  /\ skipn (floats_written type) (snd (fst r)) = skipn (floats_written type) out
  /\ firstn (floats_written type) (snd (fst r))
     = match type with
       | OHMD_DISTORTION_K => repeat (f_of_Z 0) 6
       | OHMD_ROTATION_QUAT =>
           [qx (orient (sensor_fusion hmd)); qy (orient (sensor_fusion hmd));
            qz (orient (sensor_fusion hmd)); qw (orient (sensor_fusion hmd))]
       | OHMD_POSITION_VECTOR => [f_of_Z 0; f_of_Z 0; f_of_Z 0]
       | _ => []
       end
  /\ fst (fst r) = match type with OHMD_OTHER_VALUE _ => -1 | _ => 0 end
  /\ snd r = match type with
             | OHMD_OTHER_VALUE _ =>
                 emit (EvSetError "invalid type given to getf (%ud)") w
             | _ => w
             end.
Proof.
  intros Hlen. cbn zeta.
  destruct type; cbn [floats_written] in Hlen.
  - do 6 (destruct out as [|? out]; [simpl in Hlen; lia|]).
    split; [reflexivity|]. split; [reflexivity|]. split; [reflexivity|].
    split; reflexivity.
  - do 4 (destruct out as [|? out]; [simpl in Hlen; lia|]).
    split; [reflexivity|]. split; [reflexivity|]. split; [reflexivity|].
    split; reflexivity.
  - do 3 (destruct out as [|? out]; [simpl in Hlen; lia|]).
    split; [reflexivity|]. split; [reflexivity|]. split; [reflexivity|].
    split; reflexivity.
  - split; [reflexivity|]. split; [reflexivity|]. split; [reflexivity|].
    split; reflexivity.
  - split; [reflexivity|]. split; [reflexivity|]. split; [reflexivity|].
    split; reflexivity.
Qed.

(** X18: [get_device_list] appends one description for every enumerated
    Rift S device on interface 6, in the order of the enumeration and
    behind the entries the list already had; each of them carries the
    device's path and id 0, so [open_device] never rejects a description
    that came from the list. *)
Theorem get_device_list_lists_the_hmd_interface
    (devices : list ohmd_device_list_entry) :
  get_device_list devices
  = devices
    ++ map (fun d : hid_device_info =>
              mk_list_entry "OpenHMD Rift Driver" "Oculus VR, Inc." "Rift S" 0
                OHMD_DEVICE_CLASS_HMD OHMD_DEVICE_FLAGS_ROTATIONAL_TRACKING
                (mk_desc (hdi_path d) 0))
        (filter (fun d : hid_device_info => interface_number d =? RIFT_S_INTF_HMD)
           (hid_enumerate OCULUS_VR_INC_ID RIFT_S_PID))
  /\ forall e, In e (get_device_list []) ->
       desc_id (entry_desc e) = 0
       /\ exists d, In d (hid_enumerate OCULUS_VR_INC_ID RIFT_S_PID)
                    /\ interface_number d = RIFT_S_INTF_HMD
                    /\ desc_path (entry_desc e) = hdi_path d.
Proof.
  assert (A : forall devs acc,
             list_devices (mk_rift_devices "Rift S" OCULUS_VR_INC_ID RIFT_S_PID
                             RIFT_S_INTF_HMD) devs acc
             = acc
               ++ map (fun d : hid_device_info =>
                         mk_list_entry "OpenHMD Rift Driver" "Oculus VR, Inc."
                           "Rift S" 0 OHMD_DEVICE_CLASS_HMD
                           OHMD_DEVICE_FLAGS_ROTATIONAL_TRACKING
                           (mk_desc (hdi_path d) 0))
                   (filter (fun d : hid_device_info =>
                              interface_number d =? RIFT_S_INTF_HMD) devs)).
  { induction devs as [|d devs IH]; intros acc; cbn [list_devices filter map].
    - now rewrite app_nil_r.
    - cbn [rd_iface rd_name]. change (RIFT_S_INTF_HMD =? -1) with false.
      cbn [orb].
      destruct (interface_number d =? RIFT_S_INTF_HMD).
      + rewrite IH, <- app_assoc. reflexivity.
      + apply IH. }
  assert (B : forall acc, get_device_list acc
              = acc
                ++ map (fun d : hid_device_info =>
                          mk_list_entry "OpenHMD Rift Driver" "Oculus VR, Inc."
                            "Rift S" 0 OHMD_DEVICE_CLASS_HMD
                            OHMD_DEVICE_FLAGS_ROTATIONAL_TRACKING
                            (mk_desc (hdi_path d) 0))
                    (filter (fun d : hid_device_info =>
                               interface_number d =? RIFT_S_INTF_HMD)
                       (hid_enumerate OCULUS_VR_INC_ID RIFT_S_PID))).
  { intros acc. unfold get_device_list, rd. cbn [fold_left rd_company rd_id].
    destruct (hid_enumerate OCULUS_VR_INC_ID RIFT_S_PID) as [|d devs] eqn:En.
    - cbn. now rewrite app_nil_r.
    - apply A. }
  split; [apply B|].
  intros e. rewrite B. cbn [app]. intros Hin.
  apply in_map_iff in Hin. destruct Hin as (d & <- & Hd).
  apply filter_In in Hd. destruct Hd as (Hd & Hi).
  split; [reflexivity|]. exists d. split; [exact Hd|].
  split; [apply Z.eqb_eq; exact Hi|reflexivity].
Qed.

End CallbacksMore.

(* ================================================================== *)
(** * The rectification in binary32 *)
(* ================================================================== *)

Section RotationMore.
#[local] Existing Instance IEEE.Binary32.

(** Multiplying a finite binary32 value by 1 rounds to the value itself. *)
Lemma SFmul_one (s : bool) (m : positive) (e : Z) :
  bounded IEEE.prec32 IEEE.emax32 m e = true ->
  SFmul IEEE.prec32 IEEE.emax32 (IEEE.of_Z IEEE.prec32 IEEE.emax32 1)
    (S754_finite s m e)
  = S754_finite s m e.
Proof.
  unfold bounded, canonical_mantissa, fexp, emin, IEEE.prec32, IEEE.emax32.
  intros H. apply andb_true_iff in H. destruct H as (Hc & Hb).
  apply Z.eqb_eq in Hc.
  change (IEEE.of_Z 24 128 1) with (S754_finite false 8388608 (-23)).
  unfold SFmul, binary_round_aux, shr_fexp, fexp, emin, Zdigits2.
  cbn [xorb Pos.mul shr_record_of_loc digits2_pos].
  assert (D : Z.max (Z.pos (Pos.succ (Pos.succ (Pos.succ (Pos.succ (Pos.succ
               (Pos.succ (Pos.succ (Pos.succ (Pos.succ (Pos.succ (Pos.succ
               (Pos.succ (Pos.succ (Pos.succ (Pos.succ (Pos.succ (Pos.succ
               (Pos.succ (Pos.succ (Pos.succ (Pos.succ (Pos.succ (Pos.succ
               (digits2_pos m)))))))))))))))))))))))) + (-23 + e) - 24)
               (3 - 128 - 24) - (-23 + e) = 23) by lia.
  rewrite D. cbn [shr iter_pos shr_1 orb shr_m loc_of_shr_record round_nearest_even].
  replace (-23 + e + 23) with e by lia.
  replace (Z.max (Z.pos (digits2_pos m) + e - 24) (3 - 128 - 24) - e) with 0 by lia.
  cbn [shr shr_m]. rewrite Hb. reflexivity.
Qed.

Lemma ordinary_mul_one (x : spec_float) :
  ordinary x = true -> fmul (f_of_Z 1) x = x.
Proof.
  destruct x as [[|]| | |s m e]; try discriminate; intros H; [reflexivity|].
  apply SFmul_one. exact H.
Qed.

Lemma ordinary_mul_zero (x : spec_float) :
  ordinary x = true -> exists s, fmul (f_of_Z 0) x = S754_zero s.
Proof.
  destruct x as [s| | |s m e]; try discriminate; intros _; exists s; reflexivity.
Qed.

Lemma ordinary_add_zero_r (x : spec_float) (s : bool) :
  ordinary x = true -> fadd x (S754_zero s) = x.
Proof.
  destruct x as [[|]| | |sx m e]; try discriminate; intros _; destruct s; reflexivity.
Qed.

Lemma ordinary_add_zero_l (x : spec_float) (s : bool) :
  ordinary x = true -> fadd (S754_zero s) x = x.
Proof.
  destruct x as [[|]| | |sx m e]; try discriminate; intros _; destruct s; reflexivity.
Qed.

(** X19: in binary32 the identity matrix rectifies a vector to itself,
    bit for bit, when each of its components is [+0] or a finite nonzero
    value of the format. *)
Theorem rotate_by_identity_is_identity (v : vec3f) :
  ordinary (vx v) = true -> ordinary (vy v) = true -> ordinary (vz v) = true ->
  vec3f_rotate_3x3 v identity_mat3x3 = v.
Proof.
  destruct v as [x y z]. cbn [vx vy vz]. intros Hx Hy Hz.
  destruct (ordinary_mul_zero x Hx) as (sx & Zx).
  destruct (ordinary_mul_zero y Hy) as (sy & Zy).
  destruct (ordinary_mul_zero z Hz) as (sz & Zz).
  unfold vec3f_rotate_3x3, identity_mat3x3.
  cbn [fold_left seq set_arr rot_at arr row0 row1 row2 vx vy vz].
  rewrite Zx, Zy, Zz, !ordinary_mul_one by assumption.
  rewrite (ordinary_add_zero_r x sy Hx), (ordinary_add_zero_r x sz Hx).
  rewrite (ordinary_add_zero_l y sx Hy), (ordinary_add_zero_r y sz Hy).
  f_equal.
  assert (A : exists s', fadd (S754_zero sx) (S754_zero sy) = S754_zero s')
    by (destruct sx, sy; eexists; reflexivity).
  destruct A as (s' & ->). apply ordinary_add_zero_l. exact Hz.
Qed.

(** Outside those values the identity matrix changes the vector: [-0]
    comes back as [+0], and an infinite component turns the other two
    into NaN. *)
Lemma rotate_by_identity_edge_cases :
  vx (vec3f_rotate_3x3
        (mk_vec3f (S754_zero true) (f_of_Z 1) (f_of_Z 2)) identity_mat3x3)
  = S754_zero false
  /\ vy (vec3f_rotate_3x3
           (mk_vec3f (S754_infinity false) (f_of_Z 1) (f_of_Z 2)) identity_mat3x3)
     = S754_nan
  /\ vz (vec3f_rotate_3x3
           (mk_vec3f (S754_infinity false) (f_of_Z 1) (f_of_Z 2)) identity_mat3x3)
     = S754_nan.
Proof. split; [|split]; vm_compute; reflexivity. Qed.

Lemma rotate_by_identity_is_identity_witness :
  ordinary (f_of_Z 3) = true
  /\ ordinary (fdiv (f_of_Z (-1)) (f_of_Z 3)) = true
  /\ ordinary (f_of_Z 0) = true
  /\ vec3f_rotate_3x3
       (mk_vec3f (f_of_Z 3) (fdiv (f_of_Z (-1)) (f_of_Z 3)) (f_of_Z 0))
       identity_mat3x3
     = mk_vec3f (f_of_Z 3) (fdiv (f_of_Z (-1)) (f_of_Z 3)) (f_of_Z 0).
Proof.
  assert (H1 : ordinary (f_of_Z 3) = true) by (vm_compute; reflexivity).
  assert (H2 : ordinary (fdiv (f_of_Z (-1)) (f_of_Z 3)) = true)
    by (vm_compute; reflexivity).
  assert (H3 : ordinary (f_of_Z 0) = true) by (vm_compute; reflexivity).
  split; [exact H1|]. split; [exact H2|]. split; [exact H3|].
  exact (rotate_by_identity_is_identity
           (mk_vec3f (f_of_Z 3) (fdiv (f_of_Z (-1)) (f_of_Z 3)) (f_of_Z 0))
           H1 H2 H3).
Defined.

End RotationMore.

(* ================================================================== *)
(** * The further properties on the concrete device *)
(* ================================================================== *)

Section MoreWitnesses.
#[local] Existing Instance Rig.protocol.
#[local] Existing Instance Rig.hardware.

Lemma boot_registry_ok : registry_ok (Rig.boot : process).
Proof.
  unfold registry_ok. cbn.
  split; [constructor|]. split; [constructor|].
  split; [intros path p []|].
  intros p Hp. exfalso. apply Hp. reflexivity.
Qed.

Lemma initial_dt_survives_wrap_around_witness :
  last_imu_timestamp fresh <> 0
  /\ timestamp (three_good 5000) = (last_imu_timestamp fresh + 5001) mod 2 ^ 32
  /\ initial_dt fresh (three_good 5000) = fdiv (f_of_Z 5001) (f_of_Z 1000000).
Proof.
  destruct fresh_sentinel as (Hs & _).
  assert (H1 : last_imu_timestamp fresh <> 0) by (rewrite Hs; discriminate).
  assert (H2 : 0 <= 5001 < 2 ^ 32) by (split; [discriminate|reflexivity]).
  assert (H3 : timestamp (three_good 5000)
               = (last_imu_timestamp fresh + 5001) mod 2 ^ 32)
    by (rewrite Hs; reflexivity).
  split; [exact H1|]. split; [exact H3|].
  exact (initial_dt_survives_wrap_around fresh (three_good 5000) 5001 H1 H2 H3).
Defined.

Lemma short_state_report_reads_stale_byte_witness :
  (2 <= List.length [0x99; 1] <= Z.to_nat FEATURE_BUFFER_SIZE)%nat
  /\ display_on
       (fst (fst (fst (read_loop [ReadData [0x99; 1]; ReadData [0x66]]
                         fresh stack_buf opened_once))))
     = true.
Proof.
  assert (H : (2 <= List.length [0x99; 1] <= Z.to_nat FEATURE_BUFFER_SIZE)%nat)
    by (vm_compute; lia).
  split; [exact H|].
  exact (proj2 (short_state_report_reads_stale_byte fresh stack_buf opened_once
                  [0x99; 1] H)).
Defined.

Lemma open_hmd_failure_releases_everything_witness :
  fst (open_hmd (HW := no_controllers) (Rig.boot : process)) = None
  /\ deref 1%nat (snd (open_hmd (HW := no_controllers) (Rig.boot : process))) = None.
Proof.
  assert (H : fst (open_hmd (HW := no_controllers) (Rig.boot : process)) = None)
    by (vm_compute; reflexivity).
  split; [exact H|].
  exact (proj1 (open_hmd_failure_releases_everything (HW := no_controllers)
                  (Rig.boot : process) H)).
Defined.

Lemma open_hmd_success_session_witness :
  fst (open_hmd (Rig.boot : process)) = Some 1%nat
  /\ rift_hmds (snd (open_hmd (Rig.boot : process))) = [].
Proof.
  assert (H : fst (open_hmd (Rig.boot : process)) = Some 1%nat)
    by (vm_compute; reflexivity).
  split; [exact H|].
  exact (proj1 (proj2 (proj2 (open_hmd_success_session (Rig.boot : process)
                                1%nat H)))).
Defined.

Lemma session_list_stays_in_order_witness :
  registry_ok (Rig.boot : process) /\ registry_ok opened_once.
Proof.
  split; [exact boot_registry_ok|].
  destruct (session_list_stays_in_order (Rig.boot : process) boot_registry_ok)
    as (Ho & _).
  unfold opened_once.
  destruct (open_device Rig.desc Rig.boot) as [[r w']|] eqn:E;
    [exact (Ho _ _ _ E)|exact boot_registry_ok].
Defined.

Lemma release_hmd_leaves_others_alone_witness :
  exists w', release_hmd 1%nat two_sessions = Some w'
             /\ deref 2%nat w' = deref 2%nat two_sessions.
Proof.
  assert (X : went_through (release_hmd 1%nat two_sessions) = true)
    by (vm_compute; reflexivity).
  destruct (release_hmd 1%nat two_sessions) as [w'|] eqn:E; [|discriminate X].
  exists w'. split; [reflexivity|].
  assert (N : 2%nat <> 1%nat) by discriminate.
  exact (proj1 (release_hmd_leaves_others_alone two_sessions w' 1%nat E 2%nat N)).
Defined.

Lemma close_after_open_restores_witness :
  exists w1,
    open_device (mk_desc "hidraw6" 0) (Rig.boot : process) = Some (Some 1%nat, w1)
    /\ exists w2, close_device 1%nat w1 = Some w2
                  /\ rift_hmds w2 = []
                  /\ find_hmd "hidraw6" w2 = None.
Proof.
  assert (F : find_hmd "hidraw6" (Rig.boot : process) = None) by reflexivity.
  assert (X : option_map fst (open_device (mk_desc "hidraw6" 0) (Rig.boot : process))
              = Some (Some 1%nat)) by (vm_compute; reflexivity).
  destruct (open_device (mk_desc "hidraw6" 0) (Rig.boot : process))
    as [[r w1]|] eqn:E; [|discriminate X].
  cbn [option_map fst] in X. injection X as ->.
  exists w1. split; [reflexivity|].
  destruct (close_after_open_restores (Rig.boot : process) w1 "hidraw6" 1%nat
              boot_registry_ok F E)
    as (w2 & opening & closing & C & R & _ & Fn & _).
  exists w2. split; [exact C|]. split; [exact R|exact Fn].
Defined.

Lemma open_device_rejects_other_ids_witness :
  desc_id (mk_desc "hidraw6" 1) <> 0
  /\ open_device (mk_desc "hidraw6" 1) opened_once
     = Some (None,
             emit (EvLogE "Invalid device description passed to open_device()")
               opened_once).
Proof.
  assert (H : desc_id (mk_desc "hidraw6" 1) <> 0) by discriminate.
  assert (F : find_hmd "hidraw6" opened_once = Some 1%nat)
    by (vm_compute; reflexivity).
  split; [exact H|].
  destruct (open_device_rejects_other_ids (mk_desc "hidraw6" 1) opened_once H)
    as (w' & E & Hf & _).
  rewrite E, (Hf 1%nat F). reflexivity.
Defined.

Lemma update_device_touches_one_session_witness :
  exists w', update_device 1%nat stack_buf with_reads = Some w'
             /\ rift_hmds w' = rift_hmds with_reads.
Proof.
  assert (X : went_through (update_device 1%nat stack_buf with_reads) = true)
    by (vm_compute; reflexivity).
  destruct (update_device 1%nat stack_buf with_reads) as [w'|] eqn:E;
    [|discriminate X].
  exists w'. split; [reflexivity|].
  destruct (update_device_touches_one_session 1%nat stack_buf with_reads w' E)
    as (s & hp & hmd & _ & _ & _ & _ & _ & R & _).
  exact R.
Defined.

Lemma getf_hmd_writes_only_its_floats_witness :
  (floats_written OHMD_ROTATION_QUAT
   <= List.length [7 # 1; 8 # 1; 9 # 1; 10 # 1; 11 # 1])%nat
  /\ skipn 4 (snd (fst (getf_hmd fresh OHMD_ROTATION_QUAT
                          [7 # 1; 8 # 1; 9 # 1; 10 # 1; 11 # 1] opened_once)))
     = [11 # 1].
Proof.
  assert (H : (floats_written OHMD_ROTATION_QUAT
               <= List.length [7 # 1; 8 # 1; 9 # 1; 10 # 1; 11 # 1])%nat)
    by (simpl; lia).
  split; [exact H|].
  exact (proj1 (proj2 (getf_hmd_writes_only_its_floats fresh OHMD_ROTATION_QUAT
                         [7 # 1; 8 # 1; 9 # 1; 10 # 1; 11 # 1] opened_once H))).
Defined.

End MoreWitnesses.
